(** * QATCrossword word pattern matcher: a shallow embedding of [wordfinder.py]

    The development follows the layout of the Python source:
    - [Py]      : the string and dict primitives of Python the program uses;
    - [PyRe]    : an executable model of the fragment of Python's [re] module
                  that [pattern_to_regex] can emit;
    - [Engine]  : class [PatternMatcher] (state: [start_time], [_regex_cache];
                  effects: the wall clock and the exceptions [TimeoutError],
                  [re.error] and the [ValueError] of [int]);
    - [format_results], the button handler, and [WordlistCache.load_wordlist];
    - the predicates of the specification, then the proofs: the matcher and
      the pattern compiler, the equation solver on "X ; ~X", the dispatcher's
      exceptions and deadline, the display limit, the anagram matcher, the
      membership of result words in the index, the loader.

    Python [str] values are modelled as [string] (sequences of 8-bit
    characters); Python [int] lengths as [nat], clock readings and the timeout
    as [Z] (an arbitrary but fixed unit of time). *)

From Stdlib Require Import String Ascii List ZArith Lia Bool Arith PeanoNat.
From Stdlib Require Import DecimalString DecimalNat Permutation Sorted.
Import ListNotations.
Open Scope string_scope.
Open Scope list_scope.
Open Scope nat_scope.

(* ================================================================== *)
(** ** Python string and dict primitives *)
(* ================================================================== *)

Module Py.

Definition backslash : ascii := "092"%char.
Definition newline : ascii := "010"%char.

Definition str1 (c : ascii) : string := String c EmptyString.

(** [c in lo..hi] on code points. *)
Definition in_range (lo hi c : ascii) : bool :=
  (nat_of_ascii lo <=? nat_of_ascii c) && (nat_of_ascii c <=? nat_of_ascii hi).

(** The character tests and [lower] are those of Python on ASCII text
    (code points below 128). A character above 127 stands for no letter,
    digit or space here, whereas [str.isalpha], [str.isspace] and
    [str.lower] know the letters and spaces of Unicode: the embedding is
    faithful on ASCII text, and a statement that depends on it says so with
    [isascii]. *)
Definition isdigit (c : ascii) : bool := in_range "0"%char "9"%char c.
Definition isupper (c : ascii) : bool := in_range "A"%char "Z"%char c.
Definition islower (c : ascii) : bool := in_range "a"%char "z"%char c.
Definition isalpha (c : ascii) : bool := isupper c || islower c.
Definition isalnum (c : ascii) : bool := isalpha c || isdigit c.

(** [str.isspace] on the code points below 128. *)
Definition isspace (c : ascii) : bool :=
  let n := nat_of_ascii c in
  ((9 <=? n) && (n <=? 13)) || ((28 <=? n) && (n <=? 32)).

Definition lower_char (c : ascii) : ascii :=
  if isupper c then ascii_of_nat (nat_of_ascii c + 32) else c.

Fixpoint lower (s : string) : string :=
  match s with
  | EmptyString => EmptyString
  | String c r => String (lower_char c) (lower r)
  end.

(** [s.isalpha()]: non-empty and every character alphabetic. *)
Fixpoint all_chars (p : ascii -> bool) (s : string) : bool :=
  match s with
  | EmptyString => true
  | String c r => p c && all_chars p r
  end.

Definition str_isalpha (s : string) : bool :=
  negb (String.eqb s "") && all_chars isalpha s.

(** [s.isascii()] *)
Definition isascii (s : string) : bool :=
  all_chars (fun c => nat_of_ascii c <? 128) s.

Fixpoint lstrip (s : string) : string :=
  match s with
  | EmptyString => EmptyString
  | String c r => if isspace c then lstrip r else s
  end.

(** [s[::-1]] *)
Definition reversed (s : string) : string :=
  string_of_list_ascii (rev (list_ascii_of_string s)).

Definition strip (s : string) : string :=
  reversed (lstrip (reversed (lstrip s))).

(** [s.replace(old, new)] for a one-character [old]. *)
Fixpoint replace (old : ascii) (new : string) (s : string) : string :=
  match s with
  | EmptyString => EmptyString
  | String c r =>
    if Ascii.eqb c old then String.append new (replace old new r)
    else String c (replace old new r)
  end.

(** [s.count(c)] for a one-character [c]. *)
Fixpoint count (c : ascii) (s : string) : nat :=
  match s with
  | EmptyString => 0
  | String d r => (if Ascii.eqb d c then 1 else 0) + count c r
  end.

(** [c in s] *)
Fixpoint contains (c : ascii) (s : string) : bool :=
  match s with
  | EmptyString => false
  | String d r => Ascii.eqb d c || contains c r
  end.

Definition startswith (c : ascii) (s : string) : bool :=
  match s with
  | String d _ => Ascii.eqb d c
  | EmptyString => false
  end.

(** [s.find(c)]: the index of the first [c], [None] for [-1]. *)
Fixpoint find (c : ascii) (s : string) : option nat :=
  match s with
  | EmptyString => None
  | String d r =>
    if Ascii.eqb d c then Some 0
    else match find c r with Some j => Some (S j) | None => None end
  end.

(** [s[a:b]] for [0 <= a <= b]; Python clamps at the end of the string. *)
Definition slice (s : string) (a b : nat) : string := substring a (b - a) s.

(** [s[a:]] *)
Fixpoint drop (n : nat) (s : string) : string :=
  match n, s with
  | 0, _ => s
  | S n', String _ r => drop n' r
  | S _, EmptyString => EmptyString
  end.

(** [s.split(sep)] for a one-character separator. *)
Fixpoint split_aux (sep : ascii) (cur : string) (s : string) : list string :=
  match s with
  | EmptyString => [reversed cur]
  | String c r =>
    if Ascii.eqb c sep then reversed cur :: split_aux sep EmptyString r
    else split_aux sep (String c cur) r
  end.

Definition split (sep : ascii) (s : string) : list string :=
  split_aux sep EmptyString s.

(** ["".join(l)] *)
Definition join_empty (l : list string) : string :=
  fold_right append EmptyString l.

(** [sep.join(l)] *)
Fixpoint join (sep : string) (l : list string) : string :=
  match l with
  | [] => EmptyString
  | [x] => x
  | x :: r => String.append x (String.append sep (join sep r))
  end.

(** [int(s)] on a string of decimal digits. CPython refuses a string of
    more than [sys.int_max_str_digits] digits (4300 unless reconfigured,
    leading zeros included) with [ValueError]: that is [None]. *)
Definition digit_val (c : ascii) : nat := nat_of_ascii c - 48.

Fixpoint int_aux (acc : nat) (s : string) : nat :=
  match s with
  | EmptyString => acc
  | String c r => int_aux (10 * acc + digit_val c) r
  end.

Definition int_max_str_digits : nat := 4300.

Definition int (s : string) : option nat :=
  if String.length s <=? int_max_str_digits then Some (int_aux 0 s) else None.

(** [str(n)] *)
Definition str_of_nat (n : nat) : string :=
  NilZero.string_of_uint (Nat.to_uint n).

(** The longest prefix whose characters satisfy [p], and the rest. *)
Fixpoint span (p : ascii -> bool) (s : string) : string * string :=
  match s with
  | EmptyString => (EmptyString, EmptyString)
  | String c r =>
    if p c then let (a, b) := span p r in (String c a, b)
    else (EmptyString, s)
  end.

(** Sorting with [sorted]/[list.sort]: insertion sort on a total
  order given as a boolean [le]. *)
Section Sorting.
Context {A : Type} (le : A -> A -> bool).

Fixpoint insert_sorted (x : A) (l : list A) : list A :=
  match l with
  | [] => [x]
  | y :: r => if le x y then x :: l else y :: insert_sorted x r
  end.

Fixpoint sorted (l : list A) : list A :=
  match l with
  | [] => []
  | x :: r => insert_sorted x (sorted r)
  end.
End Sorting.

Definition sorted_str : list string -> list string := sorted String.leb.

Definition char_leb (a b : ascii) : bool := nat_of_ascii a <=? nat_of_ascii b.

Definition str_in (x : string) (l : list string) : bool :=
  existsb (String.eqb x) l.

(** [set(l)] as a duplicate-free list (first occurrences, in order). *)
Fixpoint to_set (l : list string) : list string :=
  match l with
  | [] => []
  | x :: r => x :: filter (fun y => negb (String.eqb x y)) (to_set r)
  end.

(** A [dict] with keys of type [string], in insertion order. *)
Section Dict.
Context {V : Type}.

Fixpoint dict_get (d : list (string * V)) (k : string) : option V :=
  match d with
  | [] => None
  | (k', v) :: r => if String.eqb k' k then Some v else dict_get r k
  end.

(** [d[k] = v]: an existing key keeps its position. *)
Fixpoint dict_set (d : list (string * V)) (k : string) (v : V)
  : list (string * V) :=
  match d with
  | [] => [(k, v)]
  | (k', v') :: r =>
      if String.eqb k' k then (k, v) :: r else (k', v') :: dict_set r k v
  end.
End Dict.

End Py.

(* ================================================================== *)
(** ** The fragment of Python's [re] reached by [pattern_to_regex] *)
(* ================================================================== *)

(** [pattern_to_regex] emits a regular expression made of [^], [$], [.],
    [.*], escaped literals [\c] produced by [re.escape], unescaped ordinary
    characters, and character classes copied verbatim from the pattern.
    [compile] follows the parser of [re] on that fragment (tokens, then the
    top level and the character-set loop); [None] stands for [re.error].
    Syntax the program never emits unescaped (groups, alternation, [?], [+],
    counted repeats, numeric and named escapes) is outside the model and is
    answered with [None]. Code points above 127 are neither word characters
    nor spaces. The theorems of [Engine] that hold for every regular-expression
    engine are stated over an arbitrary one; this model is used to run the
    program on concrete inputs. *)

Module PyRe.

Inductive category := Digit | Space | Word.

Inductive citem :=
| CChar (c : ascii)
| CRange (lo hi : ascii)
| CCat (negated : bool) (k : category).

Inductive atom :=
| Any
| Lit (c : ascii)
| Cat (negated : bool) (k : category)
| Class (negated : bool) (items : list citem).

Inductive item :=
| IBegin
| IEnd
| IOne (a : atom)
| IStar (a : atom).

Definition regex := list item.

Inductive token := TChar (c : ascii) | TEsc (c : ascii).

(** The tokenizer of [re]: a backslash takes the next character with it;
    a backslash at the end of the pattern is an error. *)
Fixpoint tokens (s : string) : option (list token) :=
  match s with
  | EmptyString => Some []
  | String c r =>
      if Ascii.eqb c Py.backslash then
        match r with
        | EmptyString => None
        | String d r' =>
            match tokens r' with
            | Some ts => Some (TEsc d :: ts)
            | None => None
            end
        end
      else
        match tokens r with
        | Some ts => Some (TChar c :: ts)
        | None => None
        end
  end.

Inductive code := CodeLit (c : ascii) | CodeCat (negated : bool) (k : category).

(** Escapes shared by the top level and character sets. Of the escapes
    made with a letter or a digit, the categories and the control characters
    are modelled. The numeric escapes (hexadecimal, octal, the four and
    eight digit forms) and the named ones, which [re] accepts inside a
    character set that [pattern_to_regex] copies from the pattern, are
    answered with [None], and so are the anchors and group references of
    the top level, which [pattern_to_regex] cannot emit: [re.escape] puts a
    backslash only before a character that is neither a letter nor a digit.
    The statements that run this model are about patterns without a
    character set written by the user, or about one concrete pattern. *)
Definition escape_code (in_class : bool) (c : ascii) : option code :=
  if Ascii.eqb c "d" then Some (CodeCat false Digit)
  else if Ascii.eqb c "D" then Some (CodeCat true Digit)
  else if Ascii.eqb c "s" then Some (CodeCat false Space)
  else if Ascii.eqb c "S" then Some (CodeCat true Space)
  else if Ascii.eqb c "w" then Some (CodeCat false Word)
  else if Ascii.eqb c "W" then Some (CodeCat true Word)
  else if Ascii.eqb c "a" then Some (CodeLit "007")
  else if Ascii.eqb c "f" then Some (CodeLit "012")
  else if Ascii.eqb c "n" then Some (CodeLit "010")
  else if Ascii.eqb c "r" then Some (CodeLit "013")
  else if Ascii.eqb c "t" then Some (CodeLit "009")
  else if Ascii.eqb c "v" then Some (CodeLit "011")
  else if Ascii.eqb c "b" && in_class then Some (CodeLit "008")
  else if Py.isalnum c then None
  else Some (CodeLit c).

Definition token_code (t : token) : option code :=
  match t with
  | TChar c => Some (CodeLit c)
  | TEsc c => escape_code true c
  end.

Definition citem_of_code (k : code) : citem :=
  match k with
  | CodeLit c => CChar c
  | CodeCat n c => CCat n c
  end.

Definition atom_of_code (k : code) : atom :=
  match k with
  | CodeLit c => Lit c
  | CodeCat n c => Cat n c
  end.

Definition unsupported_top (c : ascii) : bool :=
  Py.contains c "()|?+{".

(** The parser. [cls = None] at the top level; [cls = Some (neg, set)]
    inside a character set whose members so far are [set] (latest first).
    [acc] holds the items parsed so far, latest first. *)
Fixpoint parse (ts : list token) (acc : list item)
         (cls : option (bool * list citem)) : option regex :=
  match cls with
  | None =>
      match ts with
      | [] => Some (rev acc)
      | TEsc c :: r =>
          match escape_code false c with
          | Some k => parse r (IOne (atom_of_code k) :: acc) None
          | None => None
          end
      | TChar c :: r =>
          if Ascii.eqb c "." then parse r (IOne Any :: acc) None
          else if Ascii.eqb c "^" then parse r (IBegin :: acc) None
          else if Ascii.eqb c "$" then parse r (IEnd :: acc) None
          else if Ascii.eqb c "*" then
            match acc with
            | IOne a :: acc' => parse r (IStar a :: acc') None
            | _ => None
            end
          else if Ascii.eqb c "[" then
            match r with
            | TChar d :: r' =>
                if Ascii.eqb d "^" then parse r' acc (Some (true, []))
                else parse r acc (Some (false, []))
            | _ => parse r acc (Some (false, []))
            end
          else if unsupported_top c then None
          else parse r (IOne (Lit c) :: acc) None
      end
  | Some (neg, set) =>
      match ts with
      | [] => None
      | this :: r =>
          let closes :=
            match this, set with
            | TChar c, _ :: _ => Ascii.eqb c "]"
            | _, _ => false
            end in
          if closes then parse r (IOne (Class neg (rev set)) :: acc) None
          else
            match token_code this with
            | None => None
            | Some code1 =>
                match r with
                | TChar dash :: that :: r' =>
                    if Ascii.eqb dash "-" then
                      match that with
                      | TChar "]"%char =>
                          parse r' (IOne (Class neg
                                      (rev (CChar "-" :: citem_of_code code1 :: set)))
                                    :: acc) None
                      | _ =>
                          match code1, token_code that with
                          | CodeLit lo, Some (CodeLit hi) =>
                              if Py.char_leb lo hi
                              then parse r' acc (Some (neg, CRange lo hi :: set))
                              else None
                          | _, _ => None
                          end
                      end
                    else parse r acc (Some (neg, citem_of_code code1 :: set))
                | _ => parse r acc (Some (neg, citem_of_code code1 :: set))
                end
            end
      end
  end.

Definition compile (s : string) : option regex :=
  match tokens s with
  | Some ts => parse ts [] None
  | None => None
  end.

Definition in_category (k : category) (c : ascii) : bool :=
  match k with
  | Digit => Py.isdigit c
  | Space => Py.isspace c
  | Word => Py.isalnum c || Ascii.eqb c "_"
  end.

Definition citem_ok (i : citem) (c : ascii) : bool :=
  match i with
  | CChar d => Ascii.eqb c d
  | CRange lo hi => Py.in_range lo hi c
  | CCat n k => xorb n (in_category k c)
  end.

Definition atom_ok (a : atom) (c : ascii) : bool :=
  match a with
  | Any => negb (Ascii.eqb c Py.newline)
  | Lit d => Ascii.eqb c d
  | Cat n k => xorb n (in_category k c)
  | Class n items => xorb n (existsb (fun i => citem_ok i c) items)
  end.

(** [at_end s]: [$] matches at the end of the subject and just before a
    final newline. *)
Definition at_end (s : string) : bool :=
  String.eqb s "" || String.eqb s (Py.str1 Py.newline).

(** Whether the items match a prefix of [s]; [bol] tells whether [s] is
    the whole subject (the position is 0). *)
Fixpoint run (r : regex) (bol : bool) (s : string) {struct r} : bool :=
  match r with
  | [] => true
  | IBegin :: r' => bol && run r' bol s
  | IEnd :: r' => at_end s && run r' bol s
  | IOne a :: r' =>
      match s with
      | EmptyString => false
      | String c s' => atom_ok a c && run r' false s'
      end
  | IStar a :: r' =>
      (fix star (b : bool) (s : string) {struct s} : bool :=
         run r' b s ||
         match s with
         | EmptyString => false
         | String c s' => atom_ok a c && star false s'
         end) bol s
  end.

(** [compiled.match(word)] as a truth value. *)
Definition match_ (r : regex) (word : string) : bool := run r true word.

End PyRe.

(* ================================================================== *)
(** ** Data model *)
(* ================================================================== *)

(** [WordlistCache]: the sorted word list, the [defaultdict] from length to
    the sorted words of that length (in insertion order of its keys), and
    the membership set. *)
Record WordlistCache := {
  wordlist : list string;
  word_by_length : list (nat * list string);
  words_set : list string
}.

(** [word_by_length.get(n, [])] *)
Fixpoint by_length_get (d : list (nat * list string)) (n : nat) : list string :=
  match d with
  | [] => []
  | (k, ws) :: r => if k =? n then ws else by_length_get r n
  end.

(** The dict returned by [parse_variable_definition]. *)
Record var_info := {
  var_name : string;
  min_len : nat;
  max_len : nat;
  pattern : string
}.

(** One entry of [var_details] / [structure1] in [solve_equation]. *)
Record var_detail := {
  vd_name : string;
  vd_len : nat;
  vd_pattern : string;
  vd_reversed : bool
}.

(** A result tuple [(word1, word2 or None, bindings)]. *)
Definition match_result : Type := string * option string * list (string * string).

Inductive exn := TimeoutError | ReError | TypeError | ValueError.

Definition exn_eqb (a b : exn) : bool :=
  match a, b with
  | TimeoutError, TimeoutError | ReError, ReError | TypeError, TypeError
  | ValueError, ValueError => true
  | _, _ => false
  end.

Inductive outcome (A : Type) :=
| Ok (a : A)
| Raise (e : exn).
Arguments Ok {A} a.
Arguments Raise {A} e.

(** The mutable part of a [PatternMatcher], together with the number of
    readings of the wall clock taken so far. [checks] is a ghost history:
    each [_time_check] records the [start_time] it compared against and the
    instant it read. *)
Record pm_state := {
  start_time : Z;
  regex_cache : list (string * string);
  clock : nat;
  checks : list (Z * Z)
}.

Definition M (A : Type) : Type := pm_state -> outcome A * pm_state.

Definition ret {A} (a : A) : M A := fun s => (Ok a, s).

Definition bind {A B} (m : M A) (k : A -> M B) : M B :=
  fun s =>
    match m s with
    | (Ok a, s') => k a s'
    | (Raise e, s') => (Raise e, s')
    end.

Definition raise {A} (e : exn) : M A := fun s => (Raise e, s).

(** A call that leaves the matcher alone: it returns or raises. *)
Definition lift {A} (o : outcome A) : M A := fun s => (o, s).

(** [try: m except e: h] for one exception class. *)
Definition try_except {A} (m : M A) (e : exn) (h : M A) : M A :=
  fun s =>
    match m s with
    | (Ok a, s') => (Ok a, s')
    | (Raise e', s') => if exn_eqb e e' then h s' else (Raise e', s')
    end.

(** [try: m except Exception: h]: every exception of the model is an
    [Exception]. *)
Definition try_except_any {A} (m : M A) (h : exn -> M A) : M A :=
  fun s =>
    match m s with
    | (Ok a, s') => (Ok a, s')
    | (Raise e, s') => h e s'
    end.

Notation "x <- m ;; k" := (bind m (fun x => k))
  (at level 61, m at next level, right associativity).
Notation "m ;;; k" := (bind m (fun _ => k))
  (at level 61, right associativity).

(** [for x in l: body] threading an accumulator. *)
Fixpoint for_each {A B} (l : list A) (acc : B) (body : A -> B -> M B) : M B :=
  match l with
  | [] => ret acc
  | x :: r => acc' <- body x acc ;; for_each r acc' body
  end.

(** [for i, x in enumerate(l): body], counting from [i]. *)
Fixpoint for_enumerate {A B} (i : nat) (l : list A) (acc : B)
         (body : nat -> A -> B -> M B) : M B :=
  match l with
  | [] => ret acc
  | x :: r => acc' <- body i x acc ;; for_enumerate (S i) r acc' body
  end.

(* ================================================================== *)
(** ** class PatternMatcher *)
(* ================================================================== *)

Section Engine.

(** The wall clock: [time_at n] is what the [n]-th call of [time.time()]
    returns. *)
Variable time_at : nat -> Z.

(** [''.join(CONSONANTS)] and [''.join(VOWELS)]: the letters of the two
    sets in the iteration order of the running interpreter. *)
Variable CONSONANTS_joined : string.
Variable VOWELS_joined : string.

(** The regular-expression engine: [re.compile] ([None] for [re.error])
    and [compiled.match] as a truth value. *)
Variable compiled : Type.
Variable re_compile : string -> option compiled.
Variable re_match : compiled -> string -> bool.

(** The fields of the matcher that no method assigns. *)
Variable cache : WordlistCache.
Variable timeout : Z.

Definition time_time : M Z :=
  fun s =>
    (Ok (time_at (clock s)),
     {| start_time := start_time s; regex_cache := regex_cache s;
        clock := S (clock s); checks := checks s |}).

Definition set_start_time (t : Z) : M unit :=
  fun s =>
    (Ok tt,
     {| start_time := t; regex_cache := regex_cache s;
        clock := clock s; checks := checks s |}).

Definition set_regex_cache (c : list (string * string)) : M unit :=
  fun s =>
    (Ok tt,
     {| start_time := start_time s; regex_cache := c;
        clock := clock s; checks := checks s |}).

Definition get_regex_cache : M (list (string * string)) :=
  fun s => (Ok (regex_cache s), s).

Definition get_start_time : M Z := fun s => (Ok (start_time s), s).

Definition record_check (now : Z) : M unit :=
  fun s =>
    (Ok tt,
     {| start_time := start_time s; regex_cache := regex_cache s;
        clock := clock s; checks := checks s ++ [(start_time s, now)] |}).

Definition _time_check : M unit :=
  now <- time_time ;;
  start <- get_start_time ;;
  record_check now ;;;
  if (now - start >? timeout)%Z then raise TimeoutError else ret tt.

(** [re.escape(char)] for one character. *)
Definition re_escape (c : ascii) : string :=
  if Py.contains c "()[]{}?*+-|^$\.&~# " ||
     ((9 <=? nat_of_ascii c) && (nat_of_ascii c <=? 13))
  then String Py.backslash (Py.str1 c)
  else Py.str1 c.

(** The [while i < len(pattern)] loop, on the suffix [pattern[i:]]. *)
Fixpoint pattern_to_regex_loop (fuel : nat) (rest : string) (regex : string)
  : string :=
  match fuel, rest with
  | S fuel', String char rest' =>
      if Ascii.eqb char "." then
        pattern_to_regex_loop fuel' rest' (regex ++ ".")%string
      else if Ascii.eqb char "*" then
        pattern_to_regex_loop fuel' rest' (regex ++ ".*")%string
      else if Ascii.eqb char "[" then
        match Py.find "]" rest with
        | Some j =>
            pattern_to_regex_loop fuel' (Py.drop (S j) rest)
                                  (regex ++ Py.slice rest 0 (S j))%string
        | None =>
            pattern_to_regex_loop fuel' rest' (regex ++ re_escape char)%string
        end
      else if Ascii.eqb char Py.backslash then
        match rest' with
        | String next rest'' =>
            pattern_to_regex_loop fuel' rest'' (regex ++ re_escape next)%string
        | EmptyString =>
            pattern_to_regex_loop fuel' rest' (regex ++ re_escape char)%string
        end
      else
        pattern_to_regex_loop fuel' rest' (regex ++ re_escape char)%string
  | _, _ => regex
  end.

Definition pattern_to_regex (pattern : string) : M string :=
  c <- get_regex_cache ;;
  match Py.dict_get c pattern with
  | Some regex => ret regex
  | None =>
      let pattern :=
        Py.replace "#" ("[" ++ CONSONANTS_joined ++ "]")%string pattern in
      let pattern :=
        Py.replace "@" ("[" ++ VOWELS_joined ++ "]")%string pattern in
      let regex := pattern_to_regex_loop (String.length pattern) pattern "" in
      let final_regex := ("^" ++ regex ++ "$")%string in
      set_regex_cache (Py.dict_set c pattern final_regex) ;;;
      ret final_regex
  end.

(** [re.match(regex, word)], raising [re.error] on a bad expression. *)
Definition re_match_str (regex word : string) : M bool :=
  match re_compile regex with
  | Some r => ret (re_match r word)
  | None => raise ReError
  end.

Definition matches_pattern (word pattern : string)
           (length_constraint : option (Z * Z)) : M bool :=
  let too_long_or_short :=
    match length_constraint with
    | Some (min_len, max_len) =>
        negb ((min_len <=? Z.of_nat (String.length word))%Z &&
              (Z.of_nat (String.length word) <=? max_len)%Z)
    | None => false
    end in
  if too_long_or_short then ret false
  else if String.eqb pattern "*" then ret true
  else if String.eqb pattern "" then ret (String.eqb word "")
  else
    try_except
      (regex <- pattern_to_regex pattern ;; re_match_str regex word)
      ReError
      (ret false).

(** The first line of [s]: what [.*] can cover. *)
Definition first_line (s : string) : string :=
  fst (Py.span (fun c => negb (Ascii.eqb c Py.newline)) s).

(** The greedy "anything, then a closing parenthesis" at the end of the two
    definition expressions: the text before the last closing parenthesis of
    the first line of [s]. *)
Definition before_last_paren (s : string) : option string :=
  let line := first_line s in
  match Py.find ")" (Py.reversed line) with
  | Some j => Some (Py.slice line 0 (String.length line - 1 - j))
  | None => None
  end.

(** The first [re.match] of [parse_variable_definition]: a name in A-R,
    an equals sign, an opening parenthesis, digits, optionally a dash and
    digits, a colon, then anything up to a closing parenthesis. Returns the
    four groups, the third being optional. No choice point of the expression
    has a second way to succeed, so the match is computed left to right. *)
Definition match_definition (definition : string)
  : option (string * string * option string * string) :=
  match definition with
  | String n (String eq (String par r)) =>
      if Py.in_range "A" "R" n && Ascii.eqb eq "=" && Ascii.eqb par "(" then
        let (d1, r1) := Py.span Py.isdigit r in
        if String.eqb d1 "" then None
        else
          match r1 with
          | String c r2 =>
              if Ascii.eqb c ":" then
                match before_last_paren r2 with
                | Some p => Some (Py.str1 n, d1, None, p)
                | None => None
                end
              else if Ascii.eqb c "-" then
                let (d2, r3) := Py.span Py.isdigit r2 in
                if String.eqb d2 "" then None
                else
                  match r3 with
                  | String c' r4 =>
                      if Ascii.eqb c' ":" then
                        match before_last_paren r4 with
                        | Some p => Some (Py.str1 n, d1, Some d2, p)
                        | None => None
                        end
                      else None
                  | EmptyString => None
                  end
              else None
          | EmptyString => None
          end
      else None
  | _ => None
  end.

(** The second [re.match] of [parse_variable_definition], tried when the
    first fails: the same expression without the optional dash group. *)
Definition match_definition_exact (definition : string)
  : option (string * string * string) :=
  match definition with
  | String n (String eq (String par r)) =>
      if Py.in_range "A" "R" n && Ascii.eqb eq "=" && Ascii.eqb par "(" then
        let (d1, r1) := Py.span Py.isdigit r in
        if String.eqb d1 "" then None
        else
          match r1 with
          | String c r2 =>
              if Ascii.eqb c ":" then
                match before_last_paren r2 with
                | Some p => Some (Py.str1 n, d1, p)
                | None => None
                end
              else None
          | EmptyString => None
          end
      else None
  | _ => None
  end.

(** [int(s)] followed by [k]: the [ValueError] of [int] ends the call. *)
Definition with_int {A} (s : string) (k : nat -> outcome A) : outcome A :=
  match Py.int s with
  | Some n => k n
  | None => Raise ValueError
  end.

(** [parse_variable_definition] returns a dict or [None], or raises the
    [ValueError] of [int]. *)
Definition parse_variable_definition (definition : string)
  : outcome (option var_info) :=
  let checked (name : string) (min_l max_l : nat) (p : string) :=
    if (min_l <=? 0) || (max_l <? min_l) then None
    else Some {| var_name := name; min_len := min_l; max_len := max_l;
                 pattern := if String.eqb p "" then "*" else p |} in
  match match_definition definition with
  | None =>
      match match_definition_exact definition with
      | None => Ok None
      | Some (name, len, p) =>
          with_int len (fun min_l =>
          with_int len (fun max_l =>
          Ok (checked name min_l max_l p)))
      end
  | Some (name, min_len_str, max_len_str, p) =>
      with_int min_len_str (fun min_l =>
      match max_len_str with
      | Some m => with_int m (fun max_l => Ok (checked name min_l max_l p))
      | None => Ok (checked name min_l min_l p)
      end)
  end.

(** [length_constraint_from_pattern] returns a constraint (or [None]) and
    a pattern, or raises the [ValueError] of [int]. *)
Definition length_constraint_from_pattern (pattern_str : string)
  : outcome (option (nat * nat) * string) :=
  let (d1, r1) := Py.span Py.isdigit pattern_str in
  let exact :=
    match r1 with
    | String c r2 =>
        if negb (String.eqb d1 "") && Ascii.eqb c ":"
        then Some (d1, first_line r2) else None
    | EmptyString => None
    end in
  match exact with
  | Some (length, rest_pattern) =>
      with_int length (fun len =>
      Ok (if 0 <? len then (Some (len, len), rest_pattern)
          else (None, pattern_str)))
  | None =>
      let range :=
        match r1 with
        | String c r2 =>
            if negb (String.eqb d1 "") && Ascii.eqb c "-" then
              let (d2, r3) := Py.span Py.isdigit r2 in
              match r3 with
              | String c' r4 =>
                  if negb (String.eqb d2 "") && Ascii.eqb c' ":"
                  then Some (d1, d2, first_line r4) else None
              | EmptyString => None
              end
            else None
        | EmptyString => None
        end in
      match range with
      | Some (min_l, max_l, rest_pattern) =>
          with_int min_l (fun min_len =>
          with_int max_l (fun max_len =>
          Ok (if (0 <? min_len) && (min_len <=? max_len)
              then (Some (min_len, max_len), rest_pattern)
              else (None, pattern_str))))
      | None => Ok (None, pattern_str)
      end
  end.

(** A [defaultdict(int)] keyed by characters. *)
Fixpoint counts_get (d : list (ascii * nat)) (c : ascii) : nat :=
  match d with
  | [] => 0
  | (k, n) :: r => if Ascii.eqb k c then n else counts_get r c
  end.

Fixpoint counts_incr (d : list (ascii * nat)) (c : ascii) : list (ascii * nat) :=
  match d with
  | [] => [(c, 1)]
  | (k, n) :: r => if Ascii.eqb k c then (k, S n) :: r else (k, n) :: counts_incr r c
  end.

Definition counts_of (l : list ascii) : list (ascii * nat) :=
  fold_left counts_incr l [].

(** [for length in range(lo, hi + 1): candidate_words.extend(
    word_by_length.get(length, []))] *)
Definition words_in_range (lo hi : nat) : list string :=
  flat_map (by_length_get (word_by_length cache)) (seq lo (hi + 1 - lo)).

Definition process_anagram_pattern (pattern_str : string)
  : M (option (list string)) :=
  if negb (Py.startswith "/" pattern_str) then ret None
  else
    _time_check ;;;
    let content := Py.drop 1 pattern_str in
    let dots := Py.count "." content in
    let stars := Py.count "*" content in
    let base_letters :=
      Py.sorted Py.char_leb (filter Py.isalpha (list_ascii_of_string content)) in
    let base_counts := counts_of base_letters in
    let min_len := length base_letters + dots in
    let max_len := if 0 <? stars then None else Some (length base_letters + dots) in
    let candidate_words :=
      match max_len with
      | Some max_len =>
          if min_len =? max_len then by_length_get (word_by_length cache) min_len
          else words_in_range min_len max_len
      | None =>
          flat_map (fun kv : nat * list string =>
                      if min_len <=? fst kv then snd kv else [])
                   (word_by_length cache)
      end in
    matches <-
      for_enumerate 0 candidate_words []
        (fun i word matches =>
           (if i mod 1000 =? 0 then _time_check else ret tt) ;;;
           let wrong_len :=
             match max_len with
             | Some max_len => negb (String.length word =? max_len)
             | None => false
             end in
           if wrong_len then ret matches
           else if String.length word <? min_len then ret matches
           else
             let word_counts := counts_of (list_ascii_of_string word) in
             let possible :=
               forallb (fun kv : ascii * nat =>
                          negb (counts_get word_counts (fst kv) <? snd kv))
                       base_counts in
             if negb possible then ret matches
             else
               let possible :=
                 if stars =? 0 then
                   (Z.of_nat (String.length word) - Z.of_nat (length base_letters)
                    =? Z.of_nat dots)%Z
                 else true in
               if possible then ret (matches ++ [word]) else ret matches) ;;
    ret (Some matches).

Definition find_matches_simple_pattern (pattern_str : string)
  : M (list string) :=
  _time_check ;;;
  constraint <- lift (length_constraint_from_pattern pattern_str) ;;
  let (length_constraint, clean_pattern) :=
    constraint : option (nat * nat) * string in
  let candidate_words :=
    match length_constraint with
    | Some (min_len, max_len) => words_in_range min_len max_len
    | None => wordlist cache
    end in
  match candidate_words with
  | [] => ret []
  | _ =>
      compiled_regex <-
        try_except
          (regex <- pattern_to_regex clean_pattern ;;
           match re_compile regex with
           | None => raise ReError
           | Some r => ret (Some r)
           end)
          ReError
          (ret None) ;;
      match compiled_regex with
      | None => ret []
      | Some compiled_regex =>
          for_enumerate 0 candidate_words []
            (fun i word matches =>
               (if i mod 2000 =? 0 then _time_check else ret tt) ;;;
               if re_match compiled_regex word
               then ret (matches ++ [word]) else ret matches)
      end
  end.

Definition is_var_letter (c : ascii) : bool := Py.in_range "A" "R" c.

(** [re.findall(r'(~?[A-R])', s)] *)
Fixpoint findall_refs (s : string) : list string :=
  match s with
  | EmptyString => []
  | String c r =>
      if Ascii.eqb c "~" then
        match r with
        | String d r' =>
            if is_var_letter d then String c (Py.str1 d) :: findall_refs r'
            else findall_refs r
        | EmptyString => []
        end
      else if is_var_letter c then Py.str1 c :: findall_refs r
      else findall_refs r
  end.

(** ["".join(var_refs).replace('~','') == pattern.replace('~','')] *)
Definition only_refs (var_refs : list string) (p : string) : bool :=
  String.eqb (Py.replace "~" "" (Py.join_empty var_refs)) (Py.replace "~" "" p).

Definition variables_t : Type := list (string * var_info).

Inductive structure_result :=
| StructReturn
| StructInvalid
| StructOk (total_len : nat) (details : list var_detail).

(** The body of the one-clause parsing loop after [re.match] succeeded with
    groups [(ref, name)]. *)
Definition add_reference (variables : variables_t) (is_reversed : bool)
           (name : string) (total_len : nat) (var_details : list var_detail)
  : structure_result :=
  match Py.dict_get variables name with
  | None => StructReturn
  | Some var_info =>
      if negb (min_len var_info =? max_len var_info) then StructReturn
      else
        let var_len := min_len var_info in
        StructOk (total_len + var_len)
                 (var_details ++
                  [{| vd_name := name; vd_len := var_len;
                      vd_pattern := pattern var_info;
                      vd_reversed := is_reversed |}])
  end.

(** [while pos < len(pattern)] of the one-clause case, on [pattern[pos:]]. *)
Fixpoint parse_single (variables : variables_t) (rest : string)
         (total_len : nat) (var_details : list var_detail)
  : M structure_result :=
  match rest with
  | EmptyString => ret (StructOk total_len var_details)
  | String c r =>
      _time_check ;;;
      if Ascii.eqb c "~" then
        match r with
        | String d r' =>
            if is_var_letter d then
              match add_reference variables true (Py.str1 d) total_len var_details with
              | StructOk t v => parse_single variables r' t v
              | other => ret other
              end
            else ret StructInvalid
        | EmptyString => ret StructInvalid
        end
      else if is_var_letter c then
        match add_reference variables false (Py.str1 c) total_len var_details with
        | StructOk t v => parse_single variables r t v
        | other => ret other
        end
      else ret StructInvalid
  end.

(** The inner loop over [var_details] (one clause) or [structure1] (two
    clauses): slice, reverse if asked, check against the subpattern, bind.
    [None] is [possible = False]. *)
Fixpoint decompose (details : list var_detail) (word : string)
         (current_pos : nat) (decomp : list (string * string))
  : M (option (list (string * string))) :=
  match details with
  | [] => ret (Some decomp)
  | vd :: r =>
      let part := Py.slice word current_pos (current_pos + vd_len vd) in
      let part_to_check := if vd_reversed vd then Py.reversed part else part in
      ok <- matches_pattern part_to_check (vd_pattern vd)
              (Some (Z.of_nat (vd_len vd), Z.of_nat (vd_len vd))) ;;
      if negb ok then ret None
      else decompose r word (current_pos + vd_len vd)
                     (Py.dict_set decomp (vd_name vd) part_to_check)
  end.

Definition solve_single (variables : variables_t) (p : string)
  : M (list match_result) :=
  let var_refs := findall_refs p in
  if only_refs var_refs p then
    structure <-
      try_except_any (parse_single variables p 0 [])
        (fun e => match e with
                  | TimeoutError => raise TimeoutError
                  | _ => ret StructInvalid
                  end) ;;
    match structure with
    | StructReturn => ret []
    | StructInvalid => ret []
    | StructOk total_len var_details =>
        for_each (by_length_get (word_by_length cache) total_len) []
          (fun word results_single =>
             _time_check ;;;
             d <- decompose var_details word 0 [] ;;
             match d with
             | Some decomp => ret (results_single ++ [(word, None, decomp)])
             | None => ret results_single
             end)
    end
  else ret [].

(** [tuple(sorted((word1, word2)))] *)
Definition sorted_pair (w1 w2 : string) : string * string :=
  if String.leb w1 w2 then (w1, w2) else (w2, w1).

Definition pair_eqb (a b : string * string) : bool :=
  String.eqb (fst a) (fst b) && String.eqb (snd a) (snd b).

(** Relation "X ; ~X" once both clauses matched the name [var_name]. *)
Definition solve_self_reverse (variables : variables_t) (var_name : string)
  : M (option (list match_result)) :=
  match Py.dict_get variables var_name with
  | None => ret None
  | Some var_info =>
      let p := pattern var_info in
      candidates_A <-
        for_each (seq (min_len var_info) (max_len var_info + 1 - min_len var_info)) []
          (fun len acc =>
             for_each (by_length_get (word_by_length cache) len) acc
               (fun word acc =>
                  _time_check ;;;
                  ok <- matches_pattern word p
                          (Some (Z.of_nat len, Z.of_nat len)) ;;
                  if ok then ret (acc ++ [word]) else ret acc)) ;;
      let candidate_set := Py.to_set candidates_A in
      r <-
        for_each candidates_A ([], [])
          (fun word1 (st : list match_result * list (string * string)) =>
             let (results_paired, found_pairs) := st in
             _time_check ;;;
             let word2 := Py.reversed word1 in
             if String.eqb word1 word2 then ret st
             else if Py.str_in word2 candidate_set then
               let pair := sorted_pair word1 word2 in
               if negb (existsb (pair_eqb pair) found_pairs) then
                 ret (results_paired ++ [(word1, Some word2, [(var_name, word1)])],
                      pair :: found_pairs)
               else ret st
             else ret st) ;;
      ret (Some (fst r))
  end.

Fixpoint list_eqb {A} (eqb : A -> A -> bool) (l1 l2 : list A) : bool :=
  match l1, l2 with
  | [], [] => true
  | x :: r1, y :: r2 => eqb x y && list_eqb eqb r1 r2
  | _, _ => false
  end.

(** [for ref in vars1] of the two-clause case; [None] is
    [valid_config = False]. *)
Fixpoint parse_structure1 (variables : variables_t) (vars1 : list string)
         (total_len : nat) (structure1 : list var_detail)
  : M (option (nat * list var_detail)) :=
  match vars1 with
  | [] => ret (Some (total_len, structure1))
  | ref :: r =>
      _time_check ;;;
      let is_reversed := Py.startswith "~" ref in
      let name := Py.replace "~" "" ref in
      match Py.dict_get variables name with
      | None => ret None
      | Some v_info =>
          if negb (min_len v_info =? max_len v_info) then ret None
          else
            let v_len := min_len v_info in
            parse_structure1 variables r (total_len + v_len)
              (structure1 ++
               [{| vd_name := name; vd_len := v_len;
                   vd_pattern := pattern v_info;
                   vd_reversed := is_reversed |}])
      end
  end.

(** [for ref2 in vars2: word2 += ...]; [None] is the [KeyError]. *)
Fixpoint build_word2 (vars2 : list string) (parts : list (string * string))
         (word2 : string) : option string :=
  match vars2 with
  | [] => Some word2
  | ref2 :: r =>
      let is_reversed2 := Py.startswith "~" ref2 in
      let name2 := Py.replace "~" "" ref2 in
      match Py.dict_get parts name2 with
      | None => None
      | Some val =>
          build_word2 r parts
            (word2 ++ (if is_reversed2 then Py.reversed val else val))%string
      end
  end.

(** The order of [sorted] on [(key, value)] tuples. *)
Definition item_leb (a b : string * string) : bool :=
  String.ltb (fst a) (fst b) ||
  (String.eqb (fst a) (fst b) && String.leb (snd a) (snd b)).

Definition sequence_reversal_shape (vars1 vars2 : list string)
           (p1_str p2_str : string) : bool :=
  (0 <? length vars1) && (length vars1 =? length vars2) &&
  only_refs vars1 p1_str && only_refs vars2 p2_str &&
  list_eqb String.eqb (map (Py.replace "~" "") vars1)
                      (rev (map (Py.replace "~" "") vars2)).

(** Relation "sequence ; reversed sequence": returns the extended
    [results_paired] and whether [handled] was set. *)
Definition solve_sequence_reversal (variables : variables_t)
           (vars1 vars2 : list string) (results_paired : list match_result)
  : M (list match_result * bool) :=
  config <-
    try_except_any (parse_structure1 variables vars1 0 [])
      (fun e => match e with
                | TimeoutError => raise TimeoutError
                | _ => ret None
                end) ;;
  match config with
  | None => ret (results_paired, false)
  | Some (total_len, structure1) =>
      r <-
        for_each (by_length_get (word_by_length cache) total_len)
          (results_paired, [])
          (fun word1 (st : list match_result * list (list (string * string))) =>
             let (results_paired, found_decompositions) := st in
             _time_check ;;;
             d <- decompose structure1 word1 0 [] ;;
             match d with
             | None => ret st
             | Some parts =>
                 match build_word2 vars2 parts "" with
                 | None => ret st
                 | Some word2 =>
                     if Py.str_in word2 (words_set cache) then
                       let decomp_tuple := Py.sorted item_leb parts in
                       if String.eqb word1 word2 &&
                          existsb (list_eqb pair_eqb decomp_tuple) found_decompositions
                       then ret st
                       else ret (results_paired ++ [(word1, Some word2, parts)],
                                 decomp_tuple :: found_decompositions)
                     else ret st
                 end
             end) ;;
      ret (fst r, true)
  end.

(** [re.match(r'^([A-R])$', s)] and [re.match(r'^~([A-R])$', s)]: the
    name, when the clause is one variable letter (after a tilde for the
    second form), possibly followed by a final newline. *)
Definition match_bare (s : string) : option string :=
  match s with
  | String c r =>
      if is_var_letter c && PyRe.at_end r then Some (Py.str1 c) else None
  | EmptyString => None
  end.

Definition match_tilde (s : string) : option string :=
  match s with
  | String t r => if Ascii.eqb t "~" then match_bare r else None
  | EmptyString => None
  end.

Definition solve_pair (variables : variables_t) (p1_str p2_str : string)
  : M (list match_result) :=
  first <-
    match match_bare p1_str, match_tilde p2_str with
    | Some n1, Some n2 =>
        if String.eqb n1 n2 then
          r <- solve_self_reverse variables n1 ;;
          match r with
          | None => ret None
          | Some results_paired => ret (Some (results_paired, true))
          end
        else ret (Some ([], false))
    | _, _ => ret (Some ([], false))
    end ;;
  match first with
  | None => ret []
  | Some (results_paired, handled) =>
      let vars1 := findall_refs p1_str in
      let vars2 := findall_refs p2_str in
      second <-
        (if sequence_reversal_shape vars1 vars2 p1_str p2_str then
           r <- solve_sequence_reversal variables vars1 vars2 results_paired ;;
           ret (fst r, handled || snd r)
         else ret (results_paired, handled)) ;;
      if negb (snd second) then ret [] else ret (fst second)
  end.

Definition solve_equation (variables : variables_t) (patterns : list string)
  : M (list match_result) :=
  now <- time_time ;;
  set_start_time now ;;;
  match patterns with
  | [] => ret []
  | _ =>
      match variables with
      | [] => ret []
      | _ =>
          match patterns with
          | [p] => solve_single variables p
          | [p1_str; p2_str] => solve_pair variables p1_str p2_str
          | _ => ret []
          end
      end
  end.

Definition is_definition_clause (part : string) : bool :=
  Py.contains "=" part &&
  match part with
  | String c _ => Py.isalpha c && Py.isupper c && Py.char_leb c "R"
  | EmptyString => false
  end.

Definition no_bindings (m : string) : match_result := (m, None, []).

(** One clause of the intersection mode: its match set. *)
Definition clause_matches (p : string) : M (list string) :=
  if Py.startswith "/" p then
    matches_list <- process_anagram_pattern p ;;
    match matches_list with
    | Some l => ret (Py.to_set l)
    | None => ret []
    end
  else
    matches_list <- find_matches_simple_pattern p ;;
    ret (Py.to_set matches_list).

(** [for i, pattern in enumerate(search_patterns_raw)] of the intersection
    mode; [common_matches] is [None] before the first clause. *)
Fixpoint intersect_loop (patterns : list string)
         (common_matches : option (list string)) : M (option (list string)) :=
  match patterns with
  | [] => ret common_matches
  | p :: r =>
      _time_check ;;;
      current_matches <- clause_matches p ;;
      let common :=
        match common_matches with
        | None => current_matches
        | Some c => filter (fun w => Py.str_in w current_matches) c
        end in
      match common with
      | [] => ret (Some common)
      | _ => intersect_loop r (Some common)
      end
  end.

Definition query_result : Type := option (list match_result) * string.

Definition execute_query (query : string) : M query_result :=
  now <- time_time ;;
  set_start_time now ;;;
  set_regex_cache [] ;;;
  let raw_parts := Py.split ";" (Py.strip query) in
  let parts :=
    map Py.strip
        (filter (fun p => negb (String.eqb (Py.strip p) "")) raw_parts) in
  let variable_defs_raw := filter is_definition_clause parts in
  let search_patterns_raw :=
    filter (fun p => negb (is_definition_clause p)) parts in
  variables <-
    for_each variable_defs_raw []
      (fun v_def_str (variables : variables_t) =>
         _time_check ;;;
         parsed <- lift (parse_variable_definition v_def_str) ;;
         match parsed with
         | Some parsed_var =>
             ret (Py.dict_set variables (var_name parsed_var) parsed_var)
         | None => ret variables
         end) ;;
  let is_equation_query :=
    negb (length variables =? 0) && negb (length search_patterns_raw =? 0) in
  try_except_any
    (if is_equation_query then
       results <- solve_equation variables search_patterns_raw ;;
       ret (Some results, "equation")
     else
       match search_patterns_raw with
       | [p] =>
           if Py.startswith "/" p then
             matches <- process_anagram_pattern p ;;
             match matches with
             | Some l => ret (Some (map no_bindings l), "anagram")
             | None => raise TypeError
             end
           else
             matches <- find_matches_simple_pattern p ;;
             ret (Some (map no_bindings matches), "simple")
       | _ :: _ :: _ =>
           common_matches <- intersect_loop search_patterns_raw None ;;
           match common_matches with
           | Some c =>
               ret (Some (map no_bindings (Py.sorted_str c)), "intersection")
           | None => ret (Some [], "intersection")
           end
       | [] => ret (Some [], "definition_only")
       end)
    (fun e =>
       match e with
       | TimeoutError => ret (None, "timeout")
       | _ => ret (Some [], "error")
       end).

(** [PatternMatcher(...)]: the constructor reads the clock once. *)
Definition new_matcher (reads : nat) : pm_state :=
  {| start_time := time_at reads; regex_cache := [];
     clock := S reads; checks := [] |}.

End Engine.

(* ================================================================== *)
(** ** Rendering and the search button *)
(* ================================================================== *)

(** The line of one result. *)
Definition render_result (result_type : string) (res_tuple : match_result)
  : string :=
  let '(word1, word2, decomp) := res_tuple in
  if String.eqb result_type "equation" then
    let decomp_parts :=
      map (fun key => match Py.dict_get decomp key with
                      | Some v => v
                      | None => ""
                      end)
          (Py.sorted_str (map fst decomp)) in
    let decomp_str := Py.join " - " decomp_parts in
    match word2 with
    | None => (word1 ++ "    (" ++ decomp_str ++ ")")%string
    | Some word2 => (word1 ++ " / " ++ word2 ++ "    (" ++ decomp_str ++ ")")%string
    end
  else word1.

(** [for res_tuple in results: if displayed_count >= max_disp: break; ...] *)
Fixpoint display_loop (result_type : string) (max_disp : nat)
         (results : list match_result) (displayed_count : nat)
         (output : list string) : list string :=
  match results with
  | [] => output
  | res_tuple :: r =>
      if max_disp <=? displayed_count then output
      else display_loop result_type max_disp r (S displayed_count)
                        (output ++ [render_result result_type res_tuple])
  end.

Definition format_results (results : option (list match_result))
           (result_type : string) (max_disp : nat) : string :=
  match results with
  | None => "Query execution timed out."
  | Some [] =>
      if String.eqb result_type "definition_only" then "" else "No matches found."
  | Some results =>
      let num_results := length results in
      let output :=
        [("Found " ++ Py.str_of_nat num_results ++ " matches:")%string; "---"] in
      let output := display_loop result_type max_disp results 0 output in
      let output :=
        if max_disp <? num_results then
          output ++
          [(Py.str1 Py.newline ++ "... (displaying " ++ Py.str_of_nat max_disp
            ++ " of " ++ Py.str_of_nat num_results ++ " results)")%string]
        else output in
      Py.join (Py.str1 Py.newline) output
  end.

Section Handler.

Variable time_at : nat -> Z.
Variable CONSONANTS_joined : string.
Variable VOWELS_joined : string.
Variable compiled : Type.
Variable re_compile : string -> option compiled.
Variable re_match : compiled -> string -> bool.

(** What pressing "Execute Search" leaves behind. *)
Inductive search_outcome :=
| NoQuery
| NoWordlist
| Propagated (e : exn)
| Shown (engine : query_result) (text : string).

(** The body of [if st.button("Execute Search")]: [reads] readings of the
    clock were taken before. The elapsed-time prefix of the result box is a
    formatted float and is left out of [text]. *)
Definition execute_search (word_cache : WordlistCache) (query_input : string)
           (max_results : nat) (timeout_seconds : Z) (reads : nat)
  : search_outcome :=
  if String.eqb query_input "" then NoQuery
  else
    match wordlist word_cache with
    | [] => NoWordlist
    | _ =>
        (* start_exec_time = time.time() is reading number [reads] *)
        let matcher := new_matcher time_at (S reads) in
        match execute_query time_at CONSONANTS_joined VOWELS_joined
                            compiled re_compile re_match word_cache timeout_seconds
                            query_input matcher with
        | (Raise e, _) => Propagated e
        | (Ok (results_data, result_type), _) =>
            match results_data with
            | Some _ =>
                Shown (results_data, result_type)
                      (format_results results_data result_type max_results)
            | None =>
                Shown (results_data, result_type)
                      ("Search timed out after " ++
                       NilZero.string_of_int (Z.to_int timeout_seconds) ++
                       " seconds.")%string
            end
        end
    end.

End Handler.

(* ================================================================== *)
(** ** WordlistCache.load_wordlist *)
(* ================================================================== *)

(** [word_by_length[n].append(w)] on the [defaultdict(list)]. *)
Fixpoint by_length_append (d : list (nat * list string)) (n : nat) (w : string)
  : list (nat * list string) :=
  match d with
  | [] => [(n, [w])]
  | (k, ws) :: r =>
      if k =? n then (k, ws ++ [w]) :: r else (k, ws) :: by_length_append r n w
  end.

(** [load_wordlist] on the lines of the file; [None] when the file cannot
    be opened. Returns the cache and the number of words. *)
Definition load_wordlist (file : option (list string)) : WordlistCache * nat :=
  match file with
  | None => ({| wordlist := []; word_by_length := []; words_set := [] |}, 0)
  | Some lines =>
      let words :=
        filter Py.str_isalpha (map (fun line => Py.lower (Py.strip line)) lines) in
      let by_length :=
        fold_left (fun d w => by_length_append d (String.length w) w) words [] in
      let c := {| wordlist := Py.sorted_str words;
                  word_by_length :=
                    map (fun kv : nat * list string =>
                           (fst kv, Py.sorted_str (snd kv))) by_length;
                  words_set := Py.to_set words |} in
      (c, length (wordlist c))
  end.

(* ================================================================== *)
(** ** Running the program with the model of [re] *)
(* ================================================================== *)

Definition alphabetical_consonants : string := "bcdfghjklmnpqrstvwxyz".
Definition alphabetical_vowels : string := "aeiou".

(** [execute_query] with [PyRe] as the engine, on a fresh matcher. *)
Definition run_query (time_at : nat -> Z) (cons vows : string)
           (cache : WordlistCache) (timeout : Z) (query : string)
  : outcome query_result * pm_state :=
  execute_query time_at cons vows PyRe.regex PyRe.compile PyRe.match_ cache
                timeout query
                (new_matcher time_at 0).

Definition frozen_clock : nat -> Z := fun _ => 0%Z.
Definition ticking_clock : nat -> Z := fun n => Z.of_nat n.

(** A clock that stands still for its first [n + 1] readings and then
    jumps by ten units. *)
Definition stalling_clock (n : nat) : nat -> Z :=
  fun k => if k <=? n then 0%Z else 10%Z.

Definition demo_cache : WordlistCache :=
  fst (load_wordlist (Some ["evil"; "live"; "noon"; "stop"; "pots"; "cat"; "cats";
                            "tack"; "act"; "abba"; "baab"; "contact"; "Kayak "])).

Definition palindrome_cache : WordlistCache :=
  fst (load_wordlist (Some ["evil"; "live"; "noon"])).

(** A matcher state at the start of a query: the cache is empty. *)
Definition fresh_state (t : Z) (reads : nat) (log : list (Z * Z)) : pm_state :=
  {| start_time := t; regex_cache := []; clock := reads; checks := log |}.

(** All orders in which a set of letters can be iterated. *)
Fixpoint insert_everywhere (x : ascii) (l : list ascii) : list (list ascii) :=
  match l with
  | [] => [[x]]
  | y :: r => (x :: l) :: map (cons y) (insert_everywhere x r)
  end.

Fixpoint permutations (l : list ascii) : list (list ascii) :=
  match l with
  | [] => [[]]
  | x :: r => flat_map (insert_everywhere x) (permutations r)
  end.

Definition vowel_orders : list string :=
  map string_of_list_ascii (permutations (list_ascii_of_string "aeiou")).

(** The escape sequence for the vowel sign: a backslash, then [@]. *)
Definition escaped_vowel_sign : string := String Py.backslash "@".

(** ** Predicates of the specification *)

(** The index invariant of the data model: every word of a length bucket
    has that length and is in the word list, every word of the list is in
    the bucket of its length and in the membership set, and the set holds
    nothing else. *)
Definition index_ok (c : WordlistCache) : bool :=
  forallb (fun kv : nat * list string =>
             forallb (fun w => (String.length w =? fst kv) &&
                               Py.str_in w (wordlist c)) (snd kv))
          (word_by_length c) &&
  forallb (fun w => Py.str_in w (by_length_get (word_by_length c) (String.length w))
                    && Py.str_in w (words_set c))
          (wordlist c) &&
  forallb (fun w => Py.str_in w (wordlist c)) (words_set c).

Definition primary_word (r : match_result) : string := fst (fst r).
Definition secondary_word (r : match_result) : option string := snd (fst r).

(** Both words of a result are words of the index. *)
Definition result_in_index (c : WordlistCache) (r : match_result) : Prop :=
  In (primary_word r) (wordlist c) /\
  match secondary_word r with
  | Some w2 => In w2 (wordlist c)
  | None => True
  end.

(** The base letters of an anagram clause and what it asks of a word. *)
Definition base_letters_of (content : string) : list ascii :=
  filter Py.isalpha (list_ascii_of_string content).

Definition covers (base : list ascii) (w : string) : Prop :=
  forall c, count_occ ascii_dec base c <= Py.count c w.

Definition anagram_accepts (content w : string) : Prop :=
  let base := base_letters_of content in
  covers base w /\
  (if Py.count "*" content =? 0
   then (Z.of_nat (String.length w) - Z.of_nat (length base)
         = Z.of_nat (Py.count "." content))%Z
   else length base + Py.count "." content <= String.length w).

(** The test [process_anagram_pattern] applies to one candidate word, as
    a function of the quantities it computes from the clause. *)
Definition anagram_keeps (content : string) (word : string) : bool :=
  let dots := Py.count "." content in
  let stars := Py.count "*" content in
  let base_letters := Py.sorted Py.char_leb (base_letters_of content) in
  let min_len := length base_letters + dots in
  negb (if 0 <? stars then false else negb (String.length word =? min_len)) &&
  negb (String.length word <? min_len) &&
  forallb (fun kv : ascii * nat =>
             negb (counts_get (counts_of (list_ascii_of_string word)) (fst kv)
                   <? snd kv))
          (counts_of base_letters) &&
  (if stars =? 0 then
     (Z.of_nat (String.length word) - Z.of_nat (length base_letters)
      =? Z.of_nat dots)%Z
   else true).

(** What the engine hands to the rendering step. *)
Definition engine_part (o : search_outcome) : option (outcome query_result) :=
  match o with
  | NoQuery | NoWordlist => None
  | Propagated e => Some (Raise e)
  | Shown engine _ => Some (Ok engine)
  end.

(** Hoare triples over the matcher monad, with a postcondition for normal
    return and one for a raised exception. *)
Definition hoare {A} (P : pm_state -> Prop) (m : M A)
           (Q : A -> pm_state -> Prop) (E : exn -> pm_state -> Prop) : Prop :=
  forall s, P s ->
    match m s with
    | (Ok a, s') => Q a s'
    | (Raise e, s') => E e s'
    end.

(** The clauses of a query as [execute_query] splits them, and whether the
    query is dispatched to the equation solver: some variable definition is
    valid and there is a search clause. *)
Definition query_clauses (query : string) : list string :=
  map Py.strip
      (filter (fun p => negb (String.eqb (Py.strip p) ""))
              (Py.split ";" (Py.strip query))).

Definition equation_mode (query : string) : bool :=
  existsb (fun d => match parse_variable_definition d with
                    | Ok (Some _) => true
                    | _ => false
                    end)
          (filter is_definition_clause (query_clauses query)) &&
  negb (length (filter (fun p => negb (is_definition_clause p))
                       (query_clauses query)) =? 0).

(** The checks logged between two states. *)
Definition checks_from (s s' : pm_state) : list (Z * Z) :=
  skipn (length (checks s)) (checks s').

(** Every check logged between [s] and [s'] compared against the start
    time [t]. *)
Definition all_checks_use (t : Z) (s s' : pm_state) : Prop :=
  Forall (fun c => fst c = t) (checks_from s s').

(** The parts of [execute_query], named so that statements can speak of
    them: the loop over the definitions, the guarded block, its handlers,
    and the state in which the loop starts. *)
Section DispatchParts.

Variable time_at : nat -> Z.
Variables CONSONANTS_joined VOWELS_joined : string.
Variable compiled : Type.
Variable re_compile : string -> option compiled.
Variable re_match : compiled -> string -> bool.
Variable cache : WordlistCache.
Variable timeout : Z.

Definition definitions_loop (defs : list string) : M variables_t :=
  for_each defs []
    (fun v_def_str (variables : variables_t) =>
       _time_check time_at timeout ;;;
       parsed <- lift (parse_variable_definition v_def_str) ;;
       match parsed with
       | Some parsed_var =>
           ret (Py.dict_set variables (var_name parsed_var) parsed_var)
       | None => ret variables
       end).

Definition guarded_block (variables : variables_t) (search : list string)
  : M query_result :=
  if negb (length variables =? 0) && negb (length search =? 0) then
    results <- solve_equation time_at CONSONANTS_joined VOWELS_joined compiled
                 re_compile re_match cache timeout variables search ;;
    ret (Some results, "equation")
  else
    match search with
    | [p] =>
        if Py.startswith "/" p then
          matches <- process_anagram_pattern time_at cache timeout p ;;
          match matches with
          | Some l => ret (Some (map no_bindings l), "anagram")
          | None => raise TypeError
          end
        else
          matches <- find_matches_simple_pattern time_at CONSONANTS_joined
                       VOWELS_joined compiled re_compile re_match cache
                       timeout p ;;
          ret (Some (map no_bindings matches), "simple")
    | _ :: _ :: _ =>
        common_matches <- intersect_loop time_at CONSONANTS_joined
                            VOWELS_joined compiled re_compile re_match cache
                            timeout search None ;;
        match common_matches with
        | Some c =>
            ret (Some (map no_bindings (Py.sorted_str c)), "intersection")
        | None => ret (Some [], "intersection")
        end
    | [] => ret (Some [], "definition_only")
    end.

Definition dispatch_handler (e : exn) : M query_result :=
  match e with
  | TimeoutError => ret (None, "timeout")
  | _ => ret (Some [], "error")
  end.

Definition dispatch_state (s : pm_state) : pm_state :=
  {| start_time := time_at (clock s); regex_cache := [];
     clock := S (clock s); checks := checks s |}.

End DispatchParts.

(** A logged check passed when the instant read was within the timeout of
    the start time it compared against. *)
Definition passes (timeout : Z) (c : Z * Z) : Prop :=
  (snd c - fst c <= timeout)%Z.

(** The last of the checks found the deadline exceeded, the ones before
    passed. *)
Definition exceeded_last (timeout : Z) (new : list (Z * Z)) : Prop :=
  exists pre c,
    new = pre ++ [c] /\ Forall (passes timeout) pre /\ ~ passes timeout c.

(** [agrees timeout X o new]: the outcome [o] fits the checks [new] logged
    on the way to it. [TimeoutError] is raised exactly when the last check
    found the deadline exceeded; otherwise all checks passed, and a raised
    exception is one allowed by [X]. *)
Definition agrees (timeout : Z) (X : exn -> Prop) {A} (o : outcome A)
           (new : list (Z * Z)) : Prop :=
  match o with
  | Ok _ => Forall (passes timeout) new
  | Raise TimeoutError => exceeded_last timeout new
  | Raise e => Forall (passes timeout) new /\ X e
  end.

Definition timely (timeout : Z) (X : exn -> Prop) {A} (m : M A) : Prop :=
  forall s,
    exists new,
      checks (snd (m s)) = checks s ++ new /\ agrees timeout X (fst (m s)) new.


(** [returns m Q]: whenever [m] returns normally, its value satisfies [Q]. *)
Definition returns {A} (m : M A) (Q : A -> Prop) : Prop :=
  forall s, match fst (m s) with
            | Ok a => Q a
            | Raise _ => True
            end.

(** [extends s s']: from [s] to [s'] the start time was not reassigned and
    every check logged in between compared against it; the clock was read
    once per check. *)
Definition extends (s s' : pm_state) : Prop :=
  start_time s' = start_time s /\
  exists new,
    checks s' = checks s ++ new /\
    clock s' = clock s + length new /\
    Forall (fun c => fst c = start_time s) new.

(** [keeps m]: running [m] extends the state it starts from. *)
Definition keeps {A} (m : M A) : Prop :=
  forall s, extends s (snd (m s)).

(** The words [load_wordlist] keeps from the lines of a file, in file
    order: stripped, lowercased, non-empty and alphabetic. *)
Definition kept_words (lines : list string) : list string :=
  filter Py.str_isalpha (map (fun line => Py.lower (Py.strip line)) lines).

(** The pattern after [pattern_to_regex] has rewritten the consonant and
    vowel signs, and the expression it builds from a pattern on a cache
    miss. *)
Definition expand_signs (cs vs p : string) : string :=
  Py.replace "@" ("[" ++ vs ++ "]")%string
             (Py.replace "#" ("[" ++ cs ++ "]")%string p).

Definition regex_text (cs vs p : string) : string :=
  let e := expand_signs cs vs p in
  ("^" ++ pattern_to_regex_loop (String.length e) e "" ++ "$")%string.

(** Every entry of the cache holds the expression that would be built for
    its key. *)
Definition cache_sound (cs vs : string) (c : list (string * string)) : Prop :=
  forall k v, Py.dict_get c k = Some v -> v = regex_text cs vs k.

(** The two letter sets hold letters only (in particular neither sign). *)
Definition letter_sets (cs vs : string) : Prop :=
  Py.all_chars Py.isalpha cs = true /\ Py.all_chars Py.isalpha vs = true.

(** The pattern language on patterns made of letters, digits, [.], [*],
    [#] and [@], stated directly on words: [.] is any character but a
    newline, [#] a character of the consonant set, [@] one of the vowel set,
    [*] any run of characters other than newlines, anything else itself. *)
Definition sign_matches (cs vs : string) (c d : ascii) : bool :=
  if Ascii.eqb c "." then negb (Ascii.eqb d Py.newline)
  else if Ascii.eqb c "#" then Py.contains d cs
  else if Ascii.eqb c "@" then Py.contains d vs
  else Ascii.eqb d c.

Fixpoint glob (cs vs : string) (p w : string) {struct p} : bool :=
  match p with
  | EmptyString => String.eqb w ""
  | String c p' =>
      if Ascii.eqb c "*" then
        (fix star (w : string) : bool :=
           glob cs vs p' w ||
           match w with
           | EmptyString => false
           | String d w' => negb (Ascii.eqb d Py.newline) && star w'
           end) w
      else
        match w with
        | EmptyString => false
        | String d w' => sign_matches cs vs c d && glob cs vs p' w'
        end
  end.

Definition plain_pattern (p : string) : bool :=
  Py.all_chars (fun c => Py.isalnum c || Py.contains c ".*#@") p.

(** What one character of a plain pattern contributes to the rewritten
    pattern, to the text of the expression, and to the compiled
    expression. *)
Definition sign_expansion (cs vs : string) (c : ascii) : string :=
  if Ascii.eqb c "#" then ("[" ++ cs ++ "]")%string
  else if Ascii.eqb c "@" then ("[" ++ vs ++ "]")%string
  else Py.str1 c.

Definition sign_text (cs vs : string) (c : ascii) : string :=
  if Ascii.eqb c "." then "."
  else if Ascii.eqb c "*" then ".*"
  else sign_expansion cs vs c.

Fixpoint body_text (cs vs : string) (p : string) : string :=
  match p with
  | EmptyString => EmptyString
  | String c p' => (sign_text cs vs c ++ body_text cs vs p')%string
  end.

Definition letter_class (l : string) : PyRe.atom :=
  PyRe.Class false (map PyRe.CChar (list_ascii_of_string l)).

Definition sign_item (cs vs : string) (c : ascii) : PyRe.item :=
  if Ascii.eqb c "." then PyRe.IOne PyRe.Any
  else if Ascii.eqb c "*" then PyRe.IStar PyRe.Any
  else if Ascii.eqb c "#" then PyRe.IOne (letter_class cs)
  else if Ascii.eqb c "@" then PyRe.IOne (letter_class vs)
  else PyRe.IOne (PyRe.Lit c).

Fixpoint items_of (cs vs : string) (p : string) : list PyRe.item :=
  match p with
  | EmptyString => []
  | String c p' => sign_item cs vs c :: items_of cs vs p'
  end.

(** The length constraint of [matches_pattern] as a test on the word. *)
Definition within (c : option (Z * Z)) (word : string) : bool :=
  match c with
  | Some (lo, hi) =>
      (lo <=? Z.of_nat (String.length word))%Z &&
      (Z.of_nat (String.length word) <=? hi)%Z
  | None => true
  end.


(** Whether [int] reads the decimal text of [n]: it has no more than
    [Py.int_max_str_digits] digits. *)
Definition int_reads (n : nat) : bool :=
  String.length (Py.str_of_nat n) <=? Py.int_max_str_digits.

(** The text of a definition clause with a length range, and with one
    length. *)
Definition range_definition (name : ascii) (lo hi : nat) (p : string) : string :=
  String name ("=(" ++ Py.str_of_nat lo ++ "-" ++ Py.str_of_nat hi ++ ":" ++ p ++ ")").

Definition exact_definition (name : ascii) (n : nat) (p : string) : string :=
  String name ("=(" ++ Py.str_of_nat n ++ ":" ++ p ++ ")").

(** What [parse_variable_definition] stores for a name, two lengths and a
    pattern. *)
Definition stored_definition (name : ascii) (lo hi : nat) (p : string) : var_info :=
  {| var_name := Py.str1 name; min_len := lo; max_len := hi;
     pattern := if String.eqb p "" then "*" else p |}.



(** [yields m Q]: [m] either returns a value that satisfies [Q] or raises
    [TimeoutError]; no other exception leaves it. *)
Definition yields {A} (m : M A) (Q : A -> Prop) : Prop :=
  forall s, match fst (m s) with
            | Ok a => Q a
            | Raise e => e = TimeoutError
            end.

(** A result of the relation "X ; ~X": a word, its mirror image as the
    second word, and the word bound to the variable. *)
Definition mirror_result (name : string) (r : match_result) : Prop :=
  let '(word1, word2, decomp) := r in
  word2 = Some (Py.reversed word1) /\ word1 <> Py.reversed word1 /\
  decomp = [(name, word1)].

(** What every result of a query "X ; ~X" looks like: a word, its mirror
    image as the second word, and the word bound to the variable. *)
Definition mirror_binding (name : string) (r : match_result) : Prop :=
  let '(word1, word2, decomp) := r in
  word2 = Some (Py.reversed word1) /\ decomp = [(name, word1)].

(** The unordered pair a result of that relation stands for. *)
Definition pair_of (r : match_result) : string * string :=
  sorted_pair (fst (fst r)) (Py.reversed (fst (fst r))).

(** The variable named by the letter [c] is defined with one length. *)
Definition fixed_length (variables : variables_t) (c : ascii) : bool :=
  match Py.dict_get variables (Py.str1 c) with
  | Some v => min_len v =? max_len v
  | None => false
  end.

(** An entry of [var_details] stands for a reference of the clause. *)
Definition detail_fits (vd : var_detail) (ref : string) : Prop :=
  vd_name vd = Py.replace "~" "" ref /\
  vd_reversed vd = Py.startswith "~" ref.

Definition total_length (details : list var_detail) : nat :=
  fold_right (fun vd n => vd_len vd + n) 0 details.

(** A result of the relation "sequence ; reversed sequence": the two
    clauses applied to the bindings spell the two words, and the second
    word is in the word set. *)
Definition spelled_pair (cache : WordlistCache) (vars1 vars2 : list string)
           (r : match_result) : Prop :=
  let '(word1, word2, parts) := r in
  exists w2,
    word2 = Some w2 /\
    build_word2 vars1 parts "" = Some word1 /\
    build_word2 vars2 parts "" = Some w2 /\
    In w2 (words_set cache).

(* ================================================================== *)
(** ** SimpleMatcher: the shortcuts of [matches_pattern] *)
(* ================================================================== *)

Section MatcherFacts.

Variables CONSONANTS_joined VOWELS_joined : string.
Variable compiled : Type.
Variable re_compile : string -> option compiled.
Variable re_match : compiled -> string -> bool.

Let matches := matches_pattern CONSONANTS_joined VOWELS_joined compiled re_compile re_match.

Lemma matches_star_constrained (word : string) (lo hi : Z) (s : pm_state) :
  matches word "*" (Some (lo, hi)) s =
  (Ok ((lo <=? Z.of_nat (String.length word))%Z &&
       (Z.of_nat (String.length word) <=? hi)%Z), s).
Proof.
  unfold matches, matches_pattern.
  destruct ((lo <=? _)%Z && (_ <=? hi)%Z); reflexivity.
Qed.

Lemma matches_empty_pattern (word : string) (c : option (Z * Z)) (s : pm_state) :
  exists b, matches word "" c s = (Ok b, s) /\ (b = true -> word = "").
Proof.
  unfold matches, matches_pattern.
  destruct c as [[lo hi]|]; simpl.
  - destruct (negb _).
    + eexists; split; [reflexivity | discriminate].
    + eexists; split; [reflexivity | apply String.eqb_eq].
  - eexists; split; [reflexivity | apply String.eqb_eq].
Qed.

Lemma matches_constrained (word p : string) (lo hi : Z) (s : pm_state) :
  matches word p (Some (lo, hi)) s =
  if (lo <=? Z.of_nat (String.length word))%Z &&
     (Z.of_nat (String.length word) <=? hi)%Z
  then matches word p None s
  else (Ok false, s).
Proof.
  unfold matches, matches_pattern.
  destruct ((lo <=? _)%Z && (_ <=? hi)%Z); reflexivity.
Qed.

Lemma matches_empty_constrained (word : string) (lo hi : Z) (s : pm_state) :
  matches word "" (Some (lo, hi)) s =
  (Ok ((lo <=? Z.of_nat (String.length word))%Z &&
       (Z.of_nat (String.length word) <=? hi)%Z &&
       String.eqb word ""), s).
Proof.
  unfold matches, matches_pattern.
  destruct ((lo <=? _)%Z && (_ <=? hi)%Z); reflexivity.
Qed.

(** C8: a length constraint is applied before any shortcut. Whatever the
    pattern, a call with a constraint is the length test followed by the
    call without constraint: a word whose length lies outside is rejected
    and the state left alone. The pattern [*] matches a word iff its
    length lies within the constraint, and every word when there is none.
    The empty pattern matches a word iff its length lies within the
    constraint and the word is empty; without a constraint it matches
    exactly the empty word. *)
Theorem C8_length_constraint_precedes_shortcuts :
  forall (word : string) (s : pm_state),
    (forall p lo hi,
        matches_pattern CONSONANTS_joined VOWELS_joined compiled re_compile re_match
                        word p (Some (lo, hi)) s =
        if (lo <=? Z.of_nat (String.length word))%Z &&
           (Z.of_nat (String.length word) <=? hi)%Z
        then matches_pattern CONSONANTS_joined VOWELS_joined compiled re_compile
                             re_match word p None s
        else (Ok false, s)) /\
    (forall lo hi,
        matches_pattern CONSONANTS_joined VOWELS_joined compiled re_compile re_match
                        word "*" (Some (lo, hi)) s =
        (Ok ((lo <=? Z.of_nat (String.length word))%Z &&
             (Z.of_nat (String.length word) <=? hi)%Z), s)) /\
    matches_pattern CONSONANTS_joined VOWELS_joined compiled re_compile re_match
                    word "*" None s = (Ok true, s) /\
    (forall lo hi,
        matches_pattern CONSONANTS_joined VOWELS_joined compiled re_compile re_match
                        word "" (Some (lo, hi)) s =
        (Ok ((lo <=? Z.of_nat (String.length word))%Z &&
             (Z.of_nat (String.length word) <=? hi)%Z &&
             String.eqb word ""), s)) /\
    matches_pattern CONSONANTS_joined VOWELS_joined compiled re_compile re_match
                    word "" None s = (Ok (String.eqb word ""), s) /\
    (forall c, exists b,
        matches_pattern CONSONANTS_joined VOWELS_joined compiled re_compile re_match
                        word "" c s = (Ok b, s) /\ (b = true -> word = "")) /\
    matches_pattern CONSONANTS_joined VOWELS_joined compiled re_compile re_match
                    "" "" None s = (Ok true, s).
Proof.
  intros word s. repeat split.
  - intros p lo hi. apply matches_constrained.
  - intros lo hi. apply matches_star_constrained.
  - intros lo hi. apply matches_empty_constrained.
  - intros c. apply matches_empty_pattern.
Qed.

End MatcherFacts.

(* ================================================================== *)
(** ** PatternCompiler: escapes and the cache *)
(* ================================================================== *)

Lemma append_empty_r (s : string) : (s ++ "")%string = s.
Proof. induction s as [|c s IH]; simpl; [reflexivity | now rewrite IH]. Qed.

(** C6 (the code departs from it): the cache is looked up under the
    literal pattern but filled under the pattern after the consonant and
    vowel signs were rewritten. On a fresh cache the pattern [@] leaves its
    expression under the rewritten text and no entry under [@], whatever the
    order of the vowels, so a second request for [@] misses the cache. *)
Theorem C6_cache_filled_under_rewritten_key :
  forall (cs vs : string) (t : Z) (n : nat) (log : list (Z * Z)),
    let s1 := snd (pattern_to_regex cs vs "@" (fresh_state t n log)) in
    map fst (regex_cache s1) = [("[" ++ vs ++ "]")%string] /\
    Py.dict_get (regex_cache s1) "@" = None.
Proof.
  intros cs vs t n log.
  unfold pattern_to_regex, fresh_state, bind, get_regex_cache. simpl.
  split; [| reflexivity].
  now rewrite append_empty_r.
Qed.

(** For a pattern without [#] and [@] the key is the literal pattern. *)
Lemma cache_key_plain_pattern :
  forall (cs vs : string) (t : Z) (n : nat) (log : list (Z * Z)),
    Py.dict_get
      (regex_cache (snd (pattern_to_regex cs vs "c.t" (fresh_state t n log))))
      "c.t" = Some "^c.t$".
Proof. reflexivity. Qed.

(** C5 (the code departs from it): the consonant and vowel signs are
    rewritten into character classes before escapes are looked at. For
    every iteration order [vs] of the vowels, the pattern backslash-[@]
    compiles to the expression for the seven-character text [[vs]] in
    brackets; it rejects the word [@] and accepts that text. *)
Theorem C5_escaped_vowel_sign_is_rewritten_first :
  Forall
    (fun vs : string =>
       forall (cs : string) (t : Z) (n : nat) (log : list (Z * Z)),
         fst (pattern_to_regex cs vs escaped_vowel_sign (fresh_state t n log))
         = Ok (String "^" (String Py.backslash
                 ("[" ++ vs ++ String Py.backslash "]$")))%string /\
         fst (matches_pattern cs vs PyRe.regex PyRe.compile PyRe.match_
                "@" escaped_vowel_sign None (fresh_state t n log))
         = Ok false /\
         fst (matches_pattern cs vs PyRe.regex PyRe.compile PyRe.match_
                ("[" ++ vs ++ "]")%string escaped_vowel_sign None
                (fresh_state t n log))
         = Ok true)
    vowel_orders.
Proof.
  unfold vowel_orders.
  let l := eval vm_compute in
             (map string_of_list_ascii (permutations (list_ascii_of_string "aeiou"))) in
  change (map string_of_list_ascii (permutations (list_ascii_of_string "aeiou")))
    with l.
  repeat (apply Forall_cons;
          [intros cs t n log; repeat split; vm_compute; reflexivity |]).
  apply Forall_nil.
Qed.

(** The other escapes do what the pattern language says: an escaped
    syntax character is that character, and a final lone backslash is a
    backslash. *)
Lemma escapes_of_other_syntax_characters :
  forall (cs vs : string) (t : Z) (n : nat) (log : list (Z * Z)),
    Forall
      (fun c : ascii =>
         fst (matches_pattern cs vs PyRe.regex PyRe.compile PyRe.match_
                (Py.str1 c) (String Py.backslash (Py.str1 c)) None
                (fresh_state t n log)) = Ok true /\
         fst (matches_pattern cs vs PyRe.regex PyRe.compile PyRe.match_
                "x" (String Py.backslash (Py.str1 c)) None
                (fresh_state t n log)) = Ok false)
      (list_ascii_of_string ".*[]a") /\
    fst (matches_pattern cs vs PyRe.regex PyRe.compile PyRe.match_
           (Py.str1 Py.backslash) (Py.str1 Py.backslash) None
           (fresh_state t n log)) = Ok true.
Proof.
  intros cs vs t n log. split.
  - repeat (apply Forall_cons; [split; vm_compute; reflexivity |]).
    apply Forall_nil.
  - vm_compute. reflexivity.
Qed.
(** The same for the consonant sign, with the consonants in alphabetical
    order: backslash-[#] compiles to the expression for the bracketed text
    of 23 characters and rejects the word [#]. *)
Example escaped_consonant_sign_is_rewritten_first :
  forall (vs : string) (t : Z) (n : nat) (log : list (Z * Z)),
    fst (pattern_to_regex alphabetical_consonants vs
           (String Py.backslash "#") (fresh_state t n log))
    = Ok (String "^" (String Py.backslash
            ("[" ++ alphabetical_consonants ++ String Py.backslash "]$")))%string /\
    fst (matches_pattern alphabetical_consonants vs PyRe.regex PyRe.compile
           PyRe.match_ "#" (String Py.backslash "#") None (fresh_state t n log))
    = Ok false.
Proof. intros vs t n log. split; vm_compute; reflexivity. Qed.

(* ================================================================== *)
(** ** EquationSolver: the query "X ; ~X" *)
(* ================================================================== *)

(** C1 (the code departs from it): after the self-reverse relation has
    produced its pairs, the test for the sequence-reversal relation is made
    as well and succeeds for "A ; ~A", so both contribute. Over the words
    evil, live and noon the pair of evil and live is returned three times
    and the palindrome noon is paired with itself. *)
Theorem C1_both_relations_answer_self_reverse_query :
  forall cs vs : string,
    fst (run_query frozen_clock cs vs palindrome_cache 120 "A=(4:....);A;~A")
    = Ok (Some [("evil", Some "live", [("A", "evil")]);
                ("evil", Some "live", [("A", "evil")]);
                ("live", Some "evil", [("A", "live")]);
                ("noon", Some "noon", [("A", "noon")])],
          "equation").
Proof. intros cs vs. vm_compute. reflexivity. Qed.

(* ================================================================== *)
(** ** QueryDispatcher: exceptions and the deadline *)
(* ================================================================== *)

(** C2 (the code departs from it): the checkpoint taken for each variable
    definition lies before the guarded block of [execute_query]. With a
    timeout of 5 and a clock that jumps by 10 between the start of the
    dispatch and the first checkpoint, the [TimeoutError] leaves
    [execute_query] instead of a pair, whatever the index. *)
Theorem C2_timeout_while_parsing_definitions_propagates :
  forall (cs vs : string) (cache : WordlistCache),
    fst (run_query (stalling_clock 1) cs vs cache 5 "A=(3:#@#);A")
    = Raise TimeoutError.
Proof. intros cs vs cache. vm_compute. reflexivity. Qed.

(** C4 (the code departs from it): same checkpoint as in C2. Here the
    deadline is exceeded at the checkpoint of the second definition; the log
    shows the exceeded check (start 0, now 10, timeout 5), and the outcome
    is a raised [TimeoutError], not the pair of no results and the timeout
    tag. *)
Theorem C4_deadline_exceeded_without_timeout_result :
  forall (cs vs : string) (cache : WordlistCache),
    let r := run_query (stalling_clock 2) cs vs cache 5 "A=(1:*);B=(2:*);AB" in
    In (0, 10)%Z (checks (snd r)) /\ ~ passes 5 (0, 10)%Z /\
    fst r = Raise TimeoutError /\
    fst r <> Ok (None, "timeout").
Proof.
  intros cs vs cache. cbv zeta. repeat split.
  - vm_compute. right. left. reflexivity.
  - unfold passes. simpl. lia.
  - vm_compute. discriminate.
Qed.

(* ================================================================== *)
(** ** The display limit *)
(* ================================================================== *)

Lemma display_loop_firstn (rt : string) (max_disp : nat) :
  forall (results : list match_result) (k : nat) (output : list string),
    display_loop rt max_disp results k output =
    output ++ map (render_result rt) (firstn (max_disp - k) results).
Proof.
  induction results as [|r rs IH]; intros k output; simpl.
  - rewrite firstn_nil. simpl. now rewrite app_nil_r.
  - destruct (max_disp <=? k) eqn:Hk.
    + apply Nat.leb_le in Hk.
      replace (max_disp - k) with 0 by lia. simpl. now rewrite app_nil_r.
    + apply Nat.leb_gt in Hk.
      rewrite IH. replace (max_disp - k) with (S (max_disp - S k)) by lia.
      simpl. now rewrite <- app_assoc.
Qed.

(** The text shown for a non-empty result sequence: the header counts all
    results, the lines are those of the first [max_disp] results, and a
    trailer tells when some were left out. *)
Lemma format_results_truncates (r : match_result) (rs : list match_result)
      (rt : string) (max_disp : nat) :
  format_results (Some (r :: rs)) rt max_disp =
  Py.join (Py.str1 Py.newline)
    ([("Found " ++ Py.str_of_nat (length (r :: rs)) ++ " matches:")%string; "---"]
       ++ map (render_result rt) (firstn max_disp (r :: rs))
       ++ (if max_disp <? length (r :: rs) then
             [(Py.str1 Py.newline ++ "... (displaying " ++ Py.str_of_nat max_disp
               ++ " of " ++ Py.str_of_nat (length (r :: rs)) ++ " results)")%string]
           else [])).
Proof.
  unfold format_results.
  rewrite display_loop_firstn, Nat.sub_0_r.
  destruct (max_disp <? length (r :: rs)).
  - now rewrite <- app_assoc.
  - now rewrite app_nil_r.
Qed.

(** C10: the pair handed over by the engine is the same for every value of
    the display limit. The handler gives [max_results] to [format_results]
    only; [execute_query] has no such argument, and what the handler passes
    on is exactly what [execute_query] returned on a new matcher. *)
Theorem C10_engine_result_independent_of_display_limit :
  forall (time_at : nat -> Z) (cs vs : string) (compiled : Type)
         (re_compile : string -> option compiled)
         (re_match : compiled -> string -> bool)
         (word_cache : WordlistCache) (query : string) (timeout : Z)
         (reads : nat) (m1 m2 : nat),
    engine_part (execute_search time_at cs vs compiled re_compile re_match
                                word_cache query m1 timeout reads)
    = engine_part (execute_search time_at cs vs compiled re_compile re_match
                                  word_cache query m2 timeout reads) /\
    engine_part (execute_search time_at cs vs compiled re_compile re_match
                                word_cache query m1 timeout reads)
    = (if String.eqb query "" then None
       else match wordlist word_cache with
            | [] => None
            | _ :: _ =>
                Some (fst (execute_query time_at cs vs compiled re_compile
                                         re_match word_cache timeout query
                                         (new_matcher time_at (S reads))))
            end).
Proof.
  intros. unfold execute_search.
  destruct (String.eqb query "") eqn:Hq; [split; reflexivity |].
  destruct (wordlist word_cache) as [|w ws] eqn:Hw; [split; reflexivity |].
  destruct (execute_query _ _ _ _ _ _ _ _ _ _) as [[[res tag]|e] s']; simpl.
  - destruct res; simpl; split; reflexivity.
  - split; reflexivity.
Qed.

(* ================================================================== *)
(** ** Rules for Hoare triples *)
(* ================================================================== *)

Section HoareRules.

Context {A B : Type}.

Lemma hoare_ret (P : pm_state -> Prop) (a : A)
      (Q : A -> pm_state -> Prop) (E : exn -> pm_state -> Prop) :
  (forall s, P s -> Q a s) -> hoare P (ret a) Q E.
Proof. intros H s Hs. simpl. auto. Qed.

Lemma hoare_bind (P : pm_state -> Prop) (m : M A) (k : A -> M B)
      (Q1 : A -> pm_state -> Prop) (Q : B -> pm_state -> Prop)
      (E : exn -> pm_state -> Prop) :
  hoare P m Q1 E ->
  (forall a, hoare (Q1 a) (k a) Q E) ->
  hoare P (bind m k) Q E.
Proof.
  intros Hm Hk s Hs. unfold bind. specialize (Hm s Hs).
  destruct (m s) as [[a|e] s']; [apply Hk; exact Hm | exact Hm].
Qed.

(** A loop whose body always returns [step x acc] computes a left fold. *)
Lemma hoare_for_enumerate_fold (P : pm_state -> Prop)
      (E : exn -> pm_state -> Prop) (body : nat -> A -> B -> M B)
      (step : A -> B -> B) :
  (forall i x acc,
      hoare P (body i x acc) (fun r s => r = step x acc /\ P s) E) ->
  forall (l : list A) i acc,
    hoare P (for_enumerate i l acc body)
          (fun r s => r = fold_left (fun a x => step x a) l acc /\ P s) E.
Proof.
  intros Hbody. induction l as [|x r IH]; intros i acc.
  - intros s Hs. simpl. auto.
  - simpl. intros s Hs. unfold bind.
    pose proof (Hbody i x acc s Hs) as Hx.
    destruct (body i x acc s) as [[acc'|e] s']; [| exact Hx].
    destruct Hx as [-> Hs']. apply IH. exact Hs'.
Qed.

End HoareRules.

(* ================================================================== *)
(** ** Lists, strings and the index invariant *)
(* ================================================================== *)

Lemma str_in_In (x : string) (l : list string) :
  Py.str_in x l = true <-> In x l.
Proof.
  unfold Py.str_in. rewrite existsb_exists. split.
  - intros [y [Hy He]]. apply String.eqb_eq in He. now subst.
  - intros H. exists x. split; [exact H | apply String.eqb_refl].
Qed.

Lemma insert_sorted_perm {A} (le : A -> A -> bool) (x : A) (l : list A) :
  Permutation (Py.insert_sorted le x l) (x :: l).
Proof.
  induction l as [|y r IH]; simpl; [reflexivity |].
  destruct (le x y); [reflexivity |].
  rewrite IH. apply perm_swap.
Qed.

Lemma sorted_perm {A} (le : A -> A -> bool) (l : list A) :
  Permutation (Py.sorted le l) l.
Proof.
  induction l as [|x r IH]; simpl; [reflexivity |].
  rewrite insert_sorted_perm. now constructor.
Qed.

Lemma sorted_In {A} (le : A -> A -> bool) (l : list A) (x : A) :
  In x (Py.sorted le l) <-> In x l.
Proof.
  split; apply Permutation_in; [| symmetry]; apply sorted_perm.
Qed.

Lemma to_set_In (l : list string) (x : string) :
  In x (Py.to_set l) -> In x l.
Proof.
  induction l as [|y r IH]; simpl; [auto |].
  intros [H | H]; [now left |].
  apply filter_In in H. right. apply IH. apply H.
Qed.

Lemma by_length_get_entry (d : list (nat * list string)) (n : nat) (w : string) :
  In w (by_length_get d n) -> In (n, by_length_get d n) d.
Proof.
  induction d as [|[k ws] r IH]; simpl; [contradiction |].
  destruct (k =? n) eqn:Hk.
  - apply Nat.eqb_eq in Hk. subst. now left.
  - intros H. right. now apply IH.
Qed.

Section IndexFacts.

Variable cache : WordlistCache.
Hypothesis Hok : index_ok cache = true.

Lemma bucket_words (k : nat) (ws : list string) (w : string) :
  In (k, ws) (word_by_length cache) -> In w ws ->
  String.length w = k /\ In w (wordlist cache).
Proof.
  intros Hk Hw. unfold index_ok in Hok.
  apply andb_true_iff in Hok as [Hok1 _].
  apply andb_true_iff in Hok1 as [Hb _].
  rewrite forallb_forall in Hb. specialize (Hb _ Hk). simpl in Hb.
  rewrite forallb_forall in Hb. specialize (Hb _ Hw).
  apply andb_true_iff in Hb as [Hl Hin].
  apply Nat.eqb_eq in Hl. apply str_in_In in Hin. auto.
Qed.

Lemma by_length_get_words (n : nat) (w : string) :
  In w (by_length_get (word_by_length cache) n) <->
  In w (wordlist cache) /\ String.length w = n.
Proof.
  split.
  - intros H. pose proof (by_length_get_entry _ _ _ H) as He.
    destruct (bucket_words _ _ _ He H). auto.
  - intros [Hw <-]. unfold index_ok in Hok.
    apply andb_true_iff in Hok as [Hok1 _].
    apply andb_true_iff in Hok1 as [_ Hl].
    rewrite forallb_forall in Hl. specialize (Hl _ Hw).
    apply andb_true_iff in Hl as [Hl _]. now apply str_in_In.
Qed.

Lemma words_set_words (w : string) :
  Py.str_in w (words_set cache) = true -> In w (wordlist cache).
Proof.
  intros H. apply str_in_In in H. unfold index_ok in Hok.
  apply andb_true_iff in Hok as [_ Hs].
  rewrite forallb_forall in Hs. apply str_in_In. now apply Hs.
Qed.

Lemma words_in_range_words (lo hi : nat) (w : string) :
  In w (words_in_range cache lo hi) -> In w (wordlist cache).
Proof.
  unfold words_in_range. rewrite in_flat_map. intros [n [_ H]].
  now apply by_length_get_words in H.
Qed.

End IndexFacts.

(* ================================================================== *)
(** ** AnagramMatcher *)
(* ================================================================== *)

Lemma counts_get_incr (d : list (ascii * nat)) (x c : ascii) :
  counts_get (counts_incr d x) c =
  counts_get d c + (if Ascii.eqb x c then 1 else 0).
Proof.
  induction d as [|[k n] r IH]; simpl.
  - destruct (Ascii.eqb x c); reflexivity.
  - destruct (Ascii.eqb k x) eqn:Hkx; simpl.
    + apply Ascii.eqb_eq in Hkx. subst k.
      destruct (Ascii.eqb x c); lia.
    + destruct (Ascii.eqb k c) eqn:Hkc; [| exact IH].
      apply Ascii.eqb_eq in Hkc. subst k.
      rewrite Ascii.eqb_sym, Hkx. lia.
Qed.

Lemma counts_get_fold (l : list ascii) (d : list (ascii * nat)) (c : ascii) :
  counts_get (fold_left counts_incr l d) c =
  counts_get d c + count_occ ascii_dec l c.
Proof.
  revert d. induction l as [|x r IH]; intros d; simpl; [lia |].
  rewrite IH, counts_get_incr.
  destruct (ascii_dec x c) as [-> | Hne].
  - rewrite Ascii.eqb_refl. lia.
  - apply Ascii.eqb_neq in Hne. rewrite Hne. lia.
Qed.

Lemma counts_get_of (l : list ascii) (c : ascii) :
  counts_get (counts_of l) c = count_occ ascii_dec l c.
Proof. unfold counts_of. now rewrite counts_get_fold. Qed.

Lemma count_occ_string (w : string) (c : ascii) :
  count_occ ascii_dec (list_ascii_of_string w) c = Py.count c w.
Proof.
  induction w as [|d r IH]; simpl; [reflexivity |].
  destruct (ascii_dec d c) as [-> | Hne].
  - rewrite Ascii.eqb_refl. now rewrite IH.
  - apply Ascii.eqb_neq in Hne. now rewrite Hne, IH.
Qed.

Lemma counts_incr_keys (d : list (ascii * nat)) (x : ascii) :
  NoDup (map fst d) -> NoDup (map fst (counts_incr d x)) /\
  forall k, In k (map fst (counts_incr d x)) -> k = x \/ In k (map fst d).
Proof.
  induction d as [|[k n] r IH]; simpl; intros Hnd.
  - split; [repeat constructor; auto | intros k [H | []]; auto].
  - inversion Hnd as [|? ? Hk Hr]; subst.
    destruct (Ascii.eqb k x) eqn:Hkx; simpl.
    + split; [now constructor | auto].
    + destruct (IH Hr) as [Hnd' Hkeys]. split.
      * constructor; [| exact Hnd'].
        intros Hin. apply Hkeys in Hin as [-> | Hin]; [| contradiction].
        now rewrite Ascii.eqb_refl in Hkx.
      * intros j [H | H]; [auto |]. apply Hkeys in H. tauto.
Qed.

Lemma counts_of_nodup (l : list ascii) : NoDup (map fst (counts_of l)).
Proof.
  unfold counts_of.
  assert (H : forall d, NoDup (map fst d) ->
                        NoDup (map fst (fold_left counts_incr l d))).
  { induction l as [|x r IH]; intros d Hd; simpl; [exact Hd |].
    apply IH. now apply counts_incr_keys. }
  apply H. constructor.
Qed.

Lemma counts_get_entry (d : list (ascii * nat)) (k : ascii) (n : nat) :
  NoDup (map fst d) -> In (k, n) d -> counts_get d k = n.
Proof.
  induction d as [|[k' n'] r IH]; simpl; intros Hnd Hin; [contradiction |].
  inversion Hnd as [|? ? Hk Hr]; subst.
  destruct Hin as [Heq | Hin].
  - inversion Heq; subst. now rewrite Ascii.eqb_refl.
  - destruct (Ascii.eqb k' k) eqn:Hkk.
    + apply Ascii.eqb_eq in Hkk. subst k'.
      exfalso. apply Hk. apply in_map_iff. now exists (k, n).
    + now apply IH.
Qed.

Lemma counts_get_positive (d : list (ascii * nat)) (k : ascii) :
  0 < counts_get d k -> In (k, counts_get d k) d.
Proof.
  induction d as [|[k' n'] r IH]; simpl; [lia |].
  destruct (Ascii.eqb k' k) eqn:Hkk.
  - apply Ascii.eqb_eq in Hkk. subst. now left.
  - intros H. right. now apply IH.
Qed.

(** The test on [base_counts] is the multiset inclusion of the claim. *)
Lemma base_counts_covered (content w : string) :
  forallb
    (fun kv : ascii * nat =>
       negb (counts_get (counts_of (list_ascii_of_string w)) (fst kv) <? snd kv))
    (counts_of (Py.sorted Py.char_leb (base_letters_of content))) = true
  <-> covers (base_letters_of content) w.
Proof.
  set (base := base_letters_of content).
  set (d := counts_of (Py.sorted Py.char_leb base)).
  assert (Hd : forall c, counts_get d c = count_occ ascii_dec base c).
  { intros c. unfold d. rewrite counts_get_of.
    apply Permutation_count_occ. apply sorted_perm. }
  rewrite forallb_forall. unfold covers. split.
  - intros H c. destruct (count_occ ascii_dec base c) eqn:Hc; [lia |].
    assert (Hin : In (c, counts_get d c) d).
    { apply counts_get_positive. rewrite Hd. lia. }
    specialize (H _ Hin). simpl in H.
    apply negb_true_iff, Nat.ltb_ge in H.
    rewrite counts_get_of, count_occ_string, Hd in H. lia.
  - intros H [k n] Hin. simpl.
    apply negb_true_iff, Nat.ltb_ge.
    rewrite counts_get_of, count_occ_string.
    rewrite <- (counts_get_entry d k n); [| apply counts_of_nodup | exact Hin].
    rewrite Hd. apply H.
Qed.

Section AnagramMatcher.

Variable time_at : nat -> Z.
Variable cache : WordlistCache.
Variable timeout : Z.

(** While the deadline is not exceeded a checkpoint returns and leaves the
    start time alone. *)
Lemma time_check_passes (t0 : Z) :
  (forall n, (time_at n - t0 <= timeout)%Z) ->
  hoare (fun s => start_time s = t0) (_time_check time_at timeout)
        (fun _ s => start_time s = t0) (fun _ _ => False).
Proof.
  intros Hclock s Hs. unfold _time_check, bind, time_time, get_start_time,
    record_check. simpl.
  rewrite Hs.
  destruct (time_at (clock s) - t0 >? timeout)%Z eqn:Hgt; simpl.
  - specialize (Hclock (clock s)). apply Z.gtb_lt in Hgt. lia.
  - reflexivity.
Qed.

Lemma fold_keep_filter (test : string -> bool) (l acc : list string) :
  fold_left (fun a x => if test x then a ++ [x] else a) l acc =
  acc ++ filter test l.
Proof.
  revert acc. induction l as [|x r IH]; intros acc; simpl.
  - now rewrite app_nil_r.
  - rewrite IH. destruct (test x); [| reflexivity].
    now rewrite <- app_assoc.
Qed.

Lemma anagram_keeps_accepts (content w : string) :
  anagram_keeps content w = true <->
  anagram_accepts content w /\
  (if Py.count "*" content =? 0
   then String.length w = length (base_letters_of content) + Py.count "." content
   else length (base_letters_of content) + Py.count "." content <= String.length w).
Proof.
  unfold anagram_keeps, anagram_accepts.
  assert (Hlen : length (Py.sorted Py.char_leb (base_letters_of content))
                 = length (base_letters_of content))
    by (apply Permutation_length, sorted_perm).
  rewrite Hlen. rewrite !andb_true_iff, base_counts_covered.
  destruct (Py.count "*" content) as [|k] eqn:Hs; simpl.
  - rewrite negb_involutive, negb_true_iff, Nat.eqb_eq, Nat.ltb_ge, Z.eqb_eq.
    split; intros H; repeat split; try tauto; lia.
  - rewrite negb_true_iff, Nat.ltb_ge.
    split; intros H; repeat split; tauto.
Qed.


End AnagramMatcher.


(** The example of the specification: over an index with cats, cat and
    tack (among others) the clause [/act.] returns cats and tack, and
    [/act*] also returns the longer words. *)
Example anagram_act_dot :
  forall cs vs,
    fst (run_query frozen_clock cs vs demo_cache 120 "/act.")
    = Ok (Some [("cats", None, []); ("tack", None, [])], "anagram") /\
    fst (run_query frozen_clock cs vs demo_cache 120 "/act*")
    = Ok (Some [("cats", None, []); ("tack", None, []); ("act", None, []);
                ("cat", None, []); ("contact", None, [])], "anagram").
Proof. intros cs vs. split; vm_compute; reflexivity. Qed.

(* ================================================================== *)
(** ** Every returned word is a word of the index *)
(* ================================================================== *)

Section ReturnsRules.

Context {A B : Type}.

Lemma returns_ret (a : A) (Q : A -> Prop) : Q a -> returns (ret a) Q.
Proof. intros H s. exact H. Qed.

Lemma returns_raise (e : exn) (Q : A -> Prop) : returns (raise e) Q.
Proof. intros s. exact I. Qed.

Lemma returns_any (m : M A) : returns m (fun _ => True).
Proof. intros s. destruct (fst (m s)); exact I. Qed.

Lemma returns_bind (m : M A) (k : A -> M B) (Q1 : A -> Prop) (Q : B -> Prop) :
  returns m Q1 -> (forall a, Q1 a -> returns (k a) Q) -> returns (bind m k) Q.
Proof.
  intros Hm Hk s. unfold bind. specialize (Hm s).
  destruct (m s) as [[a|e] s']; simpl in *; [apply Hk; exact Hm | exact I].
Qed.

Lemma returns_try_except (m h : M A) (e : exn) (Q : A -> Prop) :
  returns m Q -> returns h Q -> returns (try_except m e h) Q.
Proof.
  intros Hm Hh s. unfold try_except. specialize (Hm s).
  destruct (m s) as [[a|e'] s']; simpl in *; [exact Hm |].
  destruct (exn_eqb e e'); [apply Hh | exact I].
Qed.

Lemma returns_try_except_any (m : M A) (h : exn -> M A) (Q : A -> Prop) :
  returns m Q -> (forall e, returns (h e) Q) -> returns (try_except_any m h) Q.
Proof.
  intros Hm Hh s. unfold try_except_any. specialize (Hm s).
  destruct (m s) as [[a|e'] s']; simpl in *; [exact Hm | apply Hh].
Qed.

End ReturnsRules.

Section ReturnsLoops.

Context {A B : Type}.

Lemma returns_for_each (Inv : B -> Prop) (body : A -> B -> M B) :
  forall (l : list A),
    (forall x acc, In x l -> Inv acc -> returns (body x acc) Inv) ->
    forall acc, Inv acc -> returns (for_each l acc body) Inv.
Proof.
  induction l as [|x r IH]; intros Hbody acc Hacc.
  - intros s. exact Hacc.
  - simpl. apply returns_bind with (Q1 := Inv).
    + apply Hbody; [now left | exact Hacc].
    + intros acc' Hacc'. apply IH; [| exact Hacc'].
      intros y a Hy. apply Hbody. now right.
Qed.

Lemma returns_for_enumerate (Inv : B -> Prop) (body : nat -> A -> B -> M B) :
  forall (l : list A),
    (forall i x acc, In x l -> Inv acc -> returns (body i x acc) Inv) ->
    forall i acc, Inv acc -> returns (for_enumerate i l acc body) Inv.
Proof.
  induction l as [|x r IH]; intros Hbody i acc Hacc.
  - intros s. exact Hacc.
  - simpl. apply returns_bind with (Q1 := Inv).
    + apply Hbody; [now left | exact Hacc].
    + intros acc' Hacc'. apply IH; [| exact Hacc'].
      intros j y a Hy. apply Hbody. now right.
Qed.

End ReturnsLoops.

Lemma Forall_snoc {A} (P : A -> Prop) (l : list A) (x : A) :
  Forall P l -> P x -> Forall P (l ++ [x]).
Proof. intros Hl Hx. apply Forall_app. split; [exact Hl | now constructor]. Qed.

Section ResultsInIndex.

Variable time_at : nat -> Z.
Variables CONSONANTS_joined VOWELS_joined : string.
Variable compiled : Type.
Variable re_compile : string -> option compiled.
Variable re_match : compiled -> string -> bool.
Variable cache : WordlistCache.
Variable timeout : Z.
Hypothesis Hok : index_ok cache = true.

Let W (w : string) : Prop := In w (wordlist cache).
Let R (r : match_result) : Prop := result_in_index cache r.

Lemma anagram_words_in_index (p : string) :
  returns (process_anagram_pattern time_at cache timeout p)
          (fun r => match r with Some l => Forall W l | None => True end).
Proof.
  unfold process_anagram_pattern.
  destruct (negb (Py.startswith "/" p)); [now apply returns_ret |].
  eapply returns_bind; [apply returns_any |]. intros _ _.
  eapply returns_bind with (Q1 := Forall W).
  - apply returns_for_enumerate; [| constructor].
    intros i word acc Hin Hacc.
    assert (Hw : W word).
    { destruct (0 <? _).
      - apply in_flat_map in Hin as [[k ws] [Hk Hin]]. simpl in Hin.
        destruct (_ <=? k); [| contradiction].
        now destruct (bucket_words cache Hok _ _ _ Hk Hin).
      - destruct (_ =? _).
        + now apply (by_length_get_words cache Hok) in Hin.
        + now apply (words_in_range_words cache Hok) in Hin. }
    eapply returns_bind; [apply returns_any |]. intros _ _.
    repeat (match goal with
            | |- context [if ?b then _ else _] => destruct b
            end);
      apply returns_ret; auto using Forall_snoc.
  - intros matches Hm. now apply returns_ret.
Qed.

Lemma simple_words_in_index (p : string) :
  returns (find_matches_simple_pattern time_at CONSONANTS_joined VOWELS_joined
             compiled re_compile re_match cache timeout p)
          (Forall W).
Proof.
  unfold find_matches_simple_pattern.
  eapply returns_bind; [apply returns_any |]. intros _ _.
  eapply returns_bind; [apply returns_any |]. intros [lc clean] _.
  set (candidates := match lc with
                     | Some (lo, hi) => words_in_range cache lo hi
                     | None => wordlist cache
                     end).
  assert (Hc : forall w, In w candidates -> W w).
  { intros w. unfold candidates. destruct lc as [[lo hi]|]; [| auto].
    apply (words_in_range_words cache Hok). }
  destruct candidates as [|c0 cr] eqn:Hcand; [now apply returns_ret |].
  rewrite <- Hcand in *. clear Hcand.
  eapply returns_bind; [apply returns_any |]. intros [r|] _;
    [| now apply returns_ret].
  apply returns_for_enumerate; [| constructor].
  intros i word acc Hin Hacc.
  eapply returns_bind; [apply returns_any |]. intros _ _.
  destruct (re_match r word); apply returns_ret; auto using Forall_snoc.
Qed.

Lemma single_results_in_index (variables : variables_t) (p : string) :
  returns (solve_single time_at CONSONANTS_joined VOWELS_joined
             compiled re_compile re_match cache timeout variables p)
          (Forall R).
Proof.
  unfold solve_single.
  destruct (only_refs _ _); [| now apply returns_ret].
  eapply returns_bind; [apply returns_any |].
  intros [| |total details] _; try (now apply returns_ret).
  apply returns_for_each; [| constructor].
  intros word acc Hin Hacc.
  apply (by_length_get_words cache Hok) in Hin as [Hw _].
  eapply returns_bind; [apply returns_any |]. intros _ _.
  eapply returns_bind; [apply returns_any |]. intros [decomp|] _;
    apply returns_ret; [| exact Hacc].
  apply Forall_snoc; [exact Hacc |]. split; [exact Hw | exact I].
Qed.

Lemma self_reverse_results_in_index (variables : variables_t) (name : string) :
  returns (solve_self_reverse time_at CONSONANTS_joined VOWELS_joined
             compiled re_compile re_match cache timeout variables name)
          (fun r => match r with Some l => Forall R l | None => True end).
Proof.
  unfold solve_self_reverse.
  destruct (Py.dict_get variables name) as [info|]; [| now apply returns_ret].
  eapply returns_bind with (Q1 := Forall W).
  - apply returns_for_each; [| constructor].
    intros len acc _ Hacc.
    apply returns_for_each; [| exact Hacc].
    intros word acc' Hin Hacc'.
    apply (by_length_get_words cache Hok) in Hin as [Hw _].
    eapply returns_bind; [apply returns_any |]. intros _ _.
    eapply returns_bind; [apply returns_any |]. intros [|] _;
      apply returns_ret; auto using Forall_snoc.
  - intros candidates_A Hcand.
    eapply returns_bind with (Q1 := fun st => Forall R (fst st)).
    + apply returns_for_each; [| constructor].
      intros word1 [results found] Hin Hacc. simpl in Hacc.
      eapply returns_bind; [apply returns_any |]. intros _ _.
      destruct (String.eqb word1 _); [now apply returns_ret |].
      destruct (Py.str_in _ _) eqn:Hin2; [| now apply returns_ret].
      destruct (negb _); apply returns_ret; [| exact Hacc].
      simpl. apply Forall_snoc; [exact Hacc |].
      rewrite Forall_forall in Hcand. split; simpl.
      * now apply Hcand.
      * apply Hcand. apply to_set_In. now apply str_in_In.
    + intros st Hst. now apply returns_ret.
Qed.

Lemma sequence_reversal_results_in_index
      (variables : variables_t) (vars1 vars2 : list string)
      (results_paired : list match_result) :
  Forall R results_paired ->
  returns (solve_sequence_reversal time_at CONSONANTS_joined VOWELS_joined
             compiled re_compile re_match cache timeout variables vars1 vars2
             results_paired)
          (fun r => Forall R (fst r)).
Proof.
  intros Hres. unfold solve_sequence_reversal.
  eapply returns_bind; [apply returns_any |].
  intros [[total structure1]|] _; [| now apply returns_ret].
  eapply returns_bind with (Q1 := fun st => Forall R (fst st)).
  - apply returns_for_each; [| exact Hres].
    intros word1 [results found] Hin Hacc. simpl in Hacc.
    apply (by_length_get_words cache Hok) in Hin as [Hw _].
    eapply returns_bind; [apply returns_any |]. intros _ _.
    eapply returns_bind; [apply returns_any |]. intros [parts|] _;
      [| now apply returns_ret].
    destruct (build_word2 vars2 parts "") as [word2|]; [| now apply returns_ret].
    destruct (Py.str_in word2 _) eqn:Hin2; [| now apply returns_ret].
    destruct (_ && _); apply returns_ret; [exact Hacc |].
    simpl. apply Forall_snoc; [exact Hacc |].
    split; simpl; [exact Hw | now apply (words_set_words cache Hok)].
  - intros st Hst. now apply returns_ret.
Qed.

Lemma pair_results_in_index (variables : variables_t) (p1 p2 : string) :
  returns (solve_pair time_at CONSONANTS_joined VOWELS_joined
             compiled re_compile re_match cache timeout variables p1 p2)
          (Forall R).
Proof.
  unfold solve_pair.
  eapply returns_bind
    with (Q1 := fun r => match r with
                         | Some (l, _) => Forall R l
                         | None => True
                         end).
  - destruct (match_bare p1) as [n1|]; [| now apply returns_ret].
    destruct (match_tilde p2) as [n2|]; [| now apply returns_ret].
    destruct (String.eqb n1 n2); [| now apply returns_ret].
    eapply returns_bind; [apply self_reverse_results_in_index |].
    intros [l|] Hl; now apply returns_ret.
  - intros [[results handled]|] Hfirst; [| now apply returns_ret].
    eapply returns_bind with (Q1 := fun r => Forall R (fst r)).
    + destruct (sequence_reversal_shape _ _ _ _); [| now apply returns_ret].
      eapply returns_bind;
        [apply sequence_reversal_results_in_index; exact Hfirst |].
      intros r Hr. now apply returns_ret.
    + intros second Hsecond.
      destruct (negb _); now apply returns_ret.
Qed.

Lemma equation_results_in_index (variables : variables_t)
      (patterns : list string) :
  returns (solve_equation time_at CONSONANTS_joined VOWELS_joined
             compiled re_compile re_match cache timeout variables patterns)
          (Forall R).
Proof.
  unfold solve_equation.
  eapply returns_bind; [apply returns_any |]. intros now _.
  eapply returns_bind; [apply returns_any |]. intros _ _.
  destruct patterns as [|p1 [|p2 [|p3 r]]]; try (now apply returns_ret);
    destruct variables as [|v vr]; try (now apply returns_ret).
  - apply single_results_in_index.
  - apply pair_results_in_index.
Qed.

Lemma clause_words_in_index (p : string) :
  returns (clause_matches time_at CONSONANTS_joined VOWELS_joined
             compiled re_compile re_match cache timeout p)
          (Forall W).
Proof.
  unfold clause_matches. destruct (Py.startswith "/" p).
  - eapply returns_bind; [apply anagram_words_in_index |].
    intros [l|] Hl; apply returns_ret; [| constructor].
    rewrite Forall_forall in *. intros w Hw. apply Hl. now apply to_set_In.
  - eapply returns_bind; [apply simple_words_in_index |].
    intros l Hl. apply returns_ret.
    rewrite Forall_forall in *. intros w Hw. apply Hl. now apply to_set_In.
Qed.

Lemma intersection_words_in_index (patterns : list string) :
  forall common,
    match common with Some c => Forall W c | None => True end ->
    returns (intersect_loop time_at CONSONANTS_joined VOWELS_joined
               compiled re_compile re_match cache timeout patterns common)
            (fun r => match r with Some c => Forall W c | None => True end).
Proof.
  induction patterns as [|p r IH]; intros common Hc; simpl.
  - now apply returns_ret.
  - eapply returns_bind; [apply returns_any |]. intros _ _.
    eapply returns_bind; [apply clause_words_in_index |].
    intros current Hcur.
    set (common' := match common with
                    | Some c => filter (fun w => Py.str_in w current) c
                    | None => current
                    end).
    assert (Hc' : Forall W common').
    { unfold common'. destruct common as [c|]; [| exact Hcur].
      rewrite Forall_forall in *. intros w Hw.
      apply filter_In in Hw. now apply Hc. }
    destruct common' as [|w0 wr] eqn:Heq; [now apply returns_ret |].
    apply IH. exact Hc'.
Qed.

Lemma no_bindings_in_index (l : list string) :
  Forall W l -> Forall R (map no_bindings l).
Proof.
  intros H. rewrite Forall_forall in *. intros r Hr.
  apply in_map_iff in Hr as [w [<- Hw]].
  split; [apply H; exact Hw | exact I].
Qed.

(** C9: every word of every result returned by [execute_query], the first
    word and the second when there is one, is a word of the index. *)
Theorem C9_result_words_are_index_words :
  forall (query : string) (s : pm_state),
    match fst (execute_query time_at CONSONANTS_joined VOWELS_joined
                 compiled re_compile re_match cache timeout query s) with
    | Ok (Some results, _) => Forall (result_in_index cache) results
    | _ => True
    end.
Proof.
  intros query s.
  assert (H : returns
                (execute_query time_at CONSONANTS_joined VOWELS_joined
                   compiled re_compile re_match cache timeout query)
                (fun r => match fst r with
                          | Some results => Forall R results
                          | None => True
                          end)).
  { unfold execute_query.
    eapply returns_bind; [apply returns_any |]. intros now _.
    eapply returns_bind; [apply returns_any |]. intros _ _.
    eapply returns_bind; [apply returns_any |]. intros _ _.
    eapply returns_bind; [apply returns_any |]. intros variables _.
    apply returns_try_except_any.
    - destruct (_ && _).
      + eapply returns_bind; [apply equation_results_in_index |].
        intros results Hr. now apply returns_ret.
      + destruct (filter _ _) as [|p [|p2 r]].
        * apply returns_ret. constructor.
        * destruct (Py.startswith "/" p).
          -- eapply returns_bind; [apply anagram_words_in_index |].
             intros [l|] Hl; [| apply returns_raise].
             apply returns_ret. now apply no_bindings_in_index.
          -- eapply returns_bind; [apply simple_words_in_index |].
             intros l Hl. apply returns_ret. now apply no_bindings_in_index.
        * eapply returns_bind;
            [apply intersection_words_in_index; exact I |].
          intros [c|] Hc; apply returns_ret; [| constructor].
          apply no_bindings_in_index.
          rewrite Forall_forall in *. intros w Hw. apply Hc.
          now apply sorted_In in Hw.
    - intros [| | |]; apply returns_ret; simpl; auto; constructor. }
  specialize (H s).
  destruct (fst (execute_query _ _ _ _ _ _ _ _ _ s)) as [[[results|] tag]|e];
    auto.
Qed.

End ResultsInIndex.

(* ================================================================== *)
(** ** The deadline of every checkpoint *)
(* ================================================================== *)

Lemma extends_refl (s : pm_state) : extends s s.
Proof.
  split; [reflexivity |]. exists []. rewrite app_nil_r. simpl.
  repeat split; [lia | constructor].
Qed.

Lemma extends_trans (s1 s2 s3 : pm_state) :
  extends s1 s2 -> extends s2 s3 -> extends s1 s3.
Proof.
  intros [Ht1 [n1 [Hc1 [Hk1 Hf1]]]] [Ht2 [n2 [Hc2 [Hk2 Hf2]]]].
  split; [congruence |]. exists (n1 ++ n2). repeat split.
  - rewrite Hc2, Hc1. now rewrite app_assoc.
  - rewrite Hk2, Hk1, length_app. lia.
  - apply Forall_app. split; [exact Hf1 |]. now rewrite Ht1 in Hf2.
Qed.

Section KeepsRules.

Context {A B : Type}.

Lemma keeps_ret (a : A) : keeps (ret a).
Proof. intros s. apply extends_refl. Qed.

Lemma keeps_raise (e : exn) : keeps (@raise A e).
Proof. intros s. apply extends_refl. Qed.

Lemma keeps_lift (o : outcome A) : keeps (lift o).
Proof. intros s. apply extends_refl. Qed.

Lemma keeps_bind (m : M A) (k : A -> M B) :
  keeps m -> (forall a, keeps (k a)) -> keeps (bind m k).
Proof.
  intros Hm Hk s. unfold bind. specialize (Hm s).
  destruct (m s) as [[a|e] s']; simpl in *; [| exact Hm].
  eapply extends_trans; [exact Hm | apply Hk].
Qed.

Lemma keeps_try_except (m h : M A) (e : exn) :
  keeps m -> keeps h -> keeps (try_except m e h).
Proof.
  intros Hm Hh s. unfold try_except. specialize (Hm s).
  destruct (m s) as [[a|e'] s']; simpl in *; [exact Hm |].
  destruct (exn_eqb e e'); [| exact Hm].
  eapply extends_trans; [exact Hm | apply Hh].
Qed.

Lemma keeps_try_except_any (m : M A) (h : exn -> M A) :
  keeps m -> (forall e, keeps (h e)) -> keeps (try_except_any m h).
Proof.
  intros Hm Hh s. unfold try_except_any. specialize (Hm s).
  destruct (m s) as [[a|e'] s']; simpl in *; [exact Hm |].
  eapply extends_trans; [exact Hm | apply Hh].
Qed.

End KeepsRules.

Section KeepsLoops.

Context {A B : Type}.

Lemma keeps_for_each (body : A -> B -> M B) :
  (forall x acc, keeps (body x acc)) ->
  forall l acc, keeps (for_each l acc body).
Proof.
  intros Hbody. induction l as [|x r IH]; intros acc; simpl.
  - apply keeps_ret.
  - apply keeps_bind; [apply Hbody | intros acc'; apply IH].
Qed.

Lemma keeps_for_enumerate (body : nat -> A -> B -> M B) :
  (forall i x acc, keeps (body i x acc)) ->
  forall l i acc, keeps (for_enumerate i l acc body).
Proof.
  intros Hbody. induction l as [|x r IH]; intros i acc; simpl.
  - apply keeps_ret.
  - apply keeps_bind; [apply Hbody | intros acc'; apply IH].
Qed.

End KeepsLoops.

(** One step of a proof that a method keeps the start time: go under a
    bind, a loop or a handler, or split on what a branch looks at. *)
Ltac keeps_step :=
  first
    [ apply keeps_ret
    | apply keeps_raise
    | apply keeps_lift
    | apply keeps_bind; [| intros ?]
    | apply keeps_try_except
    | apply keeps_try_except_any; [| intros ?]
    | apply keeps_for_each; intros ? ?
    | apply keeps_for_enumerate; intros ? ? ?
    | match goal with
      | |- keeps (match ?x with _ => _ end) => destruct x
      | |- keeps (let (_, _) := ?x in _) => destruct x
      | |- keeps (if ?b then _ else _) => destruct b
      end ].

Section Deadline.

Variable time_at : nat -> Z.
Variables CONSONANTS_joined VOWELS_joined : string.
Variable compiled : Type.
Variable re_compile : string -> option compiled.
Variable re_match : compiled -> string -> bool.
Variable cache : WordlistCache.
Variable timeout : Z.

Lemma keeps_time_check : keeps (_time_check time_at timeout).
Proof.
  intros s. unfold _time_check, bind, time_time, get_start_time, record_check.
  simpl.
  assert (H : extends s
                {| start_time := start_time s; regex_cache := regex_cache s;
                   clock := S (clock s);
                   checks := checks s ++ [(start_time s, time_at (clock s))] |}).
  { split; [reflexivity |]. exists [(start_time s, time_at (clock s))].
    simpl. repeat split; [lia | now constructor]. }
  destruct (_ >? _)%Z; exact H.
Qed.

Lemma keeps_pattern_to_regex (p : string) :
  keeps (pattern_to_regex CONSONANTS_joined VOWELS_joined p).
Proof.
  intros s. unfold pattern_to_regex, bind, get_regex_cache. simpl.
  destruct (Py.dict_get _ _); simpl; [apply extends_refl |].
  split; [reflexivity |]. exists []. simpl. rewrite app_nil_r.
  repeat split; [lia | constructor].
Qed.

Lemma keeps_matches_pattern (word p : string) (c : option (Z * Z)) :
  keeps (matches_pattern CONSONANTS_joined VOWELS_joined compiled re_compile
                         re_match word p c).
Proof.
  unfold matches_pattern, re_match_str.
  repeat first [apply keeps_pattern_to_regex | keeps_step].
Qed.

Lemma keeps_anagram (p : string) :
  keeps (process_anagram_pattern time_at cache timeout p).
Proof.
  unfold process_anagram_pattern.
  repeat first [apply keeps_time_check | keeps_step].
Qed.

Lemma keeps_simple (p : string) :
  keeps (find_matches_simple_pattern time_at CONSONANTS_joined VOWELS_joined
           compiled re_compile re_match cache timeout p).
Proof.
  unfold find_matches_simple_pattern.
  repeat first [apply keeps_time_check | apply keeps_pattern_to_regex
               | keeps_step].
Qed.

Lemma keeps_parse_single (variables : variables_t) :
  forall rest total details,
    keeps (parse_single time_at timeout variables rest total details).
Proof.
  fix IH 1. intros [|c r] total details; simpl.
  - apply keeps_ret.
  - apply keeps_bind; [apply keeps_time_check | intros _].
    destruct (Ascii.eqb c "~").
    + destruct r as [|d r']; [apply keeps_ret |].
      destruct (is_var_letter d); [| apply keeps_ret].
      destruct (add_reference _ _ _ _ _); try apply keeps_ret. apply IH.
    + destruct (is_var_letter c); [| apply keeps_ret].
      destruct (add_reference _ _ _ _ _); try apply keeps_ret. apply IH.
Qed.

Lemma keeps_decompose :
  forall details word pos decomp,
    keeps (decompose CONSONANTS_joined VOWELS_joined compiled re_compile
                     re_match details word pos decomp).
Proof.
  induction details as [|vd r IH]; intros word pos decomp; simpl.
  - apply keeps_ret.
  - apply keeps_bind; [apply keeps_matches_pattern | intros ok].
    destruct (negb ok); [apply keeps_ret | apply IH].
Qed.

Lemma keeps_parse_structure1 (variables : variables_t) :
  forall vars1 total structure1,
    keeps (parse_structure1 time_at timeout variables vars1 total structure1).
Proof.
  induction vars1 as [|ref r IH]; intros total structure1; simpl.
  - apply keeps_ret.
  - apply keeps_bind; [apply keeps_time_check | intros _].
    destruct (Py.dict_get _ _); [| apply keeps_ret].
    destruct (negb _); [apply keeps_ret | apply IH].
Qed.

Ltac keeps_all :=
  repeat first
    [ apply keeps_time_check
    | apply keeps_pattern_to_regex
    | apply keeps_matches_pattern
    | apply keeps_anagram
    | apply keeps_simple
    | apply keeps_parse_single
    | apply keeps_decompose
    | apply keeps_parse_structure1
    | keeps_step ].

Lemma keeps_solve_single (variables : variables_t) (p : string) :
  keeps (solve_single time_at CONSONANTS_joined VOWELS_joined compiled
           re_compile re_match cache timeout variables p).
Proof. unfold solve_single. keeps_all. Qed.

Lemma keeps_solve_pair (variables : variables_t) (p1 p2 : string) :
  keeps (solve_pair time_at CONSONANTS_joined VOWELS_joined compiled
           re_compile re_match cache timeout variables p1 p2).
Proof.
  unfold solve_pair, solve_self_reverse, solve_sequence_reversal. keeps_all.
Qed.

Lemma keeps_clause_matches (p : string) :
  keeps (clause_matches time_at CONSONANTS_joined VOWELS_joined compiled
           re_compile re_match cache timeout p).
Proof. unfold clause_matches. keeps_all. Qed.

Lemma keeps_intersect_loop :
  forall patterns common,
    keeps (intersect_loop time_at CONSONANTS_joined VOWELS_joined compiled
             re_compile re_match cache timeout patterns common).
Proof.
  induction patterns as [|p r IH]; intros common; simpl.
  - apply keeps_ret.
  - apply keeps_bind; [apply keeps_time_check | intros _].
    apply keeps_bind; [apply keeps_clause_matches | intros current].
    destruct (match common with Some _ => _ | None => _ end);
      [apply keeps_ret | apply IH].
Qed.

Lemma bind_run {A B} (m : M A) (k : A -> M B) (s : pm_state) :
  bind m k s = match m s with
               | (Ok a, s') => k a s'
               | (Raise e, s') => (Raise e, s')
               end.
Proof. reflexivity. Qed.

Lemma lift_run {A} (o : outcome A) (s : pm_state) : lift o s = (o, s).
Proof. reflexivity. Qed.

(** The state right after a method has reassigned [start_time] from the
    clock. *)
Lemma solve_equation_restarts (variables : variables_t) (patterns : list string)
      (s : pm_state) :
  extends {| start_time := time_at (clock s); regex_cache := regex_cache s;
             clock := S (clock s); checks := checks s |}
          (snd (solve_equation time_at CONSONANTS_joined VOWELS_joined compiled
                  re_compile re_match cache timeout variables patterns s)).
Proof.
  unfold solve_equation. rewrite bind_run. unfold time_time at 1.
  rewrite bind_run. unfold set_start_time at 1. cbv beta iota. simpl clock.
  simpl regex_cache. simpl checks.
  assert (Hrest : keeps
            (match patterns with
             | [] => ret []
             | _ :: _ =>
                 match variables with
                 | [] => ret []
                 | _ :: _ =>
                     match patterns with
                     | [p] => solve_single time_at CONSONANTS_joined VOWELS_joined
                                compiled re_compile re_match cache timeout variables p
                     | [p1_str; p2_str] =>
                         solve_pair time_at CONSONANTS_joined VOWELS_joined
                           compiled re_compile re_match cache timeout variables
                           p1_str p2_str
                     | _ => ret []
                     end
                 end
             end)).
  { destruct patterns as [|p1 [|p2 [|p3 r]]]; try apply keeps_ret;
      destruct variables; try apply keeps_ret.
    - apply keeps_solve_single.
    - apply keeps_solve_pair. }
  apply Hrest.
Qed.

Lemma parsed_variables_come_from_definitions (defs : list string) :
  returns
    (for_each defs []
       (fun v_def_str (variables : variables_t) =>
          _time_check time_at timeout ;;;
          parsed <- lift (parse_variable_definition v_def_str) ;;
          match parsed with
          | Some parsed_var =>
              ret (Py.dict_set variables (var_name parsed_var) parsed_var)
          | None => ret variables
          end))
    (fun variables =>
       variables <> [] ->
       existsb (fun d => match parse_variable_definition d with
                         | Ok (Some _) => true
                         | _ => false
                         end) defs = true).
Proof.
  apply returns_for_each; [| intros H; contradiction].
  intros x acc Hin Hacc.
  eapply returns_bind; [apply returns_any |]. intros _ _.
  eapply returns_bind
    with (Q1 := fun parsed => parse_variable_definition x = Ok parsed).
  { intros s. unfold lift. cbn [fst].
    destruct (parse_variable_definition x); [reflexivity | exact I]. }
  intros [v|] Hp; apply returns_ret; [| exact Hacc].
  intros _. apply existsb_exists. exists x. now rewrite Hp.
Qed.

(** In one call of [execute_query] the checkpoints fall into two runs.
    Those of the first run compare against the instant read when the
    dispatch starts. Those of the second run, which is empty unless the
    query goes to the equation solver, compare against the clock reading
    that follows the first run. *)
Lemma checks_split_at_the_solver :
  forall (query : string) (s : pm_state),
    let s' := snd (execute_query time_at CONSONANTS_joined VOWELS_joined
                     compiled re_compile re_match cache timeout query s) in
    exists pre post,
      checks s' = checks s ++ pre ++ post /\
      Forall (fun c => fst c = time_at (clock s)) pre /\
      Forall (fun c => fst c = time_at (clock s + 1 + length pre)) post /\
      (equation_mode query = true \/ post = []).
Proof.
  intros query s. cbv zeta. unfold execute_query.
  rewrite bind_run. unfold time_time at 1.
  rewrite bind_run. unfold set_start_time at 1.
  rewrite bind_run. unfold set_regex_cache at 1.
  cbv beta iota. simpl clock. simpl checks.
  fold (query_clauses query).
  set (defs := filter is_definition_clause (query_clauses query)).
  set (search := filter (fun p => negb (is_definition_clause p))
                        (query_clauses query)).
  set (s1 := {| start_time := time_at (clock s); regex_cache := [];
                clock := S (clock s); checks := checks s |}).
  rewrite bind_run.
  match goal with
  | |- context [for_each defs [] ?b s1] => set (loop := for_each defs [] b)
  end.
  assert (Hk : keeps loop) by (unfold loop; repeat first [apply keeps_time_check | keeps_step]).
  pose proof (parsed_variables_come_from_definitions defs s1) as Hv.
  fold loop in Hv.
  specialize (Hk s1).
  destruct (loop s1) as [[variables|e] s2]; simpl in Hk, Hv.
  2:{ destruct Hk as [Ht [new [Hc [_ Hf]]]].
      exists new, []. rewrite app_nil_r. simpl.
      repeat split; [exact Hc | exact Hf | constructor | now right]. }
  destruct Hk as [Ht [pre [Hc [Hclk Hf]]]]. simpl in Ht, Hc, Hclk, Hf.
  destruct (negb (length variables =? 0) && negb (length search =? 0)) eqn:Hmode;
    cbv beta iota.
  - (* the equation solver *)
    match goal with
    | |- context [try_except_any ?m ?h s2] =>
        assert (Hs : snd (try_except_any m h s2)
                     = snd (solve_equation time_at CONSONANTS_joined VOWELS_joined
                              compiled re_compile re_match cache timeout
                              variables search s2));
        [| set (final := snd (try_except_any m h s2)) in * ]
    end.
    { unfold try_except_any. rewrite bind_run.
      destruct (solve_equation _ _ _ _ _ _ _ _ _ _ s2) as [[r|[| | |]] s3];
        reflexivity. }
    destruct (solve_equation_restarts variables search s2)
      as [_ [post [Hc2 [_ Hf2]]]]. rewrite <- Hs in Hc2. simpl in Hc2, Hf2.
    exists pre, post. repeat split.
    + change (checks final = checks s ++ pre ++ post).
      rewrite Hc2, Hc. simpl. now rewrite app_assoc.
    + exact Hf.
    + rewrite Hclk in Hf2. simpl in Hf2.
      replace (clock s + 1 + length pre) with (S (clock s + length pre)) by lia.
      exact Hf2.
    + left.
      apply andb_true_iff in Hmode as [Hvars Hsearch].
      unfold equation_mode. fold defs. fold search.
      rewrite Hsearch, andb_true_r.
      apply Hv. intros ->. discriminate.
  - (* every other mode *)
    match goal with
    | |- context [try_except_any ?m ?h s2] =>
        assert (Hm : keeps (try_except_any m h));
        [| specialize (Hm s2);
           set (final := snd (try_except_any m h s2)) in * ]
    end.
    { repeat first [apply keeps_time_check | apply keeps_anagram
                   | apply keeps_simple | apply keeps_intersect_loop
                   | keeps_step]. }
    assert (H13 : extends s1 final).
    { eapply extends_trans; [| exact Hm].
      split; [exact Ht |]. exists pre. auto. }
    destruct H13 as [_ [new [Hc3 [_ Hf3]]]]. simpl in Hc3, Hf3.
    exists new, []. rewrite app_nil_r.
    repeat split; [exact Hc3 | exact Hf3 | constructor | now right].
Qed.

End Deadline.

(** C3 (the code departs from it): [solve_equation] reads the clock when it
    begins and makes that reading the start time, so every checkpoint of the
    equation solver compares against the solver's own start and not against
    the instant captured at dispatch start. With a clock that advances by
    one at every reading and a timeout of 3, the query "A=(3:#@#);A" starts
    its dispatch at instant 1; the solver's checkpoints compare against
    instant 3 and pass at the instants 5 and 6, which lie more than the
    timeout after the dispatch start, and the query returns its result. *)
Theorem C3_equation_solver_restarts_the_deadline :
  (forall (time_at : nat -> Z) (cs vs : string) (compiled : Type)
          (re_compile : string -> option compiled)
          (re_match : compiled -> string -> bool)
          (cache : WordlistCache) (timeout : Z)
          (variables : variables_t) (patterns : list string) (s : pm_state),
      all_checks_use (time_at (clock s)) s
        (snd (solve_equation time_at cs vs compiled re_compile re_match
                cache timeout variables patterns s))) /\
  let s0 := new_matcher ticking_clock 0 in
  let r := run_query ticking_clock alphabetical_consonants alphabetical_vowels
                     demo_cache 3 "A=(3:#@#);A" in
  ticking_clock (clock s0) = 1%Z /\
  checks (snd r) = [(1, 2); (3, 4); (3, 5); (3, 6)]%Z /\
  ~ all_checks_use (ticking_clock (clock s0)) s0 (snd r) /\
  Exists (fun c => ~ passes 3 (ticking_clock (clock s0), snd c)) (checks (snd r)) /\
  fst r = Ok (Some [("cat", None, [("A", "cat")])], "equation").
Proof.
  split.
  - intros time_at cs vs compiled re_compile re_match cache timeout variables
           patterns s.
    destruct (solve_equation_restarts time_at cs vs compiled re_compile re_match
                cache timeout variables patterns s)
      as [_ [new [Hc [_ Hf]]]].
    cbn [checks start_time] in Hc, Hf.
    unfold all_checks_use, checks_from. rewrite Hc.
    rewrite skipn_app, skipn_all, Nat.sub_diag. exact Hf.
  - cbv zeta.
    assert (Hlog : checks (snd (run_query ticking_clock alphabetical_consonants
                                  alphabetical_vowels demo_cache 3 "A=(3:#@#);A"))
                   = [(1, 2); (3, 4); (3, 5); (3, 6)]%Z)
      by (vm_compute; reflexivity).
    split; [reflexivity |]. split; [exact Hlog |]. split; [| split].
    + unfold all_checks_use, checks_from. rewrite Hlog.
      cbn [new_matcher checks length skipn clock].
      intros H. inversion H as [|? ? _ H1]. inversion H1 as [|? ? Hbad _].
      discriminate Hbad.
    + rewrite Hlog. apply Exists_cons_tl, Exists_cons_tl, Exists_cons_hd.
      unfold passes. cbn. lia.
    + vm_compute. reflexivity.
Qed.

Lemma C9_witness :
  index_ok demo_cache = true /\
  match fst (run_query frozen_clock alphabetical_consonants alphabetical_vowels
                       demo_cache 120 "A=(2:*);B=(2:*);AB;BA") with
  | Ok (Some results, _) => Forall (result_in_index demo_cache) results
  | _ => True
  end.
Proof.
  split; [reflexivity |].
  apply (C9_result_words_are_index_words
           frozen_clock alphabetical_consonants alphabetical_vowels
           PyRe.regex PyRe.compile PyRe.match_ demo_cache 120).
  reflexivity.
Defined.

(** The run of the witness: the membership gate lets both decompositions
    through because both words are in the index. *)
Example sequence_reversal_abba :
  forall cs vs,
    fst (run_query frozen_clock cs vs demo_cache 120 "A=(2:*);B=(2:*);AB;BA")
    = Ok (Some [("abba", Some "baab", [("A", "ab"); ("B", "ba")]);
                ("baab", Some "abba", [("A", "ba"); ("B", "ab")])],
          "equation").
Proof. intros cs vs. vm_compute. reflexivity. Qed.

(* ================================================================== *)
(** ** The loader establishes the index invariant *)
(* ================================================================== *)








(* ================================================================== *)
(** ** Outcomes of the dispatch and the checks behind them *)
(* ================================================================== *)

(** The two parsers raise nothing but the [ValueError] of [int]. *)
Lemma with_int_raises {A} (s : string) (k : nat -> outcome A) (e : exn) :
  with_int s k = Raise e ->
  e = ValueError \/ exists n, k n = Raise e.
Proof.
  unfold with_int. destruct (Py.int s) as [n|].
  - intros H. right. now exists n.
  - intros H. left. congruence.
Qed.


Lemma parse_definition_raises (d : string) (e : exn) :
  parse_variable_definition d = Raise e -> e = ValueError.
Proof.
  unfold parse_variable_definition.
  repeat match goal with
         | |- Ok _ = Raise _ -> _ => discriminate
         | |- with_int _ _ = Raise _ -> _ =>
             let H := fresh in
             intros H; apply with_int_raises in H as [H | [? H]];
             [exact H | revert H]
         | |- context [match match_definition ?x with _ => _ end] =>
             destruct (match_definition x) as [[[[? ?] [?|]] ?]|]
         | |- context [match match_definition_exact ?x with _ => _ end] =>
             destruct (match_definition_exact x) as [[[? ?] ?]|]
         end.
Qed.


Section TimelyRules.

Variable timeout : Z.
Context {A B : Type}.







End TimelyRules.

Section TimelyLoops.

Variable timeout : Z.
Context {A B : Type}.



End TimelyLoops.


Section Outcomes.

Variable time_at : nat -> Z.
Variables CONSONANTS_joined VOWELS_joined : string.
Variable compiled : Type.
Variable re_compile : string -> option compiled.
Variable re_match : compiled -> string -> bool.
Variable cache : WordlistCache.
Variable timeout : Z.


Lemma timely_time_check (X : exn -> Prop) :
  timely timeout X (_time_check time_at timeout).
Proof.
  intros s. unfold _time_check, bind, time_time, get_start_time, record_check.
  simpl. exists [(start_time s, time_at (clock s))].
  destruct (time_at (clock s) - start_time s >? timeout)%Z eqn:Hgt; simpl.
  - split; [reflexivity |]. exists [], (start_time s, time_at (clock s)).
    repeat split; [constructor |]. unfold passes. simpl.
    apply Z.gtb_lt in Hgt. lia.
  - split; [reflexivity |]. constructor; [| constructor].
    unfold passes. simpl.
    destruct (Z.gtb_spec (time_at (clock s) - start_time s) timeout);
      [discriminate | lia].
Qed.













(** [execute_query] in terms of its parts. *)
Lemma execute_query_parts (query : string) (s : pm_state) :
  execute_query time_at CONSONANTS_joined VOWELS_joined compiled re_compile
                re_match cache timeout query s
  = bind (definitions_loop time_at timeout
            (filter is_definition_clause (query_clauses query)))
         (fun variables =>
            try_except_any
              (guarded_block time_at CONSONANTS_joined VOWELS_joined compiled
                 re_compile re_match cache timeout variables
                 (filter (fun p => negb (is_definition_clause p))
                         (query_clauses query)))
              dispatch_handler)
         (dispatch_state time_at s).
Proof. reflexivity. Qed.

(** The loop over the variable definitions: one check per definition, and
    no exception other than [TimeoutError]. *)
Lemma definitions_loop_outcome (defs : list string) :
  forall (acc : variables_t) (s : pm_state),
    let r := for_each defs acc
               (fun v_def_str (variables : variables_t) =>
                  _time_check time_at timeout ;;;
                  parsed <- lift (parse_variable_definition v_def_str) ;;
                  match parsed with
                  | Some parsed_var =>
                      ret (Py.dict_set variables (var_name parsed_var) parsed_var)
                  | None => ret variables
                  end) s in
    exists new,
      checks (snd r) = checks s ++ new /\
      length new <= length defs /\
      match fst r with
      | Ok _ => Forall (passes timeout) new
      | Raise e =>
          (e = TimeoutError /\ exceeded_last timeout new) \/
          (e = ValueError /\ Forall (passes timeout) new /\
           exists d, In d defs /\ parse_variable_definition d = Raise ValueError)
      end.
Proof.
  induction defs as [|d r IH]; intros acc s; cbv zeta; simpl.
  - exists []. rewrite app_nil_r. simpl. repeat split; [lia | constructor].
  - rewrite bind_run, bind_run.
    destruct (timely_time_check (fun _ => False) s) as [new1 [Hc1 Ha1]].
    assert (Hlen : length new1 <= 1).
    { revert Hc1. unfold _time_check, bind, time_time, get_start_time,
        record_check. simpl.
      destruct (_ >? _)%Z; simpl; intros Hc1;
        apply app_inv_head in Hc1; subst new1; simpl; lia. }
    destruct (_time_check time_at timeout s) as [[[]|e] s1]; simpl in *.
    + rewrite ?bind_run, ?lift_run.
      destruct (parse_variable_definition d) as [parsed|e] eqn:Hparse;
        cbv beta iota.
      * set (acc' := match parsed with
                     | Some parsed_var =>
                         Py.dict_set acc (var_name parsed_var) parsed_var
                     | None => acc
                     end).
        assert (Hstep :
          (match parsed with
           | Some parsed_var =>
               ret (Py.dict_set acc (var_name parsed_var) parsed_var)
           | None => ret acc
           end) s1 = (Ok acc', s1)).
        { unfold acc'. destruct parsed; reflexivity. }
        rewrite Hstep.
        destruct (IH acc' s1) as [new2 [Hc2 [Hl2 Ha2]]].
        exists (new1 ++ new2). repeat split.
        -- rewrite Hc2, Hc1. now rewrite app_assoc.
        -- rewrite length_app. lia.
        -- revert Ha2.
           match goal with
           | |- match fst ?t with _ => _ end -> _ => destruct (fst t) as [a|e]
           end; intros Ha2.
           ++ now apply Forall_app.
           ++ destruct Ha2 as [[-> Hex] | [-> [Hall [d' [Hin Hd']]]]].
              ** left. split; [reflexivity |].
                 destruct Hex as [pre [c [-> [Hpre Hc]]]].
                 exists (new1 ++ pre), c. rewrite app_assoc.
                 repeat split; [| exact Hc]. now apply Forall_app.
              ** right. split; [reflexivity |].
                 split; [now apply Forall_app |].
                 exists d'. split; [now right | exact Hd'].
      * pose proof (parse_definition_raises d e Hparse) as ->.
        exists new1. repeat split; [exact Hc1 | lia |].
        right. split; [reflexivity |]. split; [exact Ha1 |].
        exists d. split; [now left | exact Hparse].
    + exists new1. repeat split; [exact Hc1 | lia |].
      left. destruct e; simpl in Ha1; tauto.
Qed.

Lemma definitions_loop_checks (defs : list string) (s : pm_state) :
  exists new,
    checks (snd (definitions_loop time_at timeout defs s)) = checks s ++ new /\
    length new <= length defs /\
    match fst (definitions_loop time_at timeout defs s) with
    | Ok _ => Forall (passes timeout) new
    | Raise e =>
        (e = TimeoutError /\ exceeded_last timeout new) \/
        (e = ValueError /\ Forall (passes timeout) new /\
         exists d, In d defs /\ parse_variable_definition d = Raise ValueError)
    end.
Proof. apply (definitions_loop_outcome defs [] s). Qed.




End Outcomes.

(* ================================================================== *)
(** ** WordlistCache.load_wordlist: what a loaded cache holds *)
(* ================================================================== *)

Lemma lower_char_of_letter (c : ascii) :
  Py.isalpha (Py.lower_char c) = true -> Py.islower (Py.lower_char c) = true.
Proof.
  unfold Py.lower_char. destruct (Py.isupper c) eqn:Hup.
  - intros _. unfold Py.isupper, Py.islower, Py.in_range in *.
    apply andb_true_iff in Hup as [H1 H2].
    apply Nat.leb_le in H1, H2.
    change (nat_of_ascii "A") with 65 in H1.
    change (nat_of_ascii "Z") with 90 in H2.
    change (nat_of_ascii "a") with 97. change (nat_of_ascii "z") with 122.
    rewrite nat_ascii_embedding by lia.
    apply andb_true_iff. split; apply Nat.leb_le; lia.
  - unfold Py.isalpha. rewrite Hup. simpl. auto.
Qed.

Lemma lower_of_letters (s : string) :
  Py.all_chars Py.isalpha (Py.lower s) = true ->
  Py.all_chars Py.islower (Py.lower s) = true.
Proof.
  induction s as [|c r IH]; simpl; [auto |].
  rewrite !andb_true_iff. intros [Hc Hr].
  split; [now apply lower_char_of_letter | now apply IH].
Qed.

Lemma kept_words_are_lowercase (lines : list string) (w : string) :
  In w (wordlist (fst (load_wordlist (Some lines)))) ->
  w <> "" /\ Py.all_chars Py.islower w = true.
Proof.
  intros Hw. simpl in Hw. apply sorted_In in Hw.
  apply filter_In in Hw as [Hin Halpha].
  apply in_map_iff in Hin as [line [<- _]].
  unfold Py.str_isalpha in Halpha.
  apply andb_true_iff in Halpha as [Hne Hall]. split.
  - intros Heq. rewrite Heq in Hne. discriminate.
  - now apply lower_of_letters.
Qed.

(** Every word loaded from a file of ASCII text is non-empty and made of
    the letters a to z only. (A file with other characters is outside the
    statement: Python keeps the letters of every alphabet.) *)
Theorem loaded_words_are_lowercase_letters :
  forall (lines : list string) (w : string),
    Forall (fun line => Py.isascii line = true) lines ->
    In w (wordlist (fst (load_wordlist (Some lines)))) ->
    w <> "" /\ Py.all_chars Py.islower w = true.
Proof.
  intros lines w _ Hw. now apply (kept_words_are_lowercase lines).
Qed.

Lemma insert_sorted_Sorted (x : string) (l : list string) :
  Sorted (fun a b => String.leb a b = true) l ->
  Sorted (fun a b => String.leb a b = true) (Py.insert_sorted String.leb x l).
Proof.
  induction l as [|y r IH]; simpl; intros Hs.
  - repeat constructor.
  - destruct (String.leb x y) eqn:Hxy.
    + constructor; [exact Hs | now constructor].
    + inversion Hs as [|? ? Hr Hhd]; subst.
      constructor; [now apply IH |].
      assert (Hyx : String.leb y x = true).
      { destruct (String.leb_total x y) as [H | H]; [congruence | exact H]. }
      destruct r as [|z r']; simpl; [now constructor |].
      destruct (String.leb x z); constructor; [exact Hyx |].
      now inversion Hhd.
Qed.

Lemma sorted_str_Sorted (l : list string) :
  Sorted (fun a b => String.leb a b = true) (Py.sorted_str l).
Proof.
  induction l as [|x r IH]; simpl; [constructor |].
  now apply insert_sorted_Sorted.
Qed.

(** The word list of a loaded cache is the kept words of the file put in
    ascending order, duplicates included, and the number returned is the
    number of kept words. *)
Theorem loaded_wordlist_is_the_sorted_kept_words :
  forall lines : list string,
    let r := load_wordlist (Some lines) in
    Sorted (fun a b => String.leb a b = true) (wordlist (fst r)) /\
    Permutation (wordlist (fst r)) (kept_words lines) /\
    snd r = length (kept_words lines).
Proof.
  intros lines. simpl. fold (kept_words lines). repeat split.
  - apply sorted_str_Sorted.
  - apply sorted_perm.
  - apply Permutation_length, sorted_perm.
Qed.




(* ================================================================== *)
(** ** PatternCompiler: the cache is transparent *)
(* ================================================================== *)

Lemma append_assoc (a b c : string) :
  ((a ++ b) ++ c)%string = (a ++ (b ++ c))%string.
Proof. induction a as [|x a IH]; simpl; [reflexivity | now rewrite IH]. Qed.

Lemma length_append (a b : string) :
  String.length (a ++ b) = String.length a + String.length b.
Proof. induction a as [|x a IH]; simpl; [reflexivity | now rewrite IH]. Qed.

Lemma contains_append (c : ascii) (a b : string) :
  Py.contains c (a ++ b) = Py.contains c a || Py.contains c b.
Proof.
  induction a as [|x a IH]; simpl; [reflexivity |].
  rewrite IH. now rewrite orb_assoc.
Qed.

Lemma replace_absent (old : ascii) (new s : string) :
  Py.contains old s = false -> Py.replace old new s = s.
Proof.
  induction s as [|c r IH]; simpl; [reflexivity |].
  intros H. apply orb_false_iff in H as [Hc Hr].
  rewrite Hc. now rewrite IH.
Qed.

Lemma replace_contains (old : ascii) (new s : string) (c : ascii) :
  Py.contains c new = false -> Py.contains c s = false ->
  Py.contains c (Py.replace old new s) = false.
Proof.
  intros Hnew. induction s as [|d r IH]; simpl; [reflexivity |].
  intros H. apply orb_false_iff in H as [Hd Hr].
  destruct (Ascii.eqb d old); simpl.
  - rewrite contains_append, Hnew. simpl. now apply IH.
  - rewrite Hd. simpl. now apply IH.
Qed.

Lemma replace_removes (old : ascii) (new s : string) :
  Py.contains old new = false ->
  Py.contains old (Py.replace old new s) = false.
Proof.
  intros Hnew. induction s as [|d r IH]; simpl; [reflexivity |].
  destruct (Ascii.eqb d old) eqn:Hd; simpl.
  - rewrite contains_append, Hnew. simpl. exact IH.
  - rewrite Hd. simpl. exact IH.
Qed.

Lemma letters_contain_no (c : ascii) (s : string) :
  Py.isalpha c = false -> Py.all_chars Py.isalpha s = true ->
  Py.contains c s = false.
Proof.
  intros Hc. induction s as [|d r IH]; simpl; [reflexivity |].
  intros H. apply andb_true_iff in H as [Hd Hr].
  rewrite (IH Hr), orb_false_r.
  destruct (Ascii.eqb_spec d c) as [-> |]; [congruence | reflexivity].
Qed.

Lemma class_contains_no (c : ascii) (s : string) :
  Py.isalpha c = false -> Ascii.eqb "[" c = false -> Ascii.eqb "]" c = false ->
  Py.all_chars Py.isalpha s = true ->
  Py.contains c ("[" ++ s ++ "]") = false.
Proof.
  intros Hc Hl Hr Hs.
  change (Py.contains c ("[" ++ s ++ "]"))
    with (Ascii.eqb "[" c || Py.contains c (s ++ "]")).
  rewrite Hl, contains_append, (letters_contain_no c s Hc Hs).
  change (Py.contains c "]") with (Ascii.eqb "]" c || false).
  now rewrite Hr.
Qed.

(** Rewriting the signs twice is rewriting them once. *)
Lemma expand_signs_idempotent (cs vs p : string) :
  letter_sets cs vs ->
  expand_signs cs vs (expand_signs cs vs p) = expand_signs cs vs p.
Proof.
  intros [Hcs Hvs]. unfold expand_signs.
  assert (Hno_hash :
    Py.contains "#" (Py.replace "@" ("[" ++ vs ++ "]")
                       (Py.replace "#" ("[" ++ cs ++ "]") p)) = false).
  { apply replace_contains; [now apply class_contains_no |].
    apply replace_removes. now apply class_contains_no. }
  rewrite (replace_absent "#" _ _ Hno_hash).
  apply replace_absent. apply replace_removes. now apply class_contains_no.
Qed.

Lemma dict_get_set {V} (d : list (string * V)) (k k' : string) (v : V) :
  Py.dict_get (Py.dict_set d k v) k' =
  if String.eqb k k' then Some v else Py.dict_get d k'.
Proof.
  induction d as [|[k0 v0] r IH]; simpl; [reflexivity |].
  destruct (String.eqb_spec k0 k) as [-> | Hne]; simpl.
  - destruct (String.eqb k k'); reflexivity.
  - destruct (String.eqb_spec k0 k') as [-> | Hne'].
    + destruct (String.eqb_spec k k'); [congruence | reflexivity].
    + exact IH.
Qed.

(** On a sound cache [pattern_to_regex] returns the expression of the
    pattern, whether it finds it in the cache or builds it, touches nothing
    but the cache, and leaves the cache sound. *)
Lemma pattern_to_regex_on_sound_cache (cs vs p : string) (s : pm_state) :
  letter_sets cs vs -> cache_sound cs vs (regex_cache s) ->
  exists c',
    pattern_to_regex cs vs p s
    = (Ok (regex_text cs vs p),
       {| start_time := start_time s; regex_cache := c';
          clock := clock s; checks := checks s |}) /\
    cache_sound cs vs c'.
Proof.
  intros Hsets Hsound.
  unfold pattern_to_regex, bind, get_regex_cache, set_regex_cache, ret.
  cbv beta iota zeta. fold (expand_signs cs vs p).
  destruct (Py.dict_get (regex_cache s) p) as [v|] eqn:Hget.
  - exists (regex_cache s). split; [| exact Hsound].
    rewrite (Hsound p v Hget). destruct s; reflexivity.
  - eexists. split; [reflexivity |].
    intros k v. rewrite dict_get_set.
    destruct (String.eqb_spec (expand_signs cs vs p) k) as [<- | Hne];
      [| exact (Hsound k v)].
    intros Hv. inversion Hv. unfold regex_text.
    now rewrite expand_signs_idempotent.
Qed.

(** The cache is transparent: on a sound cache, and so on the empty cache
    of a new query and on every cache that arises from it, what
    [pattern_to_regex] returns is the expression built from the pattern
    alone, and the cache stays sound. *)
Theorem pattern_cache_is_transparent :
  forall (cs vs p : string) (s : pm_state),
    letter_sets cs vs -> cache_sound cs vs (regex_cache s) ->
    fst (pattern_to_regex cs vs p s) = Ok (regex_text cs vs p) /\
    cache_sound cs vs (regex_cache (snd (pattern_to_regex cs vs p s))) /\
    start_time (snd (pattern_to_regex cs vs p s)) = start_time s /\
    clock (snd (pattern_to_regex cs vs p s)) = clock s.
Proof.
  intros cs vs p s Hsets Hsound.
  destruct (pattern_to_regex_on_sound_cache cs vs p s Hsets Hsound)
    as [c' [Hrun Hc']].
  rewrite Hrun. simpl. auto.
Qed.

Lemma pattern_cache_is_transparent_witness :
  letter_sets alphabetical_consonants alphabetical_vowels /\
  cache_sound alphabetical_consonants alphabetical_vowels
              (regex_cache (fresh_state 0 0 [])) /\
  fst (pattern_to_regex alphabetical_consonants alphabetical_vowels "c#t"
                        (fresh_state 0 0 []))
  = Ok (regex_text alphabetical_consonants alphabetical_vowels "c#t").
Proof.
  assert (Hs : letter_sets alphabetical_consonants alphabetical_vowels)
    by (split; reflexivity).
  assert (Hc : cache_sound alphabetical_consonants alphabetical_vowels
                           (regex_cache (fresh_state 0 0 [])))
    by (intros k v H; discriminate H).
  split; [exact Hs |]. split; [exact Hc |].
  apply (pattern_cache_is_transparent alphabetical_consonants
           alphabetical_vowels "c#t" (fresh_state 0 0 []) Hs Hc).
Defined.

(* ================================================================== *)
(** ** PatternCompiler and SimpleMatcher on plain patterns *)
(* ================================================================== *)

Lemma replace_append (old : ascii) (new a b : string) :
  Py.replace old new (a ++ b) = (Py.replace old new a ++ Py.replace old new b)%string.
Proof.
  induction a as [|c a IH]; simpl; [reflexivity |].
  destruct (Ascii.eqb c old); rewrite IH; [now rewrite append_assoc | reflexivity].
Qed.

(** Characters that are letters or digits are none of the characters the
    compiler or [re] treat specially. *)
Lemma alnum_is_ordinary (c : ascii) :
  Py.isalnum c = true ->
  Ascii.eqb c "." = false /\ Ascii.eqb c "*" = false /\
  Ascii.eqb c "#" = false /\ Ascii.eqb c "@" = false /\
  Ascii.eqb c "[" = false /\ Ascii.eqb c "]" = false /\
  Ascii.eqb c "^" = false /\ Ascii.eqb c "$" = false /\
  Ascii.eqb c "-" = false /\ Ascii.eqb c Py.backslash = false /\
  PyRe.unsupported_top c = false /\ re_escape c = Py.str1 c.
Proof.
  destruct c as [[|] [|] [|] [|] [|] [|] [|] [|]]; intros H;
    vm_compute in H; try discriminate H; vm_compute; repeat split.
Qed.

Lemma letter_is_alnum (c : ascii) : Py.isalpha c = true -> Py.isalnum c = true.
Proof. unfold Py.isalnum. now intros ->. Qed.

Lemma expand_signs_cons (cs vs : string) (c : ascii) (p : string) :
  letter_sets cs vs ->
  expand_signs cs vs (String c p)
  = (sign_expansion cs vs c ++ expand_signs cs vs p)%string.
Proof.
  intros [Hcs Hvs]. unfold expand_signs, sign_expansion.
  change (Py.replace "#" ("[" ++ cs ++ "]") (String c p))
    with (if Ascii.eqb c "#"
          then (("[" ++ cs ++ "]") ++ Py.replace "#" ("[" ++ cs ++ "]") p)%string
          else String c (Py.replace "#" ("[" ++ cs ++ "]") p)).
  destruct (Ascii.eqb c "#") eqn:Hh.
  - rewrite replace_append. f_equal.
    apply replace_absent. now apply class_contains_no.
  - change (Py.replace "@" ("[" ++ vs ++ "]")
              (String c (Py.replace "#" ("[" ++ cs ++ "]") p)))
      with (if Ascii.eqb c "@"
            then (("[" ++ vs ++ "]")
                  ++ Py.replace "@" ("[" ++ vs ++ "]")
                       (Py.replace "#" ("[" ++ cs ++ "]") p))%string
            else String c (Py.replace "@" ("[" ++ vs ++ "]")
                             (Py.replace "#" ("[" ++ cs ++ "]") p))).
    destruct (Ascii.eqb c "@"); reflexivity.
Qed.

Lemma find_after_letters (l t : string) :
  Py.all_chars Py.isalpha l = true ->
  Py.find "]" (l ++ String "]" t) = Some (String.length l).
Proof.
  induction l as [|c l IH]; simpl; [reflexivity |].
  intros H. apply andb_true_iff in H as [Hc Hl].
  destruct (alnum_is_ordinary c (letter_is_alnum c Hc))
    as [_ [_ [_ [_ [_ [Hb _]]]]]].
  rewrite Hb. now rewrite IH.
Qed.

Lemma substring_prefix (a b : string) :
  substring 0 (String.length a) (a ++ b) = a.
Proof.
  induction a as [|c a IH]; simpl.
  - destruct b; reflexivity.
  - now rewrite IH.
Qed.

Lemma drop_prefix (a b : string) : Py.drop (String.length a) (a ++ b) = b.
Proof. induction a as [|c a IH]; simpl; [reflexivity | exact IH]. Qed.

(** The loop on a class of letters copies the class and goes on behind
    it. *)
Lemma loop_letter_class (l t regex : string) (fuel : nat) :
  Py.all_chars Py.isalpha l = true ->
  pattern_to_regex_loop (S fuel) ("[" ++ l ++ "]" ++ t) regex
  = pattern_to_regex_loop fuel t (regex ++ ("[" ++ l ++ "]"))%string.
Proof.
  intros Hl.
  change ("[" ++ l ++ "]" ++ t)%string with (String "[" (l ++ String "]" t)).
  cbn [pattern_to_regex_loop].
  change (Ascii.eqb "[" ".") with false. change (Ascii.eqb "[" "*") with false.
  change (Ascii.eqb "[" "[") with true. cbv iota.
  change (Py.find "]" (String "[" (l ++ String "]" t)))
    with (match Py.find "]" (l ++ String "]" t) with
          | Some j => Some (S j)
          | None => None
          end).
  rewrite (find_after_letters l t Hl).
  replace (String "[" (l ++ String "]" t))
    with (("[" ++ l ++ "]") ++ t)%string
    by (simpl; now rewrite append_assoc).
  replace (S (S (String.length l))) with (String.length ("[" ++ l ++ "]"))
    by (simpl; rewrite length_append; simpl; lia).
  unfold Py.slice. rewrite Nat.sub_0_r, substring_prefix, drop_prefix.
  reflexivity.
Qed.

Lemma loop_plain (cs vs : string) :
  letter_sets cs vs ->
  forall (p : string) (fuel : nat) (regex : string),
    plain_pattern p = true ->
    String.length (expand_signs cs vs p) <= fuel ->
    pattern_to_regex_loop fuel (expand_signs cs vs p) regex
    = (regex ++ body_text cs vs p)%string.
Proof.
  intros Hsets. pose proof Hsets as [Hcs Hvs].
  induction p as [|c p IH]; intros fuel regex Hp Hfuel.
  - simpl. destruct fuel; simpl; now rewrite append_empty_r.
  - rewrite expand_signs_cons in * by exact Hsets.
    simpl in Hp. apply andb_true_iff in Hp as [Hc Hp].
    rewrite length_append in Hfuel.
    change (body_text cs vs (String c p))
      with (sign_text cs vs c ++ body_text cs vs p)%string.
    unfold sign_text, sign_expansion in *.
    destruct (Ascii.eqb_spec c ".") as [-> | Hdot].
    { simpl in Hfuel. destruct fuel as [|fuel]; [lia |].
      simpl. rewrite IH by (auto; lia). now rewrite append_assoc. }
    destruct (Ascii.eqb_spec c "*") as [-> | Hstar].
    { simpl in Hfuel. destruct fuel as [|fuel]; [lia |].
      simpl. rewrite IH by (auto; lia). now rewrite append_assoc. }
    destruct (Ascii.eqb_spec c "#") as [-> | Hhash].
    { destruct fuel as [|fuel];
        [simpl in Hfuel; rewrite length_append in Hfuel; simpl in Hfuel; lia |].
      rewrite append_assoc.
      change (("[" ++ cs ++ "]") ++ expand_signs cs vs p)%string
        with ("[" ++ (cs ++ "]") ++ expand_signs cs vs p)%string.
      rewrite (append_assoc cs "]").
      rewrite loop_letter_class by exact Hcs.
      rewrite IH; [now rewrite append_assoc | exact Hp |].
      simpl in Hfuel. lia. }
    destruct (Ascii.eqb_spec c "@") as [-> | Hat].
    { destruct fuel as [|fuel];
        [simpl in Hfuel; rewrite length_append in Hfuel; simpl in Hfuel; lia |].
      rewrite append_assoc.
      change (("[" ++ vs ++ "]") ++ expand_signs cs vs p)%string
        with ("[" ++ (vs ++ "]") ++ expand_signs cs vs p)%string.
      rewrite (append_assoc vs "]").
      rewrite loop_letter_class by exact Hvs.
      rewrite IH; [now rewrite append_assoc | exact Hp |].
      simpl in Hfuel. lia. }
    assert (Halnum : Py.isalnum c = true).
    { apply orb_true_iff in Hc as [H | H]; [exact H |].
      cbn [Py.contains] in H. revert H.
      destruct (Ascii.eqb_spec "." c); [congruence |].
      destruct (Ascii.eqb_spec "*" c); [congruence |].
      destruct (Ascii.eqb_spec "#" c); [congruence |].
      destruct (Ascii.eqb_spec "@" c); [congruence |]. discriminate. }
    destruct (alnum_is_ordinary c Halnum)
      as [H1 [H2 [_ [_ [H5 [_ [_ [_ [_ [H10 [_ H12]]]]]]]]]]].
    simpl in Hfuel. destruct fuel as [|fuel]; [lia |].
    change (Py.str1 c ++ expand_signs cs vs p)%string
      with (String c (expand_signs cs vs p)).
    cbn [pattern_to_regex_loop]. rewrite H1, H2, H5, H10, H12.
    rewrite IH by (auto; lia). now rewrite append_assoc.
Qed.

(** The expression built from a plain pattern. *)
Lemma regex_text_plain (cs vs p : string) :
  letter_sets cs vs -> plain_pattern p = true ->
  regex_text cs vs p = ("^" ++ body_text cs vs p ++ "$")%string.
Proof.
  intros Hsets Hp. unfold regex_text. cbv zeta.
  now rewrite (loop_plain cs vs Hsets p _ "" Hp (le_n _)).
Qed.

Lemma chars_append (a b : string) :
  list_ascii_of_string (a ++ b)
  = list_ascii_of_string a ++ list_ascii_of_string b.
Proof. induction a as [|c a IH]; simpl; [reflexivity | now rewrite IH]. Qed.

Lemma tokens_without_backslash (s : string) :
  Py.contains Py.backslash s = false ->
  PyRe.tokens s = Some (map PyRe.TChar (list_ascii_of_string s)).
Proof.
  induction s as [|c r IH]; [reflexivity |].
  intros H. cbn [Py.contains] in H. apply orb_false_iff in H as [Hc Hr].
  cbn [PyRe.tokens list_ascii_of_string map]. rewrite Hc, (IH Hr). reflexivity.
Qed.

Lemma body_text_no_backslash (cs vs p : string) :
  letter_sets cs vs -> plain_pattern p = true ->
  Py.contains Py.backslash (body_text cs vs p) = false.
Proof.
  intros [Hcs Hvs]. induction p as [|c p IH]; [reflexivity |].
  intros Hp. simpl in Hp. apply andb_true_iff in Hp as [Hc Hp].
  cbn [body_text]. rewrite contains_append, (IH Hp), orb_false_r.
  unfold sign_text, sign_expansion.
  destruct (Ascii.eqb_spec c "."); [reflexivity |].
  destruct (Ascii.eqb_spec c "*"); [reflexivity |].
  destruct (Ascii.eqb_spec c "#"); [now apply class_contains_no |].
  destruct (Ascii.eqb_spec c "@"); [now apply class_contains_no |].
  assert (Halnum : Py.isalnum c = true).
  { apply orb_true_iff in Hc as [H | H]; [exact H |].
    cbn [Py.contains] in H. revert H.
    destruct (Ascii.eqb_spec "." c); [congruence |].
    destruct (Ascii.eqb_spec "*" c); [congruence |].
    destruct (Ascii.eqb_spec "#" c); [congruence |].
    destruct (Ascii.eqb_spec "@" c); [congruence |]. discriminate. }
  destruct (alnum_is_ordinary c Halnum)
    as [_ [_ [_ [_ [_ [_ [_ [_ [_ [H10 _]]]]]]]]]].
  cbn [Py.str1 Py.contains]. now rewrite H10.
Qed.

(** One step of the parser at the top level. *)
Lemma parse_top_step (c : ascii) (r : list PyRe.token) (acc : list PyRe.item) :
  PyRe.parse (PyRe.TChar c :: r) acc None
  = if Ascii.eqb c "." then PyRe.parse r (PyRe.IOne PyRe.Any :: acc) None
    else if Ascii.eqb c "^" then PyRe.parse r (PyRe.IBegin :: acc) None
    else if Ascii.eqb c "$" then PyRe.parse r (PyRe.IEnd :: acc) None
    else if Ascii.eqb c "*" then
      match acc with
      | PyRe.IOne a :: acc' => PyRe.parse r (PyRe.IStar a :: acc') None
      | _ => None
      end
    else if Ascii.eqb c "[" then
      match r with
      | PyRe.TChar d :: r' =>
          if Ascii.eqb d "^" then PyRe.parse r' acc (Some (true, []))
          else PyRe.parse r acc (Some (false, []))
      | _ => PyRe.parse r acc (Some (false, []))
      end
    else if PyRe.unsupported_top c then None
    else PyRe.parse r (PyRe.IOne (PyRe.Lit c) :: acc) None.
Proof. reflexivity. Qed.

(** Inside a character set, letters join the set until the closing
    bracket. *)
Lemma parse_letter_class (neg : bool) :
  forall (l : list ascii) (set : list PyRe.citem) (acc : list PyRe.item)
         (rest : list PyRe.token),
    Forall (fun c => Py.isalpha c = true) l ->
    l <> [] \/ set <> [] ->
    PyRe.parse (map PyRe.TChar l ++ PyRe.TChar "]" :: rest) acc
               (Some (neg, set))
    = PyRe.parse rest
        (PyRe.IOne (PyRe.Class neg (rev set ++ map PyRe.CChar l)) :: acc) None.
Proof.
  induction l as [|c l IH]; intros set acc rest Hl Hne.
  - destruct Hne as [Hne | Hne]; [congruence |].
    destruct set as [|i set]; [congruence |].
    cbn [map app PyRe.parse]. change (Ascii.eqb "]" "]") with true. cbv iota.
    now rewrite app_nil_r.
  - inversion Hl as [|? ? Hc Hl']; subst.
    destruct (alnum_is_ordinary c (letter_is_alnum c Hc))
      as [_ [_ [_ [_ [_ [Hb _]]]]]].
    assert (Hstep :
      PyRe.parse (map PyRe.TChar (c :: l) ++ PyRe.TChar "]" :: rest) acc
                 (Some (neg, set))
      = PyRe.parse (map PyRe.TChar l ++ PyRe.TChar "]" :: rest) acc
                   (Some (neg, PyRe.CChar c :: set))).
    { cbn [map app]. cbn [PyRe.parse].
      replace (match set with
               | [] => false
               | _ :: _ => Ascii.eqb c "]"
               end) with false by (destruct set; [reflexivity | now rewrite Hb]).
      cbv iota. cbn [PyRe.token_code PyRe.citem_of_code].
      destruct l as [|d l].
      - cbn [map app]. destruct rest as [|t rest]; [reflexivity |].
        change (Ascii.eqb "]" "-") with false. reflexivity.
      - cbn [map app]. inversion Hl' as [|? ? Hd _]; subst.
        destruct (alnum_is_ordinary d (letter_is_alnum d Hd))
          as [_ [_ [_ [_ [_ [_ [_ [_ [Hdash _]]]]]]]]].
        destruct (map PyRe.TChar l ++ PyRe.TChar "]" :: rest) eqn:Htail.
        + destruct l; discriminate Htail.
        + rewrite Hdash. reflexivity. }
    rewrite Hstep, IH; [| exact Hl' | right; discriminate].
    cbn [rev map]. now rewrite <- app_assoc.
Qed.

Lemma letters_Forall (s : string) :
  Py.all_chars Py.isalpha s = true ->
  Forall (fun c => Py.isalpha c = true) (list_ascii_of_string s).
Proof.
  induction s as [|c r IH]; simpl; [constructor |].
  intros H. apply andb_true_iff in H as [Hc Hr]. constructor; auto.
Qed.

(** A class of letters at the top level. *)
Lemma parse_top_letter_class (l : string) (acc : list PyRe.item)
      (rest : list PyRe.token) :
  Py.all_chars Py.isalpha l = true -> l <> "" ->
  PyRe.parse (map PyRe.TChar (list_ascii_of_string ("[" ++ l ++ "]")) ++ rest)
             acc None
  = PyRe.parse rest (PyRe.IOne (letter_class l) :: acc) None.
Proof.
  intros Hl Hne. destruct l as [|c l]; [congruence |].
  change ("[" ++ String c l ++ "]")%string
    with (String "[" (String c (l ++ "]"))).
  cbn [list_ascii_of_string map app]. rewrite parse_top_step.
  change (Ascii.eqb "[" ".") with false. change (Ascii.eqb "[" "^") with false.
  change (Ascii.eqb "[" "$") with false. change (Ascii.eqb "[" "*") with false.
  change (Ascii.eqb "[" "[") with true. cbv iota.
  pose proof Hl as Hl0. simpl in Hl0. apply andb_true_iff in Hl0 as [Hc Hl'].
  destruct (alnum_is_ordinary c (letter_is_alnum c Hc))
    as [_ [_ [_ [_ [_ [_ [Hcaret _]]]]]]].
  rewrite Hcaret.
  rewrite chars_append. cbn [list_ascii_of_string]. rewrite map_app.
  cbn [map]. rewrite <- app_assoc. cbn [app].
  change (PyRe.TChar c :: map PyRe.TChar (list_ascii_of_string l)
            ++ PyRe.TChar "]" :: rest)
    with (map PyRe.TChar (c :: list_ascii_of_string l)
            ++ PyRe.TChar "]" :: rest).
  rewrite (parse_letter_class false (c :: list_ascii_of_string l) [] acc rest);
    [reflexivity | | left; discriminate].
  now apply (letters_Forall (String c l)).
Qed.

Lemma parse_plain (cs vs : string) :
  letter_sets cs vs -> cs <> "" -> vs <> "" ->
  forall (p : string) (acc : list PyRe.item) (rest : list PyRe.token),
    plain_pattern p = true ->
    PyRe.parse (map PyRe.TChar (list_ascii_of_string (body_text cs vs p)) ++ rest)
               acc None
    = PyRe.parse rest (rev (items_of cs vs p) ++ acc) None.
Proof.
  intros [Hcs Hvs] Hcne Hvne.
  induction p as [|c p IH]; intros acc rest Hp; [reflexivity |].
  simpl in Hp. apply andb_true_iff in Hp as [Hc Hp].
  cbn [body_text items_of rev]. rewrite chars_append, map_app, <- !app_assoc.
  cbn [app]. unfold sign_text, sign_item, sign_expansion.
  destruct (Ascii.eqb_spec c ".") as [-> | Hdot].
  { cbn [list_ascii_of_string map app]. rewrite parse_top_step.
    change (Ascii.eqb "." ".") with true. cbv iota. now rewrite IH. }
  destruct (Ascii.eqb_spec c "*") as [-> | Hstar].
  { cbn [list_ascii_of_string map app]. rewrite parse_top_step.
    change (Ascii.eqb "." ".") with true. cbv iota.
    rewrite parse_top_step.
    change (Ascii.eqb "*" ".") with false. change (Ascii.eqb "*" "^") with false.
    change (Ascii.eqb "*" "$") with false. change (Ascii.eqb "*" "*") with true.
    cbv iota. now rewrite IH. }
  destruct (Ascii.eqb_spec c "#") as [-> | Hhash].
  { rewrite parse_top_letter_class by assumption. now rewrite IH. }
  destruct (Ascii.eqb_spec c "@") as [-> | Hat].
  { rewrite parse_top_letter_class by assumption. now rewrite IH. }
  assert (Halnum : Py.isalnum c = true).
  { apply orb_true_iff in Hc as [H | H]; [exact H |].
    cbn [Py.contains] in H. revert H.
    destruct (Ascii.eqb_spec "." c); [congruence |].
    destruct (Ascii.eqb_spec "*" c); [congruence |].
    destruct (Ascii.eqb_spec "#" c); [congruence |].
    destruct (Ascii.eqb_spec "@" c); [congruence |]. discriminate. }
  destruct (alnum_is_ordinary c Halnum)
    as [H1 [H2 [_ [_ [H5 [_ [H7 [H8 [_ [_ [H11 _]]]]]]]]]]].
  cbn [Py.str1 list_ascii_of_string map app]. rewrite parse_top_step.
  rewrite H1, H7, H8, H2, H5, H11. now rewrite IH.
Qed.

(** The compiled form of the expression of a plain pattern. *)
Lemma compile_plain (cs vs p : string) :
  letter_sets cs vs -> cs <> "" -> vs <> "" -> plain_pattern p = true ->
  PyRe.compile (regex_text cs vs p)
  = Some (PyRe.IBegin :: items_of cs vs p ++ [PyRe.IEnd]).
Proof.
  intros Hsets Hcne Hvne Hp. rewrite regex_text_plain by assumption.
  unfold PyRe.compile. rewrite tokens_without_backslash.
  - change ("^" ++ body_text cs vs p ++ "$")%string
      with (String "^" (body_text cs vs p ++ "$")).
    cbn [list_ascii_of_string map]. rewrite chars_append, map_app.
    rewrite parse_top_step.
    change (Ascii.eqb "^" ".") with false. change (Ascii.eqb "^" "^") with true.
    cbv iota. rewrite (parse_plain cs vs Hsets Hcne Hvne p _ _ Hp).
    cbn [list_ascii_of_string map]. rewrite parse_top_step.
    change (Ascii.eqb "$" ".") with false. change (Ascii.eqb "$" "^") with false.
    change (Ascii.eqb "$" "$") with true. cbv iota.
    cbn [PyRe.parse rev]. rewrite rev_app_distr. cbn [rev app].
    now rewrite rev_involutive.
  - change ("^" ++ body_text cs vs p ++ "$")%string
      with (String "^" (body_text cs vs p ++ "$")).
    cbn [Py.contains]. rewrite contains_append.
    rewrite (body_text_no_backslash cs vs p Hsets Hp). reflexivity.
Qed.

Lemma letter_class_ok (l : string) (d : ascii) :
  PyRe.atom_ok (letter_class l) d = Py.contains d l.
Proof.
  unfold letter_class. cbn [PyRe.atom_ok xorb].
  induction l as [|x l IH]; [reflexivity |].
  cbn [list_ascii_of_string map existsb PyRe.citem_ok Py.contains].
  rewrite IH. now rewrite (Ascii.eqb_sym d x).
Qed.

Lemma at_end_without_newline (w : string) :
  Py.contains Py.newline w = false -> PyRe.at_end w = String.eqb w "".
Proof.
  intros H. unfold PyRe.at_end.
  destruct (String.eqb_spec w (Py.str1 Py.newline)) as [-> | Hne];
    [discriminate H | now rewrite orb_false_r].
Qed.

(** Running the compiled expression of a pattern is matching the pattern
    as a glob, on a word without newlines. *)
Lemma run_is_glob (cs vs : string) :
  forall (p w : string) (bol : bool),
    Py.contains Py.newline w = false ->
    PyRe.run (items_of cs vs p ++ [PyRe.IEnd]) bol w = glob cs vs p w.
Proof.
  induction p as [|c p IH]; intros w bol Hw.
  - cbn [items_of app PyRe.run glob].
    rewrite at_end_without_newline by exact Hw. now rewrite andb_true_r.
  - cbn [items_of app glob]. unfold sign_item.
    destruct (Ascii.eqb_spec c ".") as [-> | Hdot].
    { change (Ascii.eqb "." "*") with false. cbv iota. cbn [PyRe.run].
      destruct w as [|d w]; [reflexivity |].
      cbn [Py.contains] in Hw. apply orb_false_iff in Hw as [Hd Hw].
      rewrite IH by exact Hw. reflexivity. }
    destruct (Ascii.eqb_spec c "*") as [-> | Hstar].
    { cbn [PyRe.run]. revert bol.
      induction w as [|d w IHw]; intros bol.
      - rewrite IH by reflexivity. reflexivity.
      - pose proof Hw as Hw0. cbn [Py.contains] in Hw0.
        apply orb_false_iff in Hw0 as [Hd Hw'].
        rewrite IH by exact Hw. f_equal.
        cbn [PyRe.atom_ok]. f_equal. apply IHw. exact Hw'. }
    assert (Hitem :
      (if Ascii.eqb c "#" then PyRe.IOne (letter_class cs)
       else if Ascii.eqb c "@" then PyRe.IOne (letter_class vs)
       else PyRe.IOne (PyRe.Lit c))
      = PyRe.IOne (if Ascii.eqb c "#" then letter_class cs
                   else if Ascii.eqb c "@" then letter_class vs
                   else PyRe.Lit c))
      by (destruct (Ascii.eqb c "#"), (Ascii.eqb c "@"); reflexivity).
    rewrite Hitem. cbn [PyRe.run].
    destruct w as [|d w]; [reflexivity |].
    cbn [Py.contains] in Hw. apply orb_false_iff in Hw as [Hd Hw].
    rewrite IH by exact Hw. f_equal. unfold sign_matches.
    destruct (Ascii.eqb_spec c "."); [congruence |].
    destruct (Ascii.eqb c "#"); [apply letter_class_ok |].
    destruct (Ascii.eqb c "@"); [apply letter_class_ok |]. reflexivity.
Qed.

Lemma glob_star_alone (cs vs w : string) :
  Py.contains Py.newline w = false -> glob cs vs "*" w = true.
Proof.
  cbn [glob]. change (Ascii.eqb "*" "*") with true. cbv iota.
  induction w as [|d w IH]; intros Hw; [reflexivity |].
  cbn [Py.contains] in Hw. apply orb_false_iff in Hw as [Hd Hw].
  rewrite IH by exact Hw. rewrite Hd. now rewrite orb_true_r.
Qed.

(** [matches_pattern] with the model of [re], on a plain pattern and a
    word without newlines, from a sound cache: the answer, and the state it
    leaves. *)
Lemma matches_plain_run (cs vs p w : string) (c : option (Z * Z))
      (s : pm_state) :
  letter_sets cs vs -> cs <> "" -> vs <> "" ->
  plain_pattern p = true ->
  Py.contains Py.newline w = false ->
  cache_sound cs vs (regex_cache s) ->
  exists c',
    matches_pattern cs vs PyRe.regex PyRe.compile PyRe.match_ w p c s
    = (Ok (within c w && glob cs vs p w),
       {| start_time := start_time s; regex_cache := c';
          clock := clock s; checks := checks s |}) /\
    cache_sound cs vs c'.
Proof.
  intros Hsets Hcne Hvne Hp Hw Hsound. unfold matches_pattern.
  fold (within c w).
  replace (match c with
           | Some (min_len, max_len) =>
               negb ((min_len <=? Z.of_nat (String.length w))%Z &&
                     (Z.of_nat (String.length w) <=? max_len)%Z)
           | None => false
           end) with (negb (within c w))
    by (destruct c as [[lo hi]|]; reflexivity).
  assert (Hsame : forall b : bool,
            (Ok b, s) = (Ok b, {| start_time := start_time s;
                                  regex_cache := regex_cache s;
                                  clock := clock s; checks := checks s |}))
    by (intros b; destruct s; reflexivity).
  destruct (within c w); cbn [negb andb];
    [| exists (regex_cache s); split; [apply Hsame | exact Hsound]].
  destruct (String.eqb_spec p "*") as [-> | Hns].
  { rewrite glob_star_alone by exact Hw.
    exists (regex_cache s). split; [apply Hsame | exact Hsound]. }
  destruct (String.eqb_spec p "") as [-> | Hne].
  { exists (regex_cache s). split; [apply Hsame | exact Hsound]. }
  unfold try_except, bind.
  destruct (pattern_to_regex_on_sound_cache cs vs p s Hsets Hsound)
    as [c' [Hrun Hc']].
  rewrite Hrun. unfold re_match_str.
  rewrite (compile_plain cs vs p Hsets Hcne Hvne Hp).
  exists c'. split; [| exact Hc'].
  cbn [ret]. unfold PyRe.match_. cbn [PyRe.run andb].
  now rewrite run_is_glob.
Qed.

Lemma matches_plain (cs vs p w : string) (c : option (Z * Z)) (s : pm_state) :
  letter_sets cs vs -> cs <> "" -> vs <> "" ->
  plain_pattern p = true ->
  Py.contains Py.newline w = false ->
  cache_sound cs vs (regex_cache s) ->
  fst (matches_pattern cs vs PyRe.regex PyRe.compile PyRe.match_ w p c s)
  = Ok (within c w && glob cs vs p w).
Proof.
  intros Hsets Hcne Hvne Hp Hw Hsound.
  destruct (matches_plain_run cs vs p w c s Hsets Hcne Hvne Hp Hw Hsound)
    as [c' [Hrun _]].
  now rewrite Hrun.
Qed.

(** The pattern language on plain patterns. For a pattern made of letters,
    digits, [.], [*], [#] and [@], a word without newlines and a sound
    cache, [matches_pattern] answers what the length constraint and the glob
    reading of the pattern say: [.] one character, [#] one consonant, [@] one
    vowel, [*] any run, every other character itself. *)
Theorem plain_patterns_match_as_globs :
  forall (cs vs p w : string) (c : option (Z * Z)) (s : pm_state),
    letter_sets cs vs -> cs <> "" -> vs <> "" ->
    plain_pattern p = true ->
    Py.contains Py.newline w = false ->
    cache_sound cs vs (regex_cache s) ->
    fst (matches_pattern cs vs PyRe.regex PyRe.compile PyRe.match_ w p c s)
    = Ok (within c w && glob cs vs p w).
Proof. exact matches_plain. Qed.

Lemma sound_fresh_cache (cs vs : string) (t : Z) (n : nat) (log : list (Z * Z)) :
  cache_sound cs vs (regex_cache (fresh_state t n log)).
Proof. intros k v H. discriminate H. Qed.

Lemma alphabetical_letter_sets :
  letter_sets alphabetical_consonants alphabetical_vowels.
Proof. split; reflexivity. Qed.

Lemma plain_patterns_match_as_globs_witness :
  plain_pattern "c#t*" = true /\
  Py.contains Py.newline "cats" = false /\
  fst (matches_pattern alphabetical_consonants alphabetical_vowels
         PyRe.regex PyRe.compile PyRe.match_ "cats" "c#t*" None
         (fresh_state 0 0 []))
  = Ok (within None "cats"
        && glob alphabetical_consonants alphabetical_vowels "c#t*" "cats").
Proof.
  split; [reflexivity |]. split; [reflexivity |].
  apply (plain_patterns_match_as_globs
           alphabetical_consonants alphabetical_vowels "c#t*" "cats" None
           (fresh_state 0 0 [])).
  - exact alphabetical_letter_sets.
  - discriminate.
  - discriminate.
  - reflexivity.
  - reflexivity.
  - apply sound_fresh_cache.
Defined.

Lemma glob_literal (cs vs : string) :
  forall p w : string,
    Py.all_chars Py.isalnum p = true ->
    glob cs vs p w = String.eqb w p.
Proof.
  induction p as [|c p IH]; intros w Hp; [reflexivity |].
  cbn [Py.all_chars] in Hp. apply andb_true_iff in Hp as [Hc Hp].
  destruct (alnum_is_ordinary c Hc) as [H1 [H2 [H3 [H4 _]]]].
  cbn [glob]. rewrite H2.
  destruct w as [|d w]; [reflexivity |].
  unfold sign_matches. rewrite H1, H3, H4, IH by exact Hp.
  cbn [String.eqb]. reflexivity.
Qed.

Lemma alnum_is_plain (p : string) :
  Py.all_chars Py.isalnum p = true -> plain_pattern p = true.
Proof.
  unfold plain_pattern. induction p as [|c p IH]; [reflexivity |].
  cbn [Py.all_chars]. intros H. apply andb_true_iff in H as [Hc Hp].
  now rewrite Hc, IH.
Qed.

(** A pattern of letters and digits only matches exactly the word equal to
    it (no constraint given, word without newlines). *)
Theorem literal_pattern_matches_only_itself :
  forall (cs vs p w : string) (s : pm_state),
    letter_sets cs vs -> cs <> "" -> vs <> "" ->
    Py.all_chars Py.isalnum p = true ->
    Py.contains Py.newline w = false ->
    cache_sound cs vs (regex_cache s) ->
    fst (matches_pattern cs vs PyRe.regex PyRe.compile PyRe.match_ w p None s)
    = Ok (String.eqb w p).
Proof.
  intros cs vs p w s Hsets Hcne Hvne Hp Hw Hsound.
  rewrite (matches_plain cs vs p w None s Hsets Hcne Hvne
             (alnum_is_plain p Hp) Hw Hsound).
  cbn [within andb]. now rewrite glob_literal.
Qed.

Lemma literal_pattern_matches_only_itself_witness :
  Py.all_chars Py.isalnum "cat" = true /\
  Py.contains Py.newline "cot" = false /\
  fst (matches_pattern alphabetical_consonants alphabetical_vowels
         PyRe.regex PyRe.compile PyRe.match_ "cot" "cat" None
         (fresh_state 0 0 []))
  = Ok (String.eqb "cot" "cat").
Proof.
  split; [reflexivity |]. split; [reflexivity |].
  apply (literal_pattern_matches_only_itself
           alphabetical_consonants alphabetical_vowels "cat" "cot"
           (fresh_state 0 0 [])).
  - exact alphabetical_letter_sets.
  - discriminate.
  - discriminate.
  - reflexivity.
  - reflexivity.
  - apply sound_fresh_cache.
Defined.

(* ================================================================== *)
(** ** SimpleMatcher: no exception, and the search end to end *)
(* ================================================================== *)

Lemma matches_pattern_returns
      (cs vs : string) (compiled : Type)
      (re_compile : string -> option compiled)
      (re_match : compiled -> string -> bool)
      (word p : string) (c : option (Z * Z)) (s : pm_state) :
  exists b s',
    matches_pattern cs vs compiled re_compile re_match word p c s = (Ok b, s') /\
    start_time s' = start_time s /\ clock s' = clock s /\
    checks s' = checks s.
Proof.
  unfold matches_pattern.
  assert (Hrest : forall b : bool,
    exists b' s',
      (if b then ret false
       else if String.eqb p "*" then ret true
       else if String.eqb p "" then ret (String.eqb word "")
       else try_except
              (regex <- pattern_to_regex cs vs p ;;
               re_match_str compiled re_compile re_match regex word)
              ReError (ret false)) s = (Ok b', s') /\
      start_time s' = start_time s /\ clock s' = clock s /\
      checks s' = checks s); [| apply Hrest].
  intros [|]; [exists false, s; auto |].
  destruct (String.eqb p "*"); [exists true, s; auto |].
  destruct (String.eqb p ""); [exists (String.eqb word ""), s; auto |].
  cbv beta iota zeta delta [try_except bind pattern_to_regex get_regex_cache
    re_match_str set_regex_cache ret raise].
  destruct (Py.dict_get (regex_cache s) p) as [regex|];
    cbv beta iota zeta;
    match goal with
    | |- context [re_compile ?r] => destruct (re_compile r)
    end; cbn [exn_eqb]; eexists; eexists;
    (split; [reflexivity | auto]).
Qed.

(** [matches_pattern] never raises, whatever the engine does with the
    expression (an expression the engine rejects counts as no match), and
    it neither reads the clock nor touches the start time or the log. *)
Theorem matches_pattern_never_raises :
  forall (cs vs : string) (compiled : Type)
         (re_compile : string -> option compiled)
         (re_match : compiled -> string -> bool)
         (word p : string) (c : option (Z * Z)) (s : pm_state),
    exists b s',
      matches_pattern cs vs compiled re_compile re_match word p c s = (Ok b, s') /\
      start_time s' = start_time s /\ clock s' = clock s /\
      checks s' = checks s.
Proof. intros. apply matches_pattern_returns. Qed.








(* ================================================================== *)
(** ** The two parsers of length prefixes and definitions *)
(* ================================================================== *)

Lemma uint_digits (d : Decimal.uint) :
  Py.all_chars Py.isdigit (NilEmpty.string_of_uint d) = true.
Proof. induction d; simpl; auto. Qed.

Lemma str_of_nat_digits (n : nat) :
  Py.all_chars Py.isdigit (Py.str_of_nat n) = true.
Proof.
  unfold Py.str_of_nat, NilZero.string_of_uint.
  destruct (Nat.to_uint n); try reflexivity; apply uint_digits.
Qed.

Lemma str_of_nat_nonempty (n : nat) : String.eqb (Py.str_of_nat n) "" = false.
Proof.
  unfold Py.str_of_nat, NilZero.string_of_uint.
  destruct (Nat.to_uint n); reflexivity.
Qed.

Lemma int_aux_uint (d : Decimal.uint) :
  forall acc, Py.int_aux acc (NilEmpty.string_of_uint d) = Nat.of_uint_acc d acc.
Proof.
  induction d; intros acc; simpl; try reflexivity;
    rewrite IHd, Nat.tail_mul_spec; f_equal;
    unfold Py.digit_val; simpl; lia.
Qed.

Lemma int_aux_str_of_nat (n : nat) : Py.int_aux 0 (Py.str_of_nat n) = n.
Proof.
  unfold Py.str_of_nat, NilZero.string_of_uint.
  rewrite <- (DecimalNat.Unsigned.of_to n) at 2.
  unfold Nat.of_uint.
  destruct (Nat.to_uint n); rewrite <- int_aux_uint; reflexivity.
Qed.

(** [int(str(n))] is [n] when [int] reads that many digits, and the
    [ValueError] otherwise. *)
Lemma int_str_of_nat (n : nat) :
  Py.int (Py.str_of_nat n) = if int_reads n then Some n else None.
Proof.
  unfold Py.int, int_reads.
  destruct (String.length (Py.str_of_nat n) <=? Py.int_max_str_digits);
    [now rewrite int_aux_str_of_nat | reflexivity].
Qed.

Lemma span_digits (d : string) (c : ascii) (r : string) :
  Py.all_chars Py.isdigit d = true -> Py.isdigit c = false ->
  Py.span Py.isdigit (d ++ String c r) = (d, String c r).
Proof.
  intros Hd Hc. induction d as [|x d IH]; simpl.
  - now rewrite Hc.
  - simpl in Hd. apply andb_true_iff in Hd as [Hx Hd].
    now rewrite Hx, (IH Hd).
Qed.

Lemma first_line_without_newline (p : string) :
  Py.contains Py.newline p = false -> first_line p = p.
Proof.
  unfold first_line. induction p as [|c p IH]; [reflexivity |].
  cbn [Py.contains Py.span]. intros H. apply orb_false_iff in H as [Hc Hp].
  rewrite Hc. cbn [negb]. specialize (IH Hp).
  destruct (Py.span _ p) as [a b]. cbn [fst] in *. now rewrite IH.
Qed.

Lemma reversed_snoc (p : string) (c : ascii) :
  Py.reversed (p ++ Py.str1 c) = String c (Py.reversed p).
Proof.
  unfold Py.reversed.
  replace (list_ascii_of_string (p ++ Py.str1 c))
    with (list_ascii_of_string p ++ [c])%list.
  - now rewrite rev_app_distr.
  - induction p as [|x p IH]; simpl; [reflexivity | now rewrite IH].
Qed.

Lemma contains_append_false (c : ascii) (a b : string) :
  Py.contains c a = false -> Py.contains c b = false ->
  Py.contains c (a ++ b) = false.
Proof.
  intros Ha Hb. induction a as [|x a IH]; simpl in *; [exact Hb |].
  apply orb_false_iff in Ha as [Hx Ha]. now rewrite Hx, (IH Ha).
Qed.

(** The greedy tail of the two definition expressions gives back the
    pattern in front of the closing parenthesis. *)
Lemma before_last_paren_closed (p : string) :
  Py.contains Py.newline p = false ->
  before_last_paren (p ++ ")") = Some p.
Proof.
  intros Hp. unfold before_last_paren.
  rewrite first_line_without_newline
    by (apply contains_append_false; [exact Hp | reflexivity]).
  change ")"%string with (Py.str1 ")") at 1 2 3.
  rewrite reversed_snoc. cbn [Py.find]. rewrite Ascii.eqb_refl.
  unfold Py.slice. rewrite length_append. cbn [Py.str1 String.length].
  replace (String.length p + 1 - 1 - 0 - 0) with (String.length p) by lia.
  now rewrite substring_prefix.
Qed.

(** A definition written with a range of lengths is read back as written
    when [int] reads both lengths; when one of them has too many digits the
    call ends with the [ValueError] of [int]. *)
Theorem range_definition_is_read_back :
  forall (name : ascii) (lo hi : nat) (p : string),
    Py.in_range "A" "R" name = true ->
    0 < lo -> lo <= hi ->
    Py.contains Py.newline p = false ->
    parse_variable_definition (range_definition name lo hi p)
    = if int_reads lo && int_reads hi
      then Ok (Some (stored_definition name lo hi p))
      else Raise ValueError.
Proof.
  intros name lo hi p Hname Hlo Hhi Hp.
  unfold parse_variable_definition, match_definition, range_definition.
  cbn [append]. rewrite Hname. cbn [Ascii.eqb Bool.eqb andb].
  rewrite (span_digits (Py.str_of_nat lo) "-" _ (str_of_nat_digits lo) eq_refl).
  rewrite str_of_nat_nonempty. cbn [Ascii.eqb Bool.eqb andb].
  rewrite (span_digits (Py.str_of_nat hi) ":" _ (str_of_nat_digits hi) eq_refl).
  rewrite str_of_nat_nonempty. cbn [Ascii.eqb Bool.eqb andb].
  rewrite (before_last_paren_closed p Hp).
  unfold with_int. rewrite !int_str_of_nat.
  destruct (int_reads lo); [| reflexivity].
  destruct (int_reads hi); [| reflexivity].
  cbn [andb].
  destruct (lo <=? 0) eqn:H1; [apply Nat.leb_le in H1; lia |].
  destruct (hi <? lo) eqn:H2; [apply Nat.ltb_lt in H2; lia |].
  reflexivity.
Qed.

Lemma range_definition_is_read_back_witness :
  parse_variable_definition (range_definition "A" 3 5 "c*t")
  = Ok (Some (stored_definition "A" 3 5 "c*t")).
Proof.
  change (parse_variable_definition (range_definition "A" 3 5 "c*t")
          = if int_reads 3 && int_reads 5
            then Ok (Some (stored_definition "A" 3 5 "c*t"))
            else Raise ValueError).
  apply (range_definition_is_read_back "A" 3 5 "c*t");
    [reflexivity | lia | lia | reflexivity].
Defined.

(** A definition written with one length is read back with that length as
    both bounds when [int] reads the length; when it has too many digits
    the call ends with the [ValueError] of [int]. *)
Theorem exact_definition_is_read_back :
  forall (name : ascii) (n : nat) (p : string),
    Py.in_range "A" "R" name = true ->
    0 < n ->
    Py.contains Py.newline p = false ->
    parse_variable_definition (exact_definition name n p)
    = if int_reads n
      then Ok (Some (stored_definition name n n p))
      else Raise ValueError.
Proof.
  intros name n p Hname Hn Hp.
  unfold parse_variable_definition, match_definition, exact_definition.
  cbn [append]. rewrite Hname. cbn [Ascii.eqb Bool.eqb andb].
  rewrite (span_digits (Py.str_of_nat n) ":" _ (str_of_nat_digits n) eq_refl).
  rewrite str_of_nat_nonempty. cbn [Ascii.eqb Bool.eqb andb].
  rewrite (before_last_paren_closed p Hp).
  unfold with_int. rewrite !int_str_of_nat.
  destruct (int_reads n); [| reflexivity].
  destruct (n <=? 0) eqn:H1; [apply Nat.leb_le in H1; lia |].
  rewrite Nat.ltb_irrefl. reflexivity.
Qed.

Lemma exact_definition_is_read_back_witness :
  parse_variable_definition (exact_definition "B" 4 "")
  = Ok (Some (stored_definition "B" 4 4 "")).
Proof.
  change (parse_variable_definition (exact_definition "B" 4 "")
          = if int_reads 4
            then Ok (Some (stored_definition "B" 4 4 ""))
            else Raise ValueError).
  apply (exact_definition_is_read_back "B" 4 "");
    [reflexivity | lia | reflexivity].
Defined.

(** When the first definition expression fails, so does the second, which
    is the first without its optional group. *)
Lemma definition_fallback (d : string) :
  match_definition d = None -> match_definition_exact d = None.
Proof.
  unfold match_definition, match_definition_exact.
  destruct d as [|n [|e [|par r]]]; try reflexivity.
  destruct (Py.in_range "A" "R" n && Ascii.eqb e "=" && Ascii.eqb par "(");
    [| reflexivity].
  destruct (Py.span Py.isdigit r) as [d1 r1].
  destruct (String.eqb d1 ""); [reflexivity |].
  destruct r1 as [|c r2]; [reflexivity |].
  destruct (Ascii.eqb c ":"); [| reflexivity].
  destruct (before_last_paren r2); [discriminate | reflexivity].
Qed.

(** The fallback of [parse_variable_definition] is dead code: a clause the
    first expression does not match is rejected. *)
Theorem definition_fallback_never_matches :
  forall d : string,
    match_definition d = None ->
    match_definition_exact d = None /\ parse_variable_definition d = Ok None.
Proof.
  intros d H. pose proof (definition_fallback d H) as H'.
  split; [exact H' |].
  unfold parse_variable_definition. now rewrite H, H'.
Qed.

Lemma definition_fallback_never_matches_witness :
  match_definition "A=(3)" = None /\
  match_definition_exact "A=(3)" = None /\
  parse_variable_definition "A=(3)" = Ok None.
Proof.
  split; [reflexivity |].
  apply (definition_fallback_never_matches "A=(3)"). reflexivity.
Defined.

Lemma match_definition_shape (d name a : string) (b : option string) (p : string) :
  match_definition d = Some (name, a, b, p) ->
  exists (c : ascii) (rest : string),
    d = String c ("=(" ++ rest) /\ Py.in_range "A" "R" c = true /\
    name = Py.str1 c.
Proof.
  unfold match_definition.
  destruct d as [|n [|e [|par r]]]; try discriminate.
  destruct (Py.in_range "A" "R" n) eqn:Hn; [| discriminate].
  destruct (Ascii.eqb_spec e "=") as [-> |]; [| discriminate].
  destruct (Ascii.eqb_spec par "(") as [-> |]; [| discriminate].
  cbn [andb]. intros H. exists n, r. split; [reflexivity |]. split; [exact Hn |].
  destruct (Py.span Py.isdigit r) as [d1 r1].
  destruct (String.eqb d1 ""); [discriminate |].
  destruct r1 as [|c r2]; [discriminate |].
  destruct (Ascii.eqb c ":").
  - destruct (before_last_paren r2); [| discriminate]. congruence.
  - destruct (Ascii.eqb c "-"); [| discriminate].
    destruct (Py.span Py.isdigit r2) as [d2 r3].
    destruct (String.eqb d2 ""); [discriminate |].
    destruct r3 as [|c' r4]; [discriminate |].
    destruct (Ascii.eqb c' ":"); [| discriminate].
    destruct (before_last_paren r4); [| discriminate]. congruence.
Qed.

(** What [parse_variable_definition] accepts is well formed: the clause
    starts with a letter from A to R, an equals sign and an opening
    parenthesis; the letter is the name; the lengths are positive and
    ordered; the pattern is not empty. *)
Theorem parsed_definition_is_well_formed :
  forall (d : string) (v : var_info),
    parse_variable_definition d = Ok (Some v) ->
    0 < min_len v /\ min_len v <= max_len v /\ pattern v <> "" /\
    exists (c : ascii) (rest : string),
      d = String c ("=(" ++ rest) /\ Py.in_range "A" "R" c = true /\
      var_name v = Py.str1 c.
Proof.
  intros d v. unfold parse_variable_definition.
  destruct (match_definition d) as [[[[name a] b] p]|] eqn:Hm.
  - destruct (match_definition_shape d name a b p Hm) as [c [rest [Hd [Hc Hn]]]].
    assert (Hchecked : forall lo hi : nat,
      Ok (if (lo <=? 0) || (hi <? lo) then None
          else Some {| var_name := name; min_len := lo; max_len := hi;
                       pattern := if String.eqb p "" then "*" else p |})
      = Ok (Some v) ->
      0 < min_len v /\ min_len v <= max_len v /\ pattern v <> "" /\
      exists (c : ascii) (rest : string),
        d = String c ("=(" ++ rest) /\ Py.in_range "A" "R" c = true /\
        var_name v = Py.str1 c).
    { intros lo hi.
      destruct (lo <=? 0) eqn:H1; [discriminate |].
      destruct (hi <? lo) eqn:H2; [discriminate |].
      cbn [orb]. intros H. injection H as <-.
      cbn [min_len max_len pattern var_name].
      apply Nat.leb_gt in H1. apply Nat.ltb_ge in H2.
      repeat split; try lia.
      + destruct (String.eqb_spec p ""); [discriminate | assumption].
      + exists c, rest. auto. }
    unfold with_int.
    destruct (Py.int a) as [lo|]; [| discriminate].
    destruct b as [m|]; [| apply Hchecked].
    destruct (Py.int m) as [hi|]; [apply Hchecked | discriminate].
  - rewrite (definition_fallback d Hm). discriminate.
Qed.

Lemma parsed_definition_is_well_formed_witness :
  parse_variable_definition "A=(3-5:c*t) and more"
  = Ok (Some {| var_name := "A"; min_len := 3; max_len := 5; pattern := "c*t" |}) /\
  0 < 3 /\ 3 <= 5 /\ "c*t" <> "" /\
  exists (c : ascii) (rest : string),
    "A=(3-5:c*t) and more" = String c ("=(" ++ rest) /\
    Py.in_range "A" "R" c = true /\ "A" = Py.str1 c.
Proof.
  split; [reflexivity |].
  exact (parsed_definition_is_well_formed "A=(3-5:c*t) and more"
           {| var_name := "A"; min_len := 3; max_len := 5; pattern := "c*t" |}
           eq_refl).
Defined.

Lemma first_line_newline_free (s : string) :
  Py.contains Py.newline (first_line s) = false.
Proof.
  unfold first_line. induction s as [|c s IH]; [reflexivity |].
  cbn [Py.span]. destruct (Ascii.eqb c Py.newline) eqn:Hc; cbn [negb].
  - reflexivity.
  - destruct (Py.span _ s) as [a b]. cbn [fst Py.contains] in *.
    now rewrite Hc, IH.
Qed.

(** What [length_constraint_from_pattern] returns: either positive ordered
    bounds with a rest on one line, or no bounds and the clause as it
    came. The only exception it raises is the [ValueError] of [int]. *)
Theorem length_constraint_is_well_formed :
  forall pattern_str : string,
    match length_constraint_from_pattern pattern_str with
    | Ok (Some (lo, hi), rest) =>
        0 < lo /\ lo <= hi /\ Py.contains Py.newline rest = false
    | Ok (None, rest) => rest = pattern_str
    | Raise e => e = ValueError
    end.
Proof.
  intros p. unfold length_constraint_from_pattern, with_int.
  destruct (Py.span Py.isdigit p) as [d1 r1].
  destruct r1 as [|c r2]; [reflexivity |].
  destruct (negb (String.eqb d1 "")); cbn [andb]; [| reflexivity].
  destruct (Ascii.eqb c ":").
  - destruct (Py.int d1) as [len|]; [| reflexivity].
    destruct (0 <? len) eqn:H; [| reflexivity].
    apply Nat.ltb_lt in H. repeat split; try lia.
    apply first_line_newline_free.
  - destruct (Ascii.eqb c "-"); [| reflexivity].
    destruct (Py.span Py.isdigit r2) as [d2 r3].
    destruct r3 as [|c' r4]; [reflexivity |].
    destruct (negb (String.eqb d2 "") && Ascii.eqb c' ":"); [| reflexivity].
    destruct (Py.int d1) as [lo|]; [| reflexivity].
    destruct (Py.int d2) as [hi|]; [| reflexivity].
    destruct (0 <? lo) eqn:H1; [| reflexivity].
    destruct (lo <=? hi) eqn:H2; [| reflexivity].
    apply Nat.ltb_lt in H1. apply Nat.leb_le in H2. cbn [andb].
    repeat split; try lia. apply first_line_newline_free.
Qed.

(** A length prefix written in front of a one-line pattern is read back
    when [int] reads its numbers: one length as both bounds, a range as its
    two bounds. When a number has too many digits the call ends with the
    [ValueError] of [int]. *)
Theorem length_prefix_is_read_back :
  forall (lo hi : nat) (rest : string),
    0 < lo -> lo <= hi ->
    Py.contains Py.newline rest = false ->
    length_constraint_from_pattern (Py.str_of_nat lo ++ ":" ++ rest)
    = (if int_reads lo then Ok (Some (lo, lo), rest) else Raise ValueError) /\
    length_constraint_from_pattern
      (Py.str_of_nat lo ++ "-" ++ Py.str_of_nat hi ++ ":" ++ rest)
    = (if int_reads lo && int_reads hi
       then Ok (Some (lo, hi), rest) else Raise ValueError).
Proof.
  intros lo hi rest Hlo Hhi Hrest.
  assert (H0 : (0 <? lo) = true) by now apply Nat.ltb_lt.
  assert (H1 : (lo <=? hi) = true) by now apply Nat.leb_le.
  unfold length_constraint_from_pattern, with_int. split.
  - cbn [append].
    rewrite (span_digits (Py.str_of_nat lo) ":" _ (str_of_nat_digits lo) eq_refl).
    rewrite str_of_nat_nonempty. cbn [negb andb Ascii.eqb Bool.eqb].
    rewrite int_str_of_nat.
    destruct (int_reads lo); [| reflexivity].
    now rewrite H0, (first_line_without_newline rest Hrest).
  - cbn [append].
    rewrite (span_digits (Py.str_of_nat lo) "-" _ (str_of_nat_digits lo) eq_refl).
    rewrite str_of_nat_nonempty. cbn [negb andb Ascii.eqb Bool.eqb].
    rewrite (span_digits (Py.str_of_nat hi) ":" _ (str_of_nat_digits hi) eq_refl).
    rewrite str_of_nat_nonempty. cbn [negb andb Ascii.eqb Bool.eqb].
    rewrite !int_str_of_nat.
    destruct (int_reads lo); [| reflexivity].
    destruct (int_reads hi); [| reflexivity].
    cbn [andb]. now rewrite H0, H1, (first_line_without_newline rest Hrest).
Qed.

Lemma length_prefix_is_read_back_witness :
  length_constraint_from_pattern (Py.str_of_nat 4 ++ ":" ++ "c*t")
  = Ok (Some (4, 4), "c*t") /\
  length_constraint_from_pattern
    (Py.str_of_nat 4 ++ "-" ++ Py.str_of_nat 12 ++ ":" ++ "c*t")
  = Ok (Some (4, 12), "c*t").
Proof.
  change
    (length_constraint_from_pattern (Py.str_of_nat 4 ++ ":" ++ "c*t")
     = (if int_reads 4 then Ok (Some (4, 4), "c*t") else Raise ValueError) /\
     length_constraint_from_pattern
       (Py.str_of_nat 4 ++ "-" ++ Py.str_of_nat 12 ++ ":" ++ "c*t")
     = (if int_reads 4 && int_reads 12
        then Ok (Some (4, 12), "c*t") else Raise ValueError)).
  apply (length_prefix_is_read_back 4 12 "c*t"); [lia | lia | reflexivity].
Defined.

(* ================================================================== *)
(** ** Queries of plain clauses, end to end *)
(* ================================================================== *)



Section PlainQueries.

Variable time_at : nat -> Z.
Variable timeout : Z.
Variables cs vs : string.
Variable lines : list string.

Hypothesis Hsets : letter_sets cs vs.
Hypothesis Hcne : cs <> "".
Hypothesis Hvne : vs <> "".

Let cache := fst (load_wordlist (Some lines)).

Variable t0 : Z.
Hypothesis Hclock : forall n, (time_at n - t0 <= timeout)%Z.

Let P := fun s : pm_state =>
           start_time s = t0 /\ cache_sound cs vs (regex_cache s).


(** The words common to the clauses seen so far. *)
Let base (common : option (list string)) (w : string) : Prop :=
  match common with
  | None => True
  | Some c => In w c
  end.



End PlainQueries.





(* ================================================================== *)
(** ** The dispatcher and the search button *)
(* ================================================================== *)







(** A query made of definition clauses only gives the empty result tagged
    [definition_only], unless the loop over the definitions raises: the
    [TimeoutError] of a checkpoint, or the [ValueError] of [int] on a length
    with too many digits. *)
Theorem definitions_alone_give_an_empty_result :
  forall (time_at : nat -> Z) (cs vs : string) (compiled : Type)
         (re_compile : string -> option compiled)
         (re_match : compiled -> string -> bool)
         (cache : WordlistCache) (timeout : Z) (query : string) (s : pm_state),
    filter (fun p => negb (is_definition_clause p)) (query_clauses query) = [] ->
    let o := fst (execute_query time_at cs vs compiled re_compile re_match
                    cache timeout query s) in
    o = Ok (Some [], "definition_only") \/ o = Raise TimeoutError \/
    (o = Raise ValueError /\
     exists d, In d (query_clauses query) /\
               parse_variable_definition d = Raise ValueError).
Proof.
  intros time_at cs vs compiled re_compile re_match cache timeout query s Hsearch.
  rewrite execute_query_parts, Hsearch. unfold bind.
  pose proof (definitions_loop_checks time_at cs compiled re_compile timeout
                (filter is_definition_clause (query_clauses query))
                (dispatch_state time_at s)) as [new [_ [_ H]]].
  destruct (definitions_loop _ _ _ _) as [[variables|e] s']; cbn [fst] in *.
  - left. unfold guarded_block. cbn [length Nat.eqb negb].
    rewrite andb_false_r. reflexivity.
  - right. destruct H as [[-> _] | [-> [_ [d [Hd Hraise]]]]];
      [now left | right].
    split; [reflexivity |]. exists d. split; [| exact Hraise].
    now apply filter_In in Hd.
Qed.

Lemma definitions_alone_give_an_empty_result_witness :
  let o := fst (execute_query frozen_clock alphabetical_consonants
                  alphabetical_vowels PyRe.regex PyRe.compile PyRe.match_
                  demo_cache 5%Z "A=(3:c*); B=(2:*)" (fresh_state 0 0 [])) in
  o = Ok (Some [], "definition_only") \/ o = Raise TimeoutError \/
  (o = Raise ValueError /\
   exists d, In d (query_clauses "A=(3:c*); B=(2:*)") /\
             parse_variable_definition d = Raise ValueError).
Proof.
  apply (definitions_alone_give_an_empty_result frozen_clock
           alphabetical_consonants alphabetical_vowels PyRe.regex PyRe.compile
           PyRe.match_ demo_cache 5%Z "A=(3:c*); B=(2:*)" (fresh_state 0 0 [])).
  reflexivity.
Defined.

(** A query starts afresh: what an earlier query left in the start time
    and in the expression cache has no influence on the outcome or on the
    state in which the query ends. *)
Theorem execute_query_forgets_the_previous_query :
  forall (time_at : nat -> Z) (cs vs : string) (compiled : Type)
         (re_compile : string -> option compiled)
         (re_match : compiled -> string -> bool)
         (cache : WordlistCache) (timeout : Z) (query : string)
         (s1 s2 : pm_state),
    clock s1 = clock s2 -> checks s1 = checks s2 ->
    execute_query time_at cs vs compiled re_compile re_match cache timeout
                  query s1
    = execute_query time_at cs vs compiled re_compile re_match cache timeout
                    query s2.
Proof.
  intros time_at cs vs compiled re_compile re_match cache timeout query s1 s2
         Hclock Hchecks.
  rewrite !execute_query_parts. unfold dispatch_state.
  now rewrite Hclock, Hchecks.
Qed.

Lemma execute_query_forgets_the_previous_query_witness :
  execute_query frozen_clock alphabetical_consonants alphabetical_vowels
                PyRe.regex PyRe.compile PyRe.match_ demo_cache 5%Z "c.t"
                {| start_time := 7; regex_cache := [("c.t", "^dog$")];
                   clock := 3; checks := [] |}
  = execute_query frozen_clock alphabetical_consonants alphabetical_vowels
                  PyRe.regex PyRe.compile PyRe.match_ demo_cache 5%Z "c.t"
                  (fresh_state 0 3 []).
Proof.
  apply (execute_query_forgets_the_previous_query frozen_clock
           alphabetical_consonants alphabetical_vowels PyRe.regex PyRe.compile
           PyRe.match_ demo_cache 5%Z "c.t"); reflexivity.
Defined.

(* ================================================================== *)
(** ** The equation solver: what its results look like *)
(* ================================================================== *)

Section YieldsRules.

Context {A B : Type}.

Lemma yields_ret (a : A) (Q : A -> Prop) : Q a -> yields (ret a) Q.
Proof. intros H s. exact H. Qed.

Lemma yields_bind (m : M A) (k : A -> M B) (Q1 : A -> Prop) (Q : B -> Prop) :
  yields m Q1 -> (forall a, Q1 a -> yields (k a) Q) -> yields (bind m k) Q.
Proof.
  intros Hm Hk s. unfold bind. specialize (Hm s).
  destruct (m s) as [[a|e] s']; simpl in *; [apply Hk; exact Hm | exact Hm].
Qed.

Lemma yields_weaken (m : M A) (Q1 Q2 : A -> Prop) :
  yields m Q1 -> (forall a, Q1 a -> Q2 a) -> yields m Q2.
Proof.
  intros Hm HQ s. specialize (Hm s).
  destruct (fst (m s)); [now apply HQ | exact Hm].
Qed.

End YieldsRules.

Lemma yields_for_each {A B : Type} (Inv : B -> Prop) (body : A -> B -> M B) :
  forall (l : list A),
    (forall x acc, In x l -> Inv acc -> yields (body x acc) Inv) ->
    forall acc, Inv acc -> yields (for_each l acc body) Inv.
Proof.
  induction l as [|x r IH]; intros Hbody acc Hacc.
  - intros s. exact Hacc.
  - simpl. apply yields_bind with (Q1 := Inv).
    + apply Hbody; [now left | exact Hacc].
    + intros acc' Hacc'. apply IH; [| exact Hacc'].
      intros y a Hy. apply Hbody. now right.
Qed.

Lemma yields_time_check (time_at : nat -> Z) (timeout : Z) :
  yields (_time_check time_at timeout) (fun _ => True).
Proof.
  intros s. unfold _time_check, bind, time_time, get_start_time, record_check.
  simpl. destruct (_ >? _)%Z; simpl; auto.
Qed.

Lemma yields_matches_pattern
      (cs vs : string) (compiled : Type)
      (re_compile : string -> option compiled)
      (re_match : compiled -> string -> bool)
      (word p : string) (c : option (Z * Z)) :
  yields (matches_pattern cs vs compiled re_compile re_match word p c)
         (fun _ => True).
Proof.
  intros s.
  destruct (matches_pattern_returns cs vs compiled re_compile re_match word p c s)
    as [b [s' [-> _]]].
  exact I.
Qed.

Lemma pair_eqb_eq (a b : string * string) : pair_eqb a b = true <-> a = b.
Proof.
  unfold pair_eqb. destruct a as [a1 a2], b as [b1 b2]. simpl.
  rewrite andb_true_iff, !String.eqb_eq. split.
  - intros [-> ->]. reflexivity.
  - intros H. injection H as -> ->. auto.
Qed.

(** The first block of the two-clause case (relation "X ; ~X"), before the
    second block adds to its results: every result pairs a word with its
    mirror image, no word is paired with itself, the binding is the first
    word, and no pair is reported twice, in either order. Without a
    definition of the variable there is no result list. *)
Lemma self_reverse_block_results :
  forall (time_at : nat -> Z) (cs vs : string) (compiled : Type)
         (re_compile : string -> option compiled)
         (re_match : compiled -> string -> bool)
         (cache : WordlistCache) (timeout : Z)
         (variables : variables_t) (name : string),
    yields
      (solve_self_reverse time_at cs vs compiled re_compile re_match cache
                          timeout variables name)
      (fun r => match r with
                | None => Py.dict_get variables name = None
                | Some results =>
                    Forall (mirror_result name) results /\
                    NoDup (map pair_of results)
                end).
Proof.
  intros. unfold solve_self_reverse.
  destruct (Py.dict_get variables name) as [var_info|];
    [| now apply yields_ret].
  eapply yields_bind with (Q1 := fun _ => True).
  { apply yields_for_each; [| exact I].
    intros len acc _ _. apply yields_for_each; [| exact I].
    intros word acc' _ _.
    eapply yields_bind; [apply yields_time_check |]. intros _ _.
    eapply yields_bind; [apply yields_matches_pattern |]. intros ok _.
    destruct ok; now apply yields_ret. }
  intros candidates_A _.
  eapply yields_bind
    with (Q1 := fun st : list match_result * list (string * string) =>
                  Forall (mirror_result name) (fst st) /\
                  snd st = rev (map pair_of (fst st)) /\ NoDup (snd st)).
  - apply yields_for_each; [| repeat split; constructor].
    intros word1 [results found] _ [Hres [Hfound Hnd]]. cbn [fst snd] in *.
    eapply yields_bind; [apply yields_time_check |]. intros _ _.
    destruct (String.eqb_spec word1 (Py.reversed word1)) as [Heq | Hne];
      [now apply yields_ret |].
    destruct (Py.str_in _ _); [| now apply yields_ret].
    destruct (existsb _ found) eqn:Hex; cbn [negb]; [now apply yields_ret |].
    apply yields_ret. cbn [fst snd]. split; [| split].
    + apply Forall_app. split; [exact Hres |].
      constructor; [| constructor]. repeat split. exact Hne.
    + rewrite map_app, rev_app_distr. cbn [map rev app pair_of fst].
      now rewrite Hfound.
    + constructor; [| exact Hnd].
      intros Hin. apply Bool.not_true_iff_false in Hex. apply Hex.
      apply existsb_exists. eexists. split; [exact Hin |].
      now apply pair_eqb_eq.
  - intros [results found] [Hres [Hfound Hnd]]. cbn [fst snd] in *.
    apply yields_ret. split; [exact Hres |].
    rewrite Hfound in Hnd. apply NoDup_rev in Hnd.
    now rewrite rev_involutive in Hnd.
Qed.

Lemma add_reference_unfit (variables : variables_t) (is_reversed : bool)
      (c : ascii) (total_len : nat) (var_details : list var_detail) :
  fixed_length variables c = false ->
  add_reference variables is_reversed (Py.str1 c) total_len var_details
  = StructReturn.
Proof.
  unfold fixed_length, add_reference.
  destruct (Py.dict_get variables (Py.str1 c)) as [v|]; [| reflexivity].
  now intros ->.
Qed.

(** The parsing loop of the one-clause case does not come back with a
    structure when the clause mentions a variable that is undefined or
    defined with a range of lengths. *)
Lemma parse_single_unfit (time_at : nat -> Z) (timeout : Z)
      (variables : variables_t) (c : ascii) :
  is_var_letter c = true ->
  fixed_length variables c = false ->
  forall (n : nat) (rest : string) (total_len : nat)
         (var_details : list var_detail),
    String.length rest <= n ->
    Py.contains c rest = true ->
    yields (parse_single time_at timeout variables rest total_len var_details)
           (fun st => match st with
                      | StructOk _ _ => False
                      | _ => True
                      end).
Proof.
  intros Hc Hfix.
  assert (Htilde : Ascii.eqb "~" c = false).
  { destruct (Ascii.eqb_spec "~" c) as [<- |]; [discriminate Hc | reflexivity]. }
  induction n as [|n IH]; intros rest total_len var_details Hlen Hin.
  - destruct rest; [discriminate Hin | simpl in Hlen; lia].
  - destruct rest as [|c0 r]; [discriminate Hin |].
    cbn [parse_single].
    eapply yields_bind; [apply yields_time_check |]. intros _ _.
    cbn [Py.contains] in Hin. cbn [String.length] in Hlen.
    destruct (Ascii.eqb_spec c0 "~") as [-> | Hnt].
    + rewrite Htilde in Hin. cbn [orb] in Hin.
      destruct r as [|d r']; [discriminate Hin |].
      destruct (is_var_letter d); [| now apply yields_ret].
      cbn [Py.contains] in Hin. cbn [String.length] in Hlen.
      destruct (Ascii.eqb_spec d c) as [-> | Hdc].
      * rewrite add_reference_unfit by exact Hfix. now apply yields_ret.
      * cbn [orb] in Hin.
        destruct (add_reference variables true (Py.str1 d) total_len var_details);
          try now apply yields_ret.
        apply IH; [lia | exact Hin].
    + destruct (is_var_letter c0); [| now apply yields_ret].
      destruct (Ascii.eqb_spec c0 c) as [-> | Hdc].
      * rewrite add_reference_unfit by exact Hfix. now apply yields_ret.
      * cbn [orb] in Hin.
        destruct (add_reference variables false (Py.str1 c0) total_len var_details);
          try now apply yields_ret.
        apply IH; [lia | exact Hin].
Qed.

(** A one-clause equation that mentions a variable which is undefined, or
    defined with a range of lengths, has no results. *)
Theorem equation_on_unfit_variable_is_empty :
  forall (time_at : nat -> Z) (cs vs : string) (compiled : Type)
         (re_compile : string -> option compiled)
         (re_match : compiled -> string -> bool)
         (cache : WordlistCache) (timeout : Z)
         (variables : variables_t) (p : string) (c : ascii),
    is_var_letter c = true ->
    Py.contains c p = true ->
    fixed_length variables c = false ->
    yields
      (solve_equation time_at cs vs compiled re_compile re_match cache timeout
                      variables [p])
      (fun results => results = []).
Proof.
  intros time_at cs vs compiled re_compile re_match cache timeout variables p c
         Hc Hin Hfix.
  unfold solve_equation.
  eapply yields_bind with (Q1 := fun _ => True); [intros s; exact I |].
  intros now _.
  eapply yields_bind with (Q1 := fun _ => True); [intros s; exact I |].
  intros _ _.
  destruct variables as [|v0 vr] eqn:Hv; [now apply yields_ret |].
  rewrite <- Hv in *. clear Hv v0 vr.
  unfold solve_single.
  destruct (only_refs (findall_refs p) p); [| now apply yields_ret].
  eapply yields_bind
    with (Q1 := fun st => match st with
                          | StructOk _ _ => False
                          | _ => True
                          end).
  - intros s. unfold try_except_any.
    pose proof (parse_single_unfit time_at timeout variables c Hc Hfix
                  (String.length p) p 0 [] (Nat.le_refl _) Hin s) as H.
    destruct (parse_single time_at timeout variables p 0 [] s) as [[st|e] s'];
      cbn [fst] in *; [exact H |].
    subst e. reflexivity.
  - intros st Hst. destruct st; [now apply yields_ret | now apply yields_ret |].
    contradiction.
Qed.

Lemma equation_on_unfit_variable_is_empty_witness :
  yields
    (solve_equation frozen_clock alphabetical_consonants alphabetical_vowels
                    PyRe.regex PyRe.compile PyRe.match_ demo_cache 5%Z
                    [("A", {| var_name := "A"; min_len := 2; max_len := 3;
                              pattern := "*" |})]
                    ["A~A"])
    (fun results => results = []).
Proof.
  apply (equation_on_unfit_variable_is_empty frozen_clock
           alphabetical_consonants alphabetical_vowels PyRe.regex PyRe.compile
           PyRe.match_ demo_cache 5%Z
           [("A", {| var_name := "A"; min_len := 2; max_len := 3;
                     pattern := "*" |})]
           "A~A" "A"); reflexivity.
Defined.

Lemma var_letter_not_tilde (c : ascii) :
  is_var_letter c = true -> Ascii.eqb c "~" = false.
Proof.
  intros Hc. destruct (Ascii.eqb_spec c "~") as [-> |];
    [discriminate Hc | reflexivity].
Qed.

(** When the parsing loop of the one-clause case comes back with a
    structure, its entries stand for the references of the clause, in
    order, and the total is the sum of their lengths. *)
Lemma parse_single_structure (time_at : nat -> Z) (timeout : Z)
      (variables : variables_t) :
  forall (n : nat) (rest : string) (total_len : nat)
         (var_details : list var_detail),
    String.length rest <= n ->
    yields (parse_single time_at timeout variables rest total_len var_details)
           (fun st => match st with
                      | StructOk t' v' =>
                          exists new,
                            v' = var_details ++ new /\
                            t' = total_len + total_length new /\
                            Forall2 detail_fits new (findall_refs rest)
                      | _ => True
                      end).
Proof.
  induction n as [|n IH]; intros rest total_len var_details Hlen.
  - destruct rest; [| simpl in Hlen; lia].
    apply yields_ret. exists []. rewrite app_nil_r.
    unfold total_length. simpl.
    split; [reflexivity |]. split; [lia | constructor].
  - destruct rest as [|c0 r].
    { apply yields_ret. exists []. rewrite app_nil_r.
      unfold total_length. simpl.
      split; [reflexivity |]. split; [lia | constructor]. }
    cbn [parse_single findall_refs].
    eapply yields_bind; [apply yields_time_check |]. intros _ _.
    cbn [String.length] in Hlen.
    destruct (Ascii.eqb c0 "~") eqn:Hc0.
    + destruct r as [|d r']; [now apply yields_ret |].
      destruct (is_var_letter d) eqn:Hd; [| now apply yields_ret].
      unfold add_reference.
      destruct (Py.dict_get variables (Py.str1 d)) as [vi|];
        [| now apply yields_ret].
      destruct (negb (min_len vi =? max_len vi)); [now apply yields_ret |].
      cbn [String.length] in Hlen.
      eapply yields_weaken; [apply IH; lia |].
      intros [| |t' v']; try exact (fun _ => I).
      intros [new [-> [-> Hnew]]].
      eexists (_ :: new). rewrite <- app_assoc. cbn [app].
      split; [reflexivity |].
      split; [unfold total_length; cbn [fold_right vd_len]; lia |].
      constructor; [| exact Hnew].
      apply Ascii.eqb_eq in Hc0. subst c0.
      unfold detail_fits.
      cbn [vd_name vd_reversed Py.replace Py.startswith Py.str1 append].
      rewrite ?Ascii.eqb_refl, ?(var_letter_not_tilde d Hd).
      cbn [Py.replace append]. rewrite ?(var_letter_not_tilde d Hd). auto.
    + destruct (is_var_letter c0) eqn:Hv; [| now apply yields_ret].
      unfold add_reference.
      destruct (Py.dict_get variables (Py.str1 c0)) as [vi|];
        [| now apply yields_ret].
      destruct (negb (min_len vi =? max_len vi)); [now apply yields_ret |].
      eapply yields_weaken; [apply IH; lia |].
      intros [| |t' v']; try exact (fun _ => I).
      intros [new [-> [-> Hnew]]].
      eexists (_ :: new). rewrite <- app_assoc. cbn [app].
      split; [reflexivity |].
      split; [unfold total_length; cbn [fold_right vd_len]; lia |].
      constructor; [| exact Hnew].
      unfold detail_fits. cbn [vd_name vd_reversed Py.replace Py.startswith Py.str1].
      rewrite Hc0. auto.
Qed.

Lemma substring_split (w : string) :
  forall pos a b : nat,
    substring pos (a + b) w
    = (substring pos a w ++ substring (pos + a) b w)%string.
Proof.
  induction w as [|c w IH]; intros pos a b.
  - destruct pos, a, b; reflexivity.
  - destruct pos as [|pos].
    + destruct a as [|a].
      * reflexivity.
      * cbn [Nat.add substring append]. now rewrite (IH 0 a b).
    + cbn [Nat.add substring]. apply IH.
Qed.

Lemma substring_nothing (w : string) :
  forall pos : nat, substring pos 0 w = "".
Proof.
  induction w as [|c w IH]; intros [|pos]; try reflexivity. apply IH.
Qed.

Lemma reversed_involutive (s : string) : Py.reversed (Py.reversed s) = s.
Proof.
  unfold Py.reversed.
  now rewrite list_ascii_of_string_of_list_ascii, rev_involutive,
    string_of_list_ascii_of_string.
Qed.

(** When the inner loop accepts a word, it leaves the bindings of other
    names alone, and the references of the clause applied to the bindings
    spell the stretch of the word it walked over. *)
Lemma decompose_spells
      (cs vs : string) (compiled : Type)
      (re_compile : string -> option compiled)
      (re_match : compiled -> string -> bool) (word : string) :
  forall (details : list var_detail) (refs : list string)
         (pos : nat) (decomp : list (string * string)),
    Forall2 detail_fits details refs ->
    NoDup (map vd_name details) ->
    yields (decompose cs vs compiled re_compile re_match details word pos decomp)
           (fun r => match r with
                     | None => True
                     | Some d' =>
                         (forall k, ~ In k (map vd_name details) ->
                                    Py.dict_get d' k = Py.dict_get decomp k) /\
                         forall acc,
                           build_word2 refs d' acc
                           = Some (acc ++ substring pos (total_length details) word)%string
                     end).
Proof.
  induction details as [|vd ds IH]; intros refs pos decomp Hfits Hnd.
  - inversion Hfits; subst. apply yields_ret. split; [reflexivity |].
    intros acc. cbn [build_word2 total_length fold_right].
    now rewrite substring_nothing, append_empty_r.
  - inversion Hfits as [|? ref ? refs' [Hname Hrev] Hfits']; subst.
    cbn [map] in Hnd. inversion Hnd as [|? ? Hnotin Hnd']; subst.
    cbn [decompose].
    eapply yields_bind; [apply yields_matches_pattern |]. intros ok _.
    destruct ok; cbn [negb]; [| now apply yields_ret].
    eapply yields_weaken; [apply (IH refs' _ _ Hfits' Hnd') |].
    intros [d'|]; [| exact (fun _ => I)].
    intros [Hkeep Hspell]. split.
    + intros k Hk. cbn [map In] in Hk.
      rewrite Hkeep by tauto. rewrite dict_get_set.
      destruct (String.eqb_spec (vd_name vd) k); [tauto | reflexivity].
    + intros acc. cbn [build_word2]. rewrite <- Hname.
      rewrite (Hkeep _ Hnotin), dict_get_set, String.eqb_refl.
      rewrite <- Hrev, Hspell.
      cbn [total_length fold_right]. fold (total_length ds).
      rewrite substring_split, <- append_assoc. repeat f_equal.
      unfold Py.slice.
      replace (pos + vd_len vd - pos) with (vd_len vd) by lia.
      destruct (vd_reversed vd); [apply reversed_involutive | reflexivity].
Qed.

(** A one-clause equation whose references name distinct variables: every
    result has no second word, and the references of the clause applied to
    its bindings spell the word. *)
Theorem one_clause_results_spell_their_word :
  forall (time_at : nat -> Z) (cs vs : string) (compiled : Type)
         (re_compile : string -> option compiled)
         (re_match : compiled -> string -> bool)
         (cache : WordlistCache) (timeout : Z)
         (variables : variables_t) (p : string),
    index_ok cache = true ->
    NoDup (map (Py.replace "~" "") (findall_refs p)) ->
    yields
      (solve_equation time_at cs vs compiled re_compile re_match cache timeout
                      variables [p])
      (Forall (fun r : match_result =>
                 let '(word1, word2, decomp) := r in
                 word2 = None /\
                 build_word2 (findall_refs p) decomp "" = Some word1)).
Proof.
  intros time_at cs vs compiled re_compile re_match cache timeout variables p
         Hok Hnd.
  unfold solve_equation.
  eapply yields_bind with (Q1 := fun _ => True); [intros s; exact I |].
  intros now _.
  eapply yields_bind with (Q1 := fun _ => True); [intros s; exact I |].
  intros _ _.
  destruct variables as [|v0 vr] eqn:Hv; [apply yields_ret; constructor |].
  rewrite <- Hv in *. clear Hv v0 vr.
  unfold solve_single.
  destruct (only_refs (findall_refs p) p); [| apply yields_ret; constructor].
  eapply yields_bind
    with (Q1 := fun st => match st with
                          | StructOk t' v' =>
                              t' = total_length v' /\
                              Forall2 detail_fits v' (findall_refs p)
                          | _ => True
                          end).
  - intros s. unfold try_except_any.
    pose proof (parse_single_structure time_at timeout variables
                  (String.length p) p 0 [] (Nat.le_refl _) s) as H.
    destruct (parse_single time_at timeout variables p 0 [] s) as [[st|e] s'];
      cbn [fst] in *; [| subst e; reflexivity].
    destruct st as [| |t' v']; try exact I.
    destruct H as [new [-> [-> Hnew]]]. cbn [app]. auto.
  - intros [| |t' v']; [intros _; apply yields_ret; constructor
                       | intros _; apply yields_ret; constructor |].
    intros [-> Hfits].
    assert (Hnames : map vd_name v' = map (Py.replace "~" "") (findall_refs p)).
    { clear -Hfits. induction Hfits as [|vd ref ds refs [Hn _] _ IH];
        [reflexivity |]. cbn [map]. now rewrite Hn, IH. }
    apply yields_for_each; [| constructor].
    intros word results Hword Hres.
    eapply yields_bind; [apply yields_time_check |]. intros _ _.
    apply (by_length_get_words cache Hok) in Hword as [_ Hlen].
    eapply yields_bind.
    + apply (decompose_spells cs vs compiled re_compile re_match word v'
               (findall_refs p) 0 []); [exact Hfits |].
      now rewrite Hnames.
    + intros [d'|]; [| intros _; now apply yields_ret].
      intros [_ Hspell]. apply yields_ret.
      apply Forall_app. split; [exact Hres |].
      constructor; [| constructor]. split; [reflexivity |].
      rewrite Hspell. cbn [append]. f_equal.
      rewrite <- Hlen. rewrite <- (append_empty_r word) at 2.
      apply substring_prefix.
Qed.

Lemma one_clause_results_spell_their_word_witness :
  yields
    (solve_equation frozen_clock alphabetical_consonants alphabetical_vowels
                    PyRe.regex PyRe.compile PyRe.match_ demo_cache 5%Z
                    [("A", {| var_name := "A"; min_len := 2; max_len := 2;
                              pattern := "*" |});
                     ("B", {| var_name := "B"; min_len := 2; max_len := 2;
                              pattern := "*" |})]
                    ["A~B"])
    (Forall (fun r : match_result =>
               let '(word1, word2, decomp) := r in
               word2 = None /\
               build_word2 (findall_refs "A~B") decomp "" = Some word1)).
Proof.
  apply (one_clause_results_spell_their_word frozen_clock
           alphabetical_consonants alphabetical_vowels PyRe.regex PyRe.compile
           PyRe.match_ demo_cache 5%Z
           [("A", {| var_name := "A"; min_len := 2; max_len := 2;
                     pattern := "*" |});
            ("B", {| var_name := "B"; min_len := 2; max_len := 2;
                     pattern := "*" |})]
           "A~B").
  - reflexivity.
  - constructor; [intros [H | []]; discriminate H |].
    constructor; [intros [] | constructor].
Defined.

Lemma parse_structure1_structure (time_at : nat -> Z) (timeout : Z)
      (variables : variables_t) :
  forall (vars1 : list string) (total_len : nat) (structure1 : list var_detail),
    yields (parse_structure1 time_at timeout variables vars1 total_len structure1)
           (fun r => match r with
                     | None => True
                     | Some (t', v') =>
                         exists new,
                           v' = structure1 ++ new /\
                           t' = total_len + total_length new /\
                           Forall2 detail_fits new vars1
                     end).
Proof.
  induction vars1 as [|ref r IH]; intros total_len structure1.
  - apply yields_ret. exists []. rewrite app_nil_r.
    unfold total_length. simpl.
    split; [reflexivity |]. split; [lia | constructor].
  - cbn [parse_structure1].
    eapply yields_bind; [apply yields_time_check |]. intros _ _.
    destruct (Py.dict_get variables (Py.replace "~" "" ref)) as [vi|];
      [| now apply yields_ret].
    destruct (negb (min_len vi =? max_len vi)); [now apply yields_ret |].
    eapply yields_weaken; [apply IH |].
    intros [[t' v']|]; [| exact (fun _ => I)].
    intros [new [-> [-> Hnew]]].
    eexists (_ :: new). rewrite <- app_assoc. cbn [app].
    split; [reflexivity |].
    split; [unfold total_length; cbn [fold_right vd_len]; lia |].
    constructor; [| exact Hnew]. split; reflexivity.
Qed.

(** The relation "sequence ; reversed sequence" on a first clause whose
    references name distinct variables: it only appends results, and for
    each of them the two clauses applied to the bindings spell the two
    words, the second of which is in the word set. *)
Theorem sequence_reversal_results_spell_both_words :
  forall (time_at : nat -> Z) (cs vs : string) (compiled : Type)
         (re_compile : string -> option compiled)
         (re_match : compiled -> string -> bool)
         (cache : WordlistCache) (timeout : Z)
         (variables : variables_t) (vars1 vars2 : list string)
         (results_paired : list match_result),
    index_ok cache = true ->
    NoDup (map (Py.replace "~" "") vars1) ->
    yields
      (solve_sequence_reversal time_at cs vs compiled re_compile re_match
         cache timeout variables vars1 vars2 results_paired)
      (fun r => exists new,
                  fst r = results_paired ++ new /\
                  Forall (spelled_pair cache vars1 vars2) new).
Proof.
  intros time_at cs vs compiled re_compile re_match cache timeout variables
         vars1 vars2 results_paired Hok Hnd.
  unfold solve_sequence_reversal.
  eapply yields_bind
    with (Q1 := fun r => match r with
                         | None => True
                         | Some (t', v') =>
                             t' = total_length v' /\
                             Forall2 detail_fits v' vars1
                         end).
  - intros s. unfold try_except_any.
    pose proof (parse_structure1_structure time_at timeout variables
                  vars1 0 [] s) as H.
    destruct (parse_structure1 time_at timeout variables vars1 0 [] s)
      as [[r|e] s']; cbn [fst] in *; [| subst e; reflexivity].
    destruct r as [[t' v']|]; [| exact I].
    destruct H as [new [-> [-> Hnew]]]. cbn [app]. auto.
  - intros [[t' v']|];
      [| intros _; apply yields_ret; exists []; rewrite app_nil_r;
         split; [reflexivity | constructor]].
    intros [-> Hfits].
    assert (Hnames : map vd_name v' = map (Py.replace "~" "") vars1).
    { clear -Hfits. induction Hfits as [|vd ref ds refs [Hn _] _ IH];
        [reflexivity |]. cbn [map]. now rewrite Hn, IH. }
    eapply yields_bind
      with (Q1 := fun st : list match_result * list (list (string * string)) =>
                    exists new,
                      fst st = results_paired ++ new /\
                      Forall (spelled_pair cache vars1 vars2) new).
    + apply yields_for_each;
        [| exists []; rewrite app_nil_r; split; [reflexivity | constructor]].
      intros word1 [results found] Hword [new [Hnew Hall]]. cbn [fst] in Hnew.
      eapply yields_bind; [apply yields_time_check |]. intros _ _.
      apply (by_length_get_words cache Hok) in Hword as [_ Hlen].
      eapply yields_bind.
      * apply (decompose_spells cs vs compiled re_compile re_match word1 v'
                 vars1 0 []); [exact Hfits |].
        now rewrite Hnames.
      * intros [parts|];
          [| intros _; apply yields_ret; exists new; auto].
        intros [_ Hspell].
        destruct (build_word2 vars2 parts "") as [word2|] eqn:Hw2;
          [| apply yields_ret; exists new; auto].
        destruct (Py.str_in word2 (words_set cache)) eqn:Hin;
          [| apply yields_ret; exists new; auto].
        destruct (String.eqb word1 word2 && existsb _ found);
          [apply yields_ret; exists new; auto |].
        apply yields_ret. exists (new ++ [(word1, Some word2, parts)]).
        cbn [fst]. split; [now rewrite Hnew, app_assoc |].
        apply Forall_app. split; [exact Hall |].
        constructor; [| constructor].
        exists word2. split; [reflexivity |]. split; [| split].
        -- rewrite Hspell. cbn [append]. f_equal.
           rewrite <- Hlen. rewrite <- (append_empty_r word1) at 2.
           apply substring_prefix.
        -- exact Hw2.
        -- now apply str_in_In.
    + intros [results found] H. apply yields_ret. exact H.
Qed.

Lemma sequence_reversal_results_spell_both_words_witness :
  yields
    (solve_sequence_reversal frozen_clock alphabetical_consonants
       alphabetical_vowels PyRe.regex PyRe.compile PyRe.match_ demo_cache 5%Z
       [("A", {| var_name := "A"; min_len := 2; max_len := 2; pattern := "*" |});
        ("B", {| var_name := "B"; min_len := 2; max_len := 2; pattern := "*" |})]
       ["A"; "B"] ["~B"; "~A"] [])
    (fun r => exists new,
                fst r = [] ++ new /\
                Forall (spelled_pair demo_cache ["A"; "B"] ["~B"; "~A"]) new).
Proof.
  apply (sequence_reversal_results_spell_both_words frozen_clock
           alphabetical_consonants alphabetical_vowels PyRe.regex PyRe.compile
           PyRe.match_ demo_cache 5%Z
           [("A", {| var_name := "A"; min_len := 2; max_len := 2; pattern := "*" |});
            ("B", {| var_name := "B"; min_len := 2; max_len := 2; pattern := "*" |})]
           ["A"; "B"] ["~B"; "~A"] []).
  - reflexivity.
  - constructor; [intros [H | []]; discriminate H |].
    constructor; [intros [] | constructor].
Defined.

(* ================================================================== *)
(** ** The query "X ; ~X" as [solve_equation] answers it *)
(* ================================================================== *)

(** The second block of the two-clause case on the clauses [X] and [~X]:
    it only appends results, each a word of the variable's length with its
    mirror image, bound to the variable. *)
Lemma sequence_reversal_on_self_reverse
      (time_at : nat -> Z) (cs vs : string) (compiled : Type)
      (re_compile : string -> option compiled)
      (re_match : compiled -> string -> bool)
      (cache : WordlistCache) (timeout : Z)
      (variables : variables_t) (c : ascii)
      (results_paired : list match_result) :
  index_ok cache = true ->
  is_var_letter c = true ->
  yields
    (solve_sequence_reversal time_at cs vs compiled re_compile re_match cache
       timeout variables [Py.str1 c] [String "~" (Py.str1 c)] results_paired)
    (fun r => exists new,
                fst r = results_paired ++ new /\
                Forall (mirror_binding (Py.str1 c)) new).
Proof.
  intros Hok Hc.
  pose proof (var_letter_not_tilde c Hc) as Hnt.
  unfold solve_sequence_reversal.
  eapply yields_bind
    with (Q1 := fun r => match r with
                         | None => True
                         | Some (t', v') =>
                             exists vd,
                               v' = [vd] /\ t' = vd_len vd /\
                               vd_name vd = Py.str1 c /\
                               vd_reversed vd = false
                         end).
  - intros s. unfold try_except_any.
    pose proof (parse_structure1_structure time_at timeout variables
                  [Py.str1 c] 0 [] s) as H.
    destruct (parse_structure1 time_at timeout variables [Py.str1 c] 0 [] s)
      as [[r|e] s']; cbn [fst] in *; [| subst e; reflexivity].
    destruct r as [[t' v']|]; [| exact I].
    destruct H as [new [-> [-> Hnew]]]. cbn [app].
    inversion Hnew as [|vd ref ds refs [Hname Hrev] Hrest]; subst.
    inversion Hrest; subst.
    exists vd. split; [reflexivity |].
    split; [unfold total_length; cbn [fold_right]; lia |].
    cbn [Py.replace Py.startswith Py.str1] in Hname, Hrev.
    rewrite Hnt in Hname, Hrev. auto.
  - intros [[t' v']|];
      [| intros _; apply yields_ret; exists []; rewrite app_nil_r;
         split; [reflexivity | constructor]].
    intros [vd [-> [-> [Hname Hrev]]]].
    eapply yields_bind
      with (Q1 := fun st : list match_result * list (list (string * string)) =>
                    exists new,
                      fst st = results_paired ++ new /\
                      Forall (mirror_binding (Py.str1 c)) new).
    + apply yields_for_each;
        [| exists []; rewrite app_nil_r; split; [reflexivity | constructor]].
      intros word1 [results found] Hword [new [Hnew Hall]]. cbn [fst] in Hnew.
      eapply yields_bind; [apply yields_time_check |]. intros _ _.
      apply (by_length_get_words cache Hok) in Hword as [_ Hlen].
      cbn [decompose]. rewrite Hrev, Hname.
      assert (Hpart : Py.slice word1 0 (0 + vd_len vd) = word1).
      { unfold Py.slice. rewrite <- Hlen.
        replace (0 + String.length word1 - 0) with (String.length word1) by lia.
        rewrite <- (append_empty_r word1) at 2. apply substring_prefix. }
      rewrite Hpart.
      eapply yields_bind
        with (Q1 := fun d => d = None \/ d = Some [(Py.str1 c, word1)]).
      * eapply yields_bind; [apply yields_matches_pattern |].
        intros ok _. destruct ok; cbn [negb]; apply yields_ret;
          [now right | now left].
      * intros d [-> | ->]; [apply yields_ret; exists new; auto |].
        cbn [build_word2 Py.startswith Py.replace Py.str1 append].
        rewrite Ascii.eqb_refl, Hnt. cbn [append Py.dict_get].
        rewrite String.eqb_refl.
        destruct (Py.str_in _ (words_set cache));
          [| apply yields_ret; exists new; auto].
        destruct (String.eqb word1 _ && existsb _ found);
          [apply yields_ret; exists new; auto |].
        apply yields_ret.
        exists (new ++ [(word1, Some (Py.reversed word1),
                         [(Py.str1 c, word1)])]).
        cbn [fst]. split; [now rewrite Hnew, app_assoc |].
        apply Forall_app. split; [exact Hall |].
        constructor; [| constructor]. split; reflexivity.
    + intros [results found] H. apply yields_ret. exact H.
Qed.

(** The query "X ; ~X": every result [solve_equation] returns pairs a word
    with its mirror image as the second word and binds the variable to the
    first word. *)
Theorem self_reverse_query_pairs_words_with_mirror_images :
  forall (time_at : nat -> Z) (cs vs : string) (compiled : Type)
         (re_compile : string -> option compiled)
         (re_match : compiled -> string -> bool)
         (cache : WordlistCache) (timeout : Z)
         (variables : variables_t) (c : ascii),
    index_ok cache = true ->
    is_var_letter c = true ->
    yields
      (solve_equation time_at cs vs compiled re_compile re_match cache timeout
                      variables [Py.str1 c; String "~" (Py.str1 c)])
      (Forall (mirror_binding (Py.str1 c))).
Proof.
  intros time_at cs vs compiled re_compile re_match cache timeout variables c
         Hok Hc.
  unfold solve_equation.
  eapply yields_bind with (Q1 := fun _ => True); [intros s; exact I |].
  intros now _.
  eapply yields_bind with (Q1 := fun _ => True); [intros s; exact I |].
  intros _ _.
  destruct variables as [|v0 vr] eqn:Hv; [apply yields_ret; constructor |].
  rewrite <- Hv in *. clear Hv v0 vr.
  unfold solve_pair.
  cbn [match_bare match_tilde Py.str1]. rewrite Ascii.eqb_refl, Hc.
  change (PyRe.at_end "") with true. cbn [andb]. cbn beta iota.
  rewrite String.eqb_refl.
  eapply yields_bind
    with (Q1 := fun first =>
                  match first with
                  | None => True
                  | Some (results_paired, handled) =>
                      handled = true /\
                      Forall (mirror_binding (Py.str1 c)) results_paired
                  end).
  - eapply yields_bind;
      [apply (self_reverse_block_results time_at cs vs compiled re_compile
                re_match cache timeout variables (Py.str1 c)) |].
    intros [results|] H; apply yields_ret; [| exact I].
    split; [reflexivity |]. destruct H as [H _].
    eapply Forall_impl; [| exact H].
    intros [[w1 w2] d] [Hw2 [_ Hd]]. split; assumption.
  - intros [[results_paired handled]|];
      [| intros _; apply yields_ret; constructor].
    intros [-> Hres].
    eapply yields_bind
      with (Q1 := fun second : list match_result * bool =>
                    snd second = true /\
                    Forall (mirror_binding (Py.str1 c)) (fst second)).
    + destruct (sequence_reversal_shape _ _ _ _).
      * cbn [findall_refs Py.str1]. rewrite Ascii.eqb_refl, Hc.
        rewrite (var_letter_not_tilde c Hc). cbn [findall_refs].
        eapply yields_bind;
          [apply (sequence_reversal_on_self_reverse time_at cs vs compiled
                    re_compile re_match cache timeout variables c
                    results_paired Hok Hc) |].
        intros r [new [Hr Hnew]]. apply yields_ret. cbn [fst snd orb].
        split; [reflexivity |]. rewrite Hr. apply Forall_app. now split.
      * apply yields_ret. now split.
    + intros second [Hhandled Hall]. rewrite Hhandled. cbn [negb].
      apply yields_ret. exact Hall.
Qed.

Lemma self_reverse_query_pairs_words_with_mirror_images_witness :
  yields
    (solve_equation frozen_clock alphabetical_consonants alphabetical_vowels
                    PyRe.regex PyRe.compile PyRe.match_ palindrome_cache 5%Z
                    [("A", {| var_name := "A"; min_len := 4; max_len := 4;
                              pattern := "*" |})]
                    [Py.str1 "A"; String "~" (Py.str1 "A")])
    (Forall (mirror_binding (Py.str1 "A"))).
Proof.
  apply (self_reverse_query_pairs_words_with_mirror_images frozen_clock
           alphabetical_consonants alphabetical_vowels PyRe.regex PyRe.compile
           PyRe.match_ palindrome_cache 5%Z
           [("A", {| var_name := "A"; min_len := 4; max_len := 4;
                     pattern := "*" |})]
           "A"); reflexivity.
Defined.

(* ================================================================== *)
(** ** Anagram clauses of letters *)
(* ================================================================== *)

Section AnagramRuns.

Variable time_at : nat -> Z.
Variable cache : WordlistCache.
Variable timeout : Z.

(** An anagram clause, while the deadline holds, returns the words of the
    index that the clause accepts, and keeps the start time. *)
Lemma anagram_search_returns :
  forall (content : string) (s : pm_state),
    index_ok cache = true ->
    (forall n, (time_at n - start_time s <= timeout)%Z) ->
    exists ms s',
      process_anagram_pattern time_at cache timeout (String "/" content) s
      = (Ok (Some ms), s') /\
      forall w, In w ms <-> In w (wordlist cache) /\ anagram_accepts content w.
Proof.
  intros content s Hok Hclock.
  set (t0 := start_time s) in *.
  set (dots := Py.count "." content).
  set (base := Py.sorted Py.char_leb (base_letters_of content)).
  set (min_l := length base + dots).
  set (candidates :=
         if 0 <? Py.count "*" content
         then flat_map (fun kv : nat * list string =>
                          if min_l <=? fst kv then snd kv else [])
                       (word_by_length cache)
         else by_length_get (word_by_length cache) min_l).
  assert (Hrun :
    hoare (fun s => start_time s = t0)
          (process_anagram_pattern time_at cache timeout (String "/" content))
          (fun r s => r = Some (filter (anagram_keeps content) candidates)
                      /\ start_time s = t0)
          (fun _ _ => False)).
  { unfold process_anagram_pattern. simpl Py.startswith. simpl negb. cbv iota.
    eapply hoare_bind; [apply time_check_passes; exact Hclock |].
    intros u. simpl Py.drop.
    fold dots. change (filter Py.isalpha (list_ascii_of_string content))
                 with (base_letters_of content). fold base. fold min_l.
    eapply hoare_bind.
    - apply (hoare_for_enumerate_fold
               (fun s => start_time s = t0) (fun _ _ => False) _
               (fun word matches =>
                  if anagram_keeps content word then matches ++ [word]
                  else matches)).
      intros i word acc.
      eapply hoare_bind with (Q1 := fun _ s => start_time s = t0).
      + destruct (i mod 1000 =? 0).
        * apply time_check_passes. exact Hclock.
        * apply hoare_ret. auto.
      + intros u2. unfold anagram_keeps. fold dots. fold base. fold min_l.
        destruct (Py.count "*" content); simpl;
          repeat (match goal with
                  | |- context [if negb ?b then _ else _] => destruct b; simpl
                  | |- context [if ?b then _ else _] => destruct b; simpl
                  end);
          apply hoare_ret; auto.
    - intros matches. apply hoare_ret. intros s1 [-> Hs1].
      rewrite fold_keep_filter. simpl. split; [| exact Hs1].
      unfold candidates. destruct (0 <? Py.count "*" content); [reflexivity |].
      now rewrite Nat.eqb_refl. }
  specialize (Hrun s eq_refl).
  destruct (process_anagram_pattern _ _ _ _ s) as [[r|e] s'] eqn:Hp;
    [| contradiction].
  destruct Hrun as [-> _].
  exists (filter (anagram_keeps content) candidates), s'.
  split; [reflexivity |].
  intros w. rewrite filter_In, (anagram_keeps_accepts time_at).
  assert (Hlen : length base = length (base_letters_of content))
    by (apply Permutation_length, sorted_perm).
  unfold candidates, min_l, dots. rewrite Hlen.
  destruct (Py.count "*" content) as [|k] eqn:Hs; simpl.
  - rewrite (by_length_get_words cache Hok).
    assert (Hx : anagram_accepts content w ->
                 String.length w
                 = length (base_letters_of content) + Py.count "." content).
    { unfold anagram_accepts. rewrite Hs. simpl. intros [_ H]. lia. }
    tauto.
  - rewrite in_flat_map. split.
    + intros [[[n ws] [Hin Hw]] [Hacc Hge]]. simpl in Hw.
      destruct (_ <=? n) eqn:Hn; [| contradiction].
      destruct (bucket_words cache Hok _ _ _ Hin Hw). auto.
    + intros [Hw Hacc]. pose proof Hacc as [_ Hge]. unfold anagram_accepts in Hacc.
      rewrite Hs in Hge. simpl in Hge.
      split; [| split; [split; [apply Hacc | rewrite Hs; exact Hge] | exact Hge]].
      exists (String.length w, by_length_get (word_by_length cache) (String.length w)).
      assert (Hb : In w (by_length_get (word_by_length cache) (String.length w)))
        by (apply (by_length_get_words cache Hok); auto).
      split; [now apply by_length_get_entry with (w := w) |].
      simpl. apply Nat.leb_le in Hge. now rewrite Hge.
Qed.

End AnagramRuns.

Lemma alpha_count_other (c : ascii) (content : string) :
  Py.isalpha c = false ->
  Py.all_chars Py.isalpha content = true ->
  Py.count c content = 0.
Proof.
  intros Hc. induction content as [|d r IH]; [reflexivity |].
  cbn [Py.all_chars Py.count]. intros H.
  apply andb_true_iff in H as [Hd Hr]. rewrite (IH Hr).
  destruct (Ascii.eqb_spec d c) as [-> |]; [congruence | reflexivity].
Qed.

Lemma alpha_base_letters (content : string) :
  Py.all_chars Py.isalpha content = true ->
  base_letters_of content = list_ascii_of_string content.
Proof.
  unfold base_letters_of. induction content as [|d r IH]; [reflexivity |].
  cbn [Py.all_chars list_ascii_of_string filter]. intros H.
  apply andb_true_iff in H as [Hd Hr]. now rewrite Hd, (IH Hr).
Qed.

Lemma length_chars (w : string) :
  length (list_ascii_of_string w) = String.length w.
Proof. induction w as [|c w IH]; simpl; [reflexivity | now rewrite IH]. Qed.

(** Two lists of the same length, one of which has every character at
    least as often as the other, are rearrangements of each other. *)
Lemma covering_same_length (l1 : list ascii) :
  forall l2 : list ascii,
    (forall c, count_occ ascii_dec l1 c <= count_occ ascii_dec l2 c) ->
    length l1 = length l2 ->
    Permutation l1 l2.
Proof.
  induction l1 as [|x r IH]; intros l2 Hcount Hlen.
  - destruct l2; [constructor | discriminate Hlen].
  - assert (Hin : In x l2).
    { apply (count_occ_In ascii_dec). specialize (Hcount x).
      rewrite count_occ_cons_eq in Hcount by reflexivity. lia. }
    apply in_split in Hin as [a [b ->]].
    apply Permutation_cons_app. apply IH.
    + intros c. specialize (Hcount c).
      rewrite count_occ_app in *. cbn [count_occ] in Hcount.
      destruct (ascii_dec x c); lia.
    + rewrite length_app in *. cbn [length] in *. lia.
Qed.

(** For a clause made of letters, the words the clause accepts are the
    rearrangements of its letters. *)
Lemma letters_accept_rearrangements (content w : string) :
  Py.all_chars Py.isalpha content = true ->
  anagram_accepts content w <->
  Permutation (list_ascii_of_string w) (list_ascii_of_string content).
Proof.
  intros Halpha. unfold anagram_accepts, covers.
  rewrite (alpha_base_letters content Halpha).
  rewrite (alpha_count_other "*" content eq_refl Halpha).
  rewrite (alpha_count_other "." content eq_refl Halpha).
  cbn [Nat.eqb]. rewrite length_chars. split.
  - intros [Hcov Hlen]. symmetry. apply covering_same_length.
    + intros c. rewrite (count_occ_string w). apply Hcov.
    + rewrite !length_chars. lia.
  - intros Hperm. split.
    + intros c. rewrite <- (count_occ_string w).
      apply Nat.eq_le_incl. symmetry.
      now apply (Permutation_count_occ ascii_dec).
    + apply Permutation_length in Hperm. rewrite !length_chars in Hperm. lia.
Qed.

(** A query of one anagram clause made of letters, while the deadline
    holds: exactly the words of the word list that rearrange the letters,
    tagged [anagram]. *)
Theorem letters_anagram_query_returns_the_rearrangements :
  forall (time_at : nat -> Z) (cs vs : string) (compiled : Type)
         (re_compile : string -> option compiled)
         (re_match : compiled -> string -> bool)
         (cache : WordlistCache) (timeout : Z)
         (query content : string) (s : pm_state),
    index_ok cache = true ->
    query_clauses query = [String "/" content] ->
    Py.all_chars Py.isalpha content = true ->
    (forall n, (time_at n - time_at (clock s) <= timeout)%Z) ->
    exists ms,
      fst (execute_query time_at cs vs compiled re_compile re_match cache
             timeout query s)
      = Ok (Some (map no_bindings ms), "anagram") /\
      forall w,
        In w ms <->
        In w (wordlist cache) /\
        Permutation (list_ascii_of_string w) (list_ascii_of_string content).
Proof.
  intros time_at cs vs compiled re_compile re_match cache timeout query content
         s Hok Hq Halpha Hclock.
  rewrite execute_query_parts, Hq.
  assert (Hdef : is_definition_clause (String "/" content) = false).
  { unfold is_definition_clause. apply andb_false_r. }
  cbn [filter]. rewrite Hdef. cbn [negb].
  unfold definitions_loop. cbn [for_each]. unfold bind at 1. cbn [ret].
  unfold guarded_block. cbn [length Nat.eqb negb andb Py.startswith].
  rewrite Ascii.eqb_refl.
  destruct (anagram_search_returns time_at cache timeout content
              (dispatch_state time_at s) Hok Hclock) as [ms [s' [Hrun Hms]]].
  unfold try_except_any, bind. rewrite Hrun. cbn [ret fst].
  exists ms. split; [reflexivity |].
  intros w. rewrite Hms.
  now rewrite (letters_accept_rearrangements content w Halpha).
Qed.

Lemma letters_anagram_query_returns_the_rearrangements_witness :
  exists ms,
    fst (execute_query frozen_clock alphabetical_consonants alphabetical_vowels
           PyRe.regex PyRe.compile PyRe.match_ demo_cache 5%Z "/act"
           (fresh_state 0 0 []))
    = Ok (Some (map no_bindings ms), "anagram") /\
    forall w,
      In w ms <->
      In w (wordlist demo_cache) /\
      Permutation (list_ascii_of_string w) (list_ascii_of_string "act").
Proof.
  apply (letters_anagram_query_returns_the_rearrangements frozen_clock
           alphabetical_consonants alphabetical_vowels PyRe.regex PyRe.compile
           PyRe.match_ demo_cache 5%Z "/act" "act" (fresh_state 0 0 [])).
  - reflexivity.
  - reflexivity.
  - reflexivity.
  - intros n. unfold frozen_clock. simpl. lia.
Defined.

(* ================================================================== *)
(** ** The clauses of a query *)
(* ================================================================== *)

Lemma contains_chars (c : ascii) (s : string) :
  Py.contains c s = true <-> In c (list_ascii_of_string s).
Proof.
  induction s as [|d s IH]; simpl; [split; [discriminate | contradiction] |].
  rewrite orb_true_iff, IH, Ascii.eqb_eq. tauto.
Qed.

Lemma reversed_chars (c : ascii) (s : string) :
  In c (list_ascii_of_string (Py.reversed s)) <-> In c (list_ascii_of_string s).
Proof.
  unfold Py.reversed. rewrite list_ascii_of_string_of_list_ascii.
  symmetry. apply in_rev.
Qed.

Lemma lstrip_chars (c : ascii) (s : string) :
  In c (list_ascii_of_string (Py.lstrip s)) -> In c (list_ascii_of_string s).
Proof.
  induction s as [|d s IH]; simpl; [auto |].
  destruct (Py.isspace d); [intros H; right; now apply IH | auto].
Qed.

Lemma strip_chars (c : ascii) (s : string) :
  In c (list_ascii_of_string (Py.strip s)) -> In c (list_ascii_of_string s).
Proof.
  unfold Py.strip. intros H.
  apply reversed_chars, lstrip_chars, reversed_chars, lstrip_chars in H.
  exact H.
Qed.

Lemma split_aux_pieces (sep : ascii) (s : string) :
  forall cur : string,
    ~ In sep (list_ascii_of_string cur) ->
    Forall (fun piece => ~ In sep (list_ascii_of_string piece))
           (Py.split_aux sep cur s).
Proof.
  induction s as [|c s IH]; intros cur Hcur; cbn [Py.split_aux].
  - constructor; [| constructor]. now rewrite reversed_chars.
  - destruct (Ascii.eqb_spec c sep) as [-> | Hne].
    + constructor; [now rewrite reversed_chars |].
      apply IH. simpl. tauto.
    + apply IH. simpl. intros [H | H]; [congruence | tauto].
Qed.

Lemma lstrip_head (s : string) :
  match Py.lstrip s with
  | EmptyString => True
  | String c _ => Py.isspace c = false
  end.
Proof.
  induction s as [|c s IH]; simpl; [exact I |].
  destruct (Py.isspace c) eqn:Hc; [exact IH | exact Hc].
Qed.

Lemma lstrip_unspaced (s : string) :
  match s with
  | EmptyString => True
  | String c _ => Py.isspace c = false
  end ->
  Py.lstrip s = s.
Proof. destruct s as [|c s]; simpl; [reflexivity | now intros ->]. Qed.

Lemma lstrip_suffix (s : string) :
  exists pre : string, s = (pre ++ Py.lstrip s)%string.
Proof.
  induction s as [|c s [pre IH]]; simpl; [now exists "" |].
  destruct (Py.isspace c).
  - exists (String c pre). simpl. now rewrite <- IH.
  - now exists "".
Qed.

Lemma reversed_append (a b : string) :
  Py.reversed (a ++ b) = (Py.reversed b ++ Py.reversed a)%string.
Proof.
  unfold Py.reversed.
  assert (Hchars : forall x y : string,
            list_ascii_of_string (x ++ y)
            = (list_ascii_of_string x ++ list_ascii_of_string y)%list).
  { induction x as [|c x IH]; intros y; simpl; [reflexivity | now rewrite IH]. }
  assert (Htext : forall l m : list ascii,
            string_of_list_ascii (l ++ m)
            = (string_of_list_ascii l ++ string_of_list_ascii m)%string).
  { induction l as [|c l IH]; intros m; simpl; [reflexivity | now rewrite IH]. }
  now rewrite Hchars, rev_app_distr, Htext.
Qed.

(** [strip] leaves no white space at either end. *)
Lemma strip_is_stripped (s : string) :
  Py.lstrip (Py.strip s) = Py.strip s /\
  Py.lstrip (Py.reversed (Py.strip s)) = Py.reversed (Py.strip s).
Proof.
  unfold Py.strip.
  set (a := Py.lstrip s). set (b := Py.lstrip (Py.reversed a)).
  split.
  - apply lstrip_unspaced.
    destruct (lstrip_suffix (Py.reversed a)) as [pre Hpre]. fold b in Hpre.
    apply (f_equal Py.reversed) in Hpre.
    rewrite reversed_involutive, reversed_append in Hpre.
    pose proof (lstrip_head s) as Ha. fold a in Ha.
    destruct (Py.reversed b) as [|c r]; [exact I |].
    rewrite Hpre in Ha. exact Ha.
  - rewrite reversed_involutive. unfold b. apply lstrip_unspaced, lstrip_head.
Qed.

(** The clauses [execute_query] works on are never empty, never contain
    the separator, and have no white space at either end. *)
Theorem query_clauses_are_stripped_and_nonempty :
  forall query : string,
    Forall (fun clause =>
              clause <> "" /\ Py.contains ";" clause = false /\
              Py.lstrip clause = clause /\
              Py.lstrip (Py.reversed clause) = Py.reversed clause)
           (query_clauses query).
Proof.
  intros query. unfold query_clauses.
  apply Forall_forall. intros clause Hin.
  apply in_map_iff in Hin as [piece [<- Hpiece]].
  apply filter_In in Hpiece as [Hpiece Hne]. split; [| split].
  - destruct (String.eqb_spec (Py.strip piece) ""); [discriminate Hne | assumption].
  - pose proof (split_aux_pieces ";" (Py.strip query) "" (fun H => H)) as Hall.
    rewrite Forall_forall in Hall. specialize (Hall piece Hpiece).
    destruct (Py.contains ";" (Py.strip piece)) eqn:Hc; [| reflexivity].
    apply contains_chars, strip_chars in Hc. contradiction.
  - apply strip_is_stripped.
Qed.

(* ================================================================== *)
(** ** The loader on a small file *)
(* ================================================================== *)

Lemma loaded_words_are_lowercase_letters_witness :
  Forall (fun line => Py.isascii line = true) ["Kayak "; "x1"; "act"] /\
  In "kayak" (wordlist (fst (load_wordlist (Some ["Kayak "; "x1"; "act"])))) /\
  "kayak" <> "" /\ Py.all_chars Py.islower "kayak" = true.
Proof.
  assert (Ha : Forall (fun line => Py.isascii line = true)
                      ["Kayak "; "x1"; "act"])
    by (repeat constructor).
  assert (H : In "kayak"
                 (wordlist (fst (load_wordlist (Some ["Kayak "; "x1"; "act"])))))
    by (vm_compute; auto).
  split; [exact Ha |]. split; [exact H |].
  exact (loaded_words_are_lowercase_letters ["Kayak "; "x1"; "act"] "kayak"
           Ha H).
Defined.
